(** * az-bake: the build monitor of [azext_bake/_ci.py]

    A shallow embedding of the CI helpers of the [bake] Azure CLI extension:
    the [BuildResult] value object, the log delta streamer, the tail helper,
    the status fetcher ([_get_container_state], [poll_build]), the fan-out
    poller ([wait_for_builds]), the reporter ([report_results]) and the
    single-job follower ([follow_image_logs]).

    Python values are modelled as follows.
    - [str] is [string]; every character stands for one code point below 256,
      so [String.length] is Python's [len].
    - [int] is [Z]; [Optional[T]] is [option T].
    - [dict] is [gmap], [set] is [gset] (only lookups, inserts and sizes are
      used by the code, never the iteration order).
    - Effects (standard output, the logger, appended files, [time.sleep], and
      the calls made to the Azure clients) are recorded in a [world] value
      that is threaded through a small state-and-exception monad. *)

From Stdlib Require Import ZArith Ascii String List Lia.
From stdpp Require Import base option list gmap strings pretty.

Local Open Scope Z_scope.

(** ** Python primitives *)

Module Py.

(** The result of running a Python call: a value, or a raised exception
    (only its message is kept). *)
Inductive outcome (A : Type) : Type :=
| Returned (a : A)
| Raised (e : string).
Global Arguments Returned {A} a.
Global Arguments Raised {A} e.

(** [x or d] on an optional string: [None] and the empty string are falsy. *)
Definition truthy (s : option string) : bool :=
  match s with
  | Some (String _ _) => true
  | _ => false
  end.

Definition or_else (s : option string) (d : option string) : option string :=
  if truthy s then s else d.

Definition or_str (s : option string) (d : string) : string :=
  match s with
  | Some (String c r) => String c r
  | _ => d
  end.

(** [len(s)] as a Python integer. *)
Definition len (s : string) : Z := Z.of_nat (String.length s).

(** Start index of the slice [x[i:]] for a sequence of length [n]:
    a negative index counts from the end, and both sides are clamped. *)
Definition slice_start (n i : Z) : nat :=
  Z.to_nat (if i <? 0 then Z.max (n + i) 0 else Z.min i n).

Fixpoint str_drop (n : nat) (s : string) : string :=
  match n, s with
  | O, _ => s
  | S n', String _ r => str_drop n' r
  | S _, EmptyString => EmptyString
  end.

(** [s[i:]] on a string and [l[i:]] on a list. *)
Definition str_from (s : string) (i : Z) : string :=
  str_drop (slice_start (len s) i) s.

Definition list_from {A} (l : list A) (i : Z) : list A :=
  drop (slice_start (Z.of_nat (length l)) i) l.

(** [str.isspace] on the code points below 256:
    TAB LF VT FF CR, FS GS RS US, SPACE, NEL and NBSP. *)
Definition isspace (c : ascii) : bool :=
  let n := nat_of_ascii c in
  ((9 <=? n) && (n <=? 13) || (28 <=? n) && (n <=? 31)
   || (n =? 32) || (n =? 133) || (n =? 160))%nat.

(** The line boundaries of [str.splitlines] below 256:
    LF VT FF CR, FS GS RS and NEL. *)
Definition islinebreak (c : ascii) : bool :=
  let n := nat_of_ascii c in
  ((10 <=? n) && (n <=? 13) || (28 <=? n) && (n <=? 30) || (n =? 133))%nat.

Definition LF : ascii := ascii_of_nat 10.
Definition CR : ascii := ascii_of_nat 13.

Fixpoint lstrip (s : string) : string :=
  match s with
  | String c r => if isspace c then lstrip r else s
  | EmptyString => EmptyString
  end.

Fixpoint rstrip (s : string) : string :=
  match s with
  | String c r =>
      match rstrip r with
      | EmptyString => if isspace c then EmptyString else String c EmptyString
      | r' => String c r'
      end
  | EmptyString => EmptyString
  end.

(** [s.strip()] *)
Definition strip (s : string) : string := rstrip (lstrip s).

(** [s.splitlines()]: the lines without their boundaries; CR LF is one
    boundary; a boundary at the very end opens no further line. *)
Fixpoint splitlines (s : string) : list string :=
  match s with
  | EmptyString => []
  | String c r =>
      if islinebreak c then
        EmptyString ::
          (if Ascii.eqb c CR then
             match r with
             | String c' r' => if Ascii.eqb c' LF then splitlines r' else splitlines r
             | EmptyString => []
             end
           else splitlines r)
      else
        match splitlines r with
        | [] => [String c EmptyString]
        | l :: ls => String c l :: ls
        end
  end.

(** [sep.join(l)] *)
Definition join (sep : string) (l : list string) : string := String.concat sep l.

(** [s.replace(old, new)] for a one-character [old]. *)
Fixpoint replace (old : ascii) (new : string) (s : string) : string :=
  match s with
  | EmptyString => EmptyString
  | String c r =>
      if Ascii.eqb c old then new +:+ replace old new r
      else String c (replace old new r)
  end.

(** [s * n] *)
Fixpoint repeat (s : string) (n : nat) : string :=
  match n with
  | O => EmptyString
  | S n' => s +:+ repeat s n'
  end.

(** [str(i)] for an integer. *)
Definition str_of_int (i : Z) : string := pretty i.

(** The one-character string holding a newline. *)
Definition nl : string := String LF EmptyString.

End Py.
Import Py.

(** ** The data model *)

Definition POLL_INTERVAL_SECONDS : Z := 15.
Definition TERMINATED : string := "Terminated".
Definition LOG_TAIL_LINES : Z := 50.

(** The [BuildResult] dataclass. *)
Record BuildResult : Type := mkBuildResult {
  image_name : string;
  state : string;
  exit_code : option Z;
  start_time : option string;
  finish_time : option string;
  detail_status : string;
  logs_tail : string;
  portal_url : string;
}.

(** [BuildResult(image_name=n)]: every other field at its default. *)
Definition BuildResult_default (n : string) : BuildResult :=
  {| image_name := n; state := "Unknown"; exit_code := None;
     start_time := None; finish_time := None;
     detail_status := EmptyString; logs_tail := EmptyString;
     portal_url := EmptyString |}.

(** [self.exit_code == 0] *)
Definition succeeded (r : BuildResult) : bool :=
  match exit_code r with
  | Some c => c =? 0
  | None => false
  end.

(** [self.exit_code is not None and self.exit_code != 0] *)
Definition failed (r : BuildResult) : bool :=
  match exit_code r with
  | Some c => negb (c =? 0)
  | None => false
  end.

Definition set_portal_url (r : BuildResult) (u : string) : BuildResult :=
  {| image_name := image_name r; state := state r; exit_code := exit_code r;
     start_time := start_time r; finish_time := finish_time r;
     detail_status := detail_status r; logs_tail := logs_tail r;
     portal_url := u |}.

Definition set_times (r : BuildResult) (s f : option string) : BuildResult :=
  {| image_name := image_name r; state := state r; exit_code := exit_code r;
     start_time := s; finish_time := f;
     detail_status := detail_status r; logs_tail := logs_tail r;
     portal_url := portal_url r |}.

(** What the Azure container-instance client hands back: a container group
    with its containers, each with an optional instance view and an optional
    current state.  Time stamps are kept as their [str(...)] rendering. *)
Record container_state : Type := {
  cs_state : option string;
  cs_exit_code : option Z;
  cs_detail_status : option string;
  cs_start_time : option string;
  cs_finish_time : option string;
}.

Record instance_view_t : Type := { current_state : option container_state }.

Record container : Type := {
  container_name : string;
  instance_view : option instance_view_t;
}.

Record container_group : Type := {
  containers : option (list container);
  provisioning_state : option string;
}.

(** The two Azure clients that [cf_container_groups(cli_ctx).get] and
    [cf_container(cli_ctx).list_logs] reach (the factories live in
    [_client_factory], outside of this module, and [cmd] and [cli_ctx] only
    carry them): they are a parameter of the development.  A reply may depend
    on how many client calls were issued before it (the remote job moves on
    between calls) and on the arguments of the call; a call may raise. *)
Class ContainerService : Type := {
  cg_get : nat -> string -> string -> outcome container_group;
  list_logs : nat -> string -> string -> string -> outcome (option string);
}.

(** [cf_container_groups(cli_ctx)] where it is called on its own, before any
    request: [follow_image_logs] asks for its client once, ahead of its loop,
    and the factory may raise (no subscription, no credentials).  The
    requests made through the client it hands back are those of [cg_get]. *)
Class ClientFactory : Type := {
  cf_container_groups : outcome unit;
}.

(** [os.environ], as far as the module reads it. *)
Record environ : Type := {
  GITHUB_ACTIONS : option string;
  GITHUB_ACTION : option string;
  GITHUB_OUTPUT : option string;
  GITHUB_STEP_SUMMARY : option string;
}.

(** ** Effects *)

Inductive log_level : Type := INFO | WARNING.

Inductive client_call : Type :=
| CallGet (resource_group group : string)
| CallListLogs (resource_group group container : string).

(** Everything the module does to the outside, in the order it happens. *)
Record world : Type := {
  stdout : list string;                 (* chunks written to sys.stdout *)
  logged : list (log_level * string);   (* logger.info / logger.warning *)
  appended : list (string * string);    (* (path, text) appended to a file *)
  slept : list Z;                       (* time.sleep(seconds) *)
  calls : list client_call;             (* calls to the Azure clients *)
}.

Definition world0 : world :=
  {| stdout := []; logged := []; appended := []; slept := []; calls := [] |}.

(** Computations that read and extend the [world] and may raise. *)
Definition M (A : Type) : Type := world -> outcome A * world.

Definition ret {A} (a : A) : M A := fun w => (Returned a, w).

Definition bind {A B} (m : M A) (k : A -> M B) : M B :=
  fun w =>
    match m w with
    | (Returned a, w') => k a w'
    | (Raised e, w') => (Raised e, w')
    end.

Definition raise {A} (e : string) : M A := fun w => (Raised e, w).

(** [try: m / except Exception as ex: h ex] *)
Definition try_except {A} (m : M A) (h : string -> M A) : M A :=
  fun w =>
    match m w with
    | (Returned a, w') => (Returned a, w')
    | (Raised e, w') => h e w'
    end.

Declare Scope m_scope.
Delimit Scope m_scope with M.
Notation "x <- m ;; k" := (bind m (fun x => k))
  (at level 100, m at next level, right associativity) : m_scope.
Notation "m ;;; k" := (bind m (fun _ => k))
  (at level 100, right associativity) : m_scope.

(** [sys.stdout.write(s)] *)
Definition stdout_write (s : string) : M unit :=
  fun w => (Returned tt,
            {| stdout := stdout w ++ [s]; logged := logged w;
               appended := appended w; slept := slept w; calls := calls w |}).

(** [print(s, flush=True)] *)
Definition print (s : string) : M unit := stdout_write (s +:+ nl).

Definition logger (l : log_level) (s : string) : M unit :=
  fun w => (Returned tt,
            {| stdout := stdout w; logged := logged w ++ [(l, s)];
               appended := appended w; slept := slept w; calls := calls w |}).

(** [with open(path, 'a') as f: f.write(s)] *)
Definition file_append (path s : string) : M unit :=
  fun w => (Returned tt,
            {| stdout := stdout w; logged := logged w;
               appended := appended w ++ [(path, s)];
               slept := slept w; calls := calls w |}).

Definition sleep (seconds : Z) : M unit :=
  fun w => (Returned tt,
            {| stdout := stdout w; logged := logged w; appended := appended w;
               slept := slept w ++ [seconds]; calls := calls w |}).

(** One call to an Azure client: it is recorded, and the service answers
    according to the number of calls issued before it. *)
Definition client {A} (c : client_call) (reply : nat -> outcome A) : M A :=
  fun w => (reply (length (calls w)),
            {| stdout := stdout w; logged := logged w; appended := appended w;
               slept := slept w; calls := calls w ++ [c] |}).

(** [for x in l: body x], for a body that only has effects. *)
Fixpoint for_each {A} (l : list A) (body : A -> M unit) : M unit :=
  match l with
  | [] => ret tt
  | x :: l' => (body x ;;; for_each l' body)%M
  end.

(** [for x in l: s = body x s], for a body that updates local variables
    [s]; a [continue] in the body is a body that returns [s] as it is. *)
Fixpoint for_fold {A S} (l : list A) (body : A -> S -> M S) (s : S) : M S :=
  match l with
  | [] => ret s
  | x :: l' => (s' <- body x s ;; for_fold l' body s')%M
  end.

(** [str(x)] for an [Optional[int]]. *)
Definition str_of_opt_int (x : option Z) : string :=
  match x with
  | Some i => str_of_int i
  | None => "None"
  end.

(** ** The module's functions *)

Section Ci.

Context {svc : ContainerService}.
Variable env : environ.

(** [bool(os.environ.get('GITHUB_ACTIONS') or os.environ.get('GITHUB_ACTION'))] *)
Definition is_github_actions : bool :=
  truthy (or_else (GITHUB_ACTIONS env) (GITHUB_ACTION env)).

Definition emit_github_annotation (level message : string) (title : option string) : M unit :=
  let title_part :=
    if truthy title then " title=" +:+ or_str title EmptyString else EmptyString in
  let safe_msg := replace LF "%0A" message in
  print ("::" +:+ level +:+ title_part +:+ "::" +:+ safe_msg).

Definition write_github_output (key value : string) : M unit :=
  let output_file := GITHUB_OUTPUT env in
  if truthy output_file then
    file_append (or_str output_file EmptyString) (key +:+ "=" +:+ value +:+ nl)
  else ret tt.

Definition write_github_summary (markdown : string) : M unit :=
  let summary_file := GITHUB_STEP_SUMMARY env in
  if truthy summary_file then
    file_append (or_str summary_file EmptyString) (markdown +:+ nl)
  else ret tt.

(** [container_group.containers or []] *)
Definition containers_or_empty (cg : container_group) : list container :=
  match containers cg with
  | Some l => l
  | None => []
  end.

(** [containers[0].instance_view] followed by [.current_state], when both
    are there. *)
Definition first_current_state (cg : container_group) : option container_state :=
  match containers_or_empty cg with
  | [] => None
  | c :: _ =>
      match instance_view c with
      | Some iv => current_state iv
      | None => None
      end
  end.

Definition _get_container_state (cg : container_group)
  : option string * option Z * option string :=
  match containers_or_empty cg with
  | [] => (None, None, None)
  | c :: _ =>
      match instance_view c with
      | Some iv =>
          match current_state iv with
          | Some current =>
              (cs_state current, cs_exit_code current, cs_detail_status current)
          | None => (provisioning_state cg, None, None)
          end
      | None => (provisioning_state cg, None, None)
      end
  end.

Definition _fetch_logs (resource_group container_group_name cname : string) : M string :=
  try_except
    (content <- client (CallListLogs resource_group container_group_name cname)
                  (fun t => list_logs t resource_group container_group_name cname) ;;
     ret (or_str content EmptyString))%M
    (fun _ => ret EmptyString).

Definition _stream_log_delta (image : string) (full_content : string)
    (previous_length : Z) (use_groups : bool) : M Z :=
  if len full_content <=? previous_length then ret previous_length
  else
    let delta := str_from full_content previous_length in
    ((if use_groups then print ("::group::" +:+ image +:+ " (log update)") else ret tt) ;;;
     stdout_write delta ;;;
     (if use_groups then print "::endgroup::" else ret tt) ;;;
     ret (len full_content))%M.

Definition _tail_lines (content : string) (n : Z) : string :=
  let lines := splitlines (strip content) in
  join nl (list_from lines (- n)).

(** [cg.containers[0].name if cg.containers else image_name] *)
Definition log_container_name (cg : container_group) (image : string) : string :=
  match containers_or_empty cg with
  | c :: _ => container_name c
  | [] => image
  end.

(** [str(t) if t else None] *)
Definition time_str (t : option string) : option string :=
  if truthy t then t else None.

Definition poll_build (resource_group image : string) : M (BuildResult * string) :=
  (cg <- client (CallGet resource_group image)
           (fun t => cg_get t resource_group image) ;;
   let '(st, code, detail) := _get_container_state cg in
   let cname := log_container_name cg image in
   logs <- _fetch_logs resource_group image cname ;;
   let result :=
     {| image_name := image;
        state := or_str st (or_str (provisioning_state cg) "Unknown");
        exit_code := code;
        start_time := None;
        finish_time := None;
        detail_status := or_str detail EmptyString;
        logs_tail := _tail_lines logs LOG_TAIL_LINES;
        portal_url := EmptyString |} in
   let result :=
     match first_current_state cg with
     | Some cs => set_times result (time_str (cs_start_time cs)) (time_str (cs_finish_time cs))
     | None => result
     end in
   ret (result, logs))%M.

(** The local variables of [wait_for_builds]. *)
Record session : Type := {
  log_offsets : gmap string Z;
  completed : gset string;
  results : gmap string BuildResult;
}.

(** [{name: 0 for name in image_names}], an empty set and an empty dict. *)
Definition session0 (image_names : list string) : session :=
  {| log_offsets := foldl (fun m name => <[name := 0]> m) ∅ image_names;
     completed := ∅;
     results := ∅ |}.

(** [d[name]], which raises [KeyError] for a missing key. *)
Definition subscript {V} (d : gmap string V) (name : string) : M V :=
  match d !! name with
  | Some v => ret v
  | None => raise ("KeyError: " +:+ name)
  end.

(** [d.get(name, '')] *)
Definition dict_get (d : gmap string string) (name : string) : string :=
  default EmptyString (d !! name).

Section Monitor.

Variable resource_group : string.
Variable image_names : list string.
Variable portal_urls_arg : option (gmap string string).

(** [if portal_urls is None: portal_urls = {}] *)
Definition portal_urls : gmap string string := default ∅ portal_urls_arg.

Definition use_groups : bool :=
  is_github_actions && (1 <? Z.of_nat (length image_names)).

(** The body of the [for name in image_names] loop. *)
Definition poll_one (name : string) (s : session) : M session :=
  if decide (name ∈ completed s) then ret s
  else
    (polled <- try_except
                 (r <- poll_build resource_group name ;; ret (Some r))
                 (fun ex => logger INFO ("Error polling " +:+ name +:+ ": " +:+ ex) ;;;
                            ret None) ;;
     match polled with
     | None => ret s
     | Some (result, full_logs) =>
         let result := set_portal_url result (dict_get portal_urls name) in
         let results' := <[name := result]> (results s) in
         previous <- subscript (log_offsets s) name ;;
         offset <- _stream_log_delta name full_logs previous use_groups ;;
         let log_offsets' := <[name := offset]> (log_offsets s) in
         if String.eqb (state result) TERMINATED then
           let status_str :=
             if succeeded result then "succeeded"
             else "FAILED (exit code " +:+ str_of_opt_int (exit_code result) +:+ ")" in
           logger WARNING (name +:+ ": build " +:+ status_str) ;;;
           ret {| log_offsets := log_offsets'; completed := {[name]} ∪ completed s;
                  results := results' |}
         else
           ret {| log_offsets := log_offsets'; completed := completed s;
                  results := results' |}
     end)%M.

(** One pass of the [for] loop over all the names. *)
Definition sweep (s : session) : M session := for_fold image_names poll_one s.

(** [len(completed) < len(image_names)] *)
Definition pending_left (s : session) : bool :=
  Z.of_nat (size (completed s)) <? Z.of_nat (length image_names).

(** The [if] after the sweep: the diagnostic and the sleep. *)
Definition pause (s : session) : M unit :=
  if pending_left s then
    let pending := filter (fun n => n ∉ completed s) image_names in
    (logger INFO ("Waiting for " +:+ str_of_int (Z.of_nat (length pending))
                  +:+ " build(s): " +:+ join ", " pending) ;;;
     sleep POLL_INTERVAL_SECONDS)%M
  else ret tt.

(** The body of the [while] loop: a sweep, then the pause. *)
Definition loop_body (s : session) : M session :=
  (s' <- sweep s ;; pause s' ;;; ret s')%M.

(** The [while] loop; [None] when [fuel] sweeps were not enough to leave it. *)
Fixpoint while_pending (fuel : nat) (s : session) (w : world)
  : option (outcome session * world) :=
  if pending_left s then
    match fuel with
    | O => None
    | S fuel' =>
        match loop_body s w with
        | (Returned s', w') => while_pending fuel' s' w'
        | (Raised e, w') => Some (Raised e, w')
        end
    end
  else Some (Returned s, w).

(** [[results[name] for name in image_names]] *)
Fixpoint collect (d : gmap string BuildResult) (names : list string)
  : M (list BuildResult) :=
  match names with
  | [] => ret []
  | n :: names' => (r <- subscript d n ;; rs <- collect d names' ;; ret (r :: rs))%M
  end.

Definition wait_for_builds (fuel : nat) (w : world)
  : option (outcome (list BuildResult) * world) :=
  let prologue :=
    (logger WARNING "Waiting for builds to complete..." ;;;
     if is_github_actions then print "::group::Build progress" else ret tt)%M in
  match prologue w with
  | (Raised e, w1) => Some (Raised e, w1)
  | (Returned _, w1) =>
      match while_pending fuel (session0 image_names) w1 with
      | None => None
      | Some (Raised e, w2) => Some (Raised e, w2)
      | Some (Returned s, w2) =>
          Some (((if is_github_actions then print "::endgroup::" else ret tt) ;;;
                 collect (results s) image_names)%M w2)
      end
  end.

End Monitor.

(** The three outcomes a result can show in the report (the two glyphs of
    the console summary are kept as their UTF-8 bytes). *)
Definition icon (r : BuildResult) : string :=
  if succeeded r then "✓" else if failed r then "✗" else "?".

Definition status_label (r : BuildResult) : string :=
  if succeeded r then ":white_check_mark: Succeeded"
  else if failed r then ":x: Failed"
  else ":grey_question: Unknown".

Definition console_line (r : BuildResult) : string :=
  let code_str :=
    match exit_code r with
    | Some c => " (exit code " +:+ str_of_int c +:+ ")"
    | None => EmptyString
    end in
  "  " +:+ icon r +:+ " " +:+ image_name r +:+ ": " +:+ state r +:+ code_str.

Definition summary_row (r : BuildResult) : string :=
  let code := match exit_code r with Some c => str_of_int c | None => "-" end in
  let portal :=
    match portal_url r with
    | EmptyString => "-"
    | u => "[Portal](" +:+ u +:+ ")"
    end in
  "| " +:+ image_name r +:+ " | " +:+ status_label r +:+ " | " +:+ code
    +:+ " | " +:+ portal +:+ " |".

Definition failure_details (r : BuildResult) : list string :=
  [ "<details><summary>" +:+ image_name r +:+ "</summary>" +:+ nl;
    "```" +:+ nl +:+ logs_tail r +:+ nl +:+ "```" +:+ nl;
    "</details>" +:+ nl ].

Definition summary_lines (results failed_results : list BuildResult) : list string :=
  [ "## Build Results" +:+ nl;
    "| Image | Status | Exit Code | Details |";
    "|-------|--------|-----------|---------|" ]
  ++ map summary_row results
  ++ [EmptyString]
  ++ match failed_results with
     | [] => []
     | _ => ("### Failure Logs" +:+ nl) :: concat (map failure_details failed_results)
     end.

(** The error annotation of a failed result and the notice of a succeeded one. *)
Definition annotate_failure (r : BuildResult) : M unit :=
  let tail := match logs_tail r with
              | EmptyString => "(no logs available)"
              | t => t
              end in
  emit_github_annotation "error"
    ("Build failed with exit code " +:+ str_of_opt_int (exit_code r) +:+ "." +:+ nl +:+ nl
     +:+ "Last " +:+ str_of_int LOG_TAIL_LINES +:+ " lines:" +:+ nl +:+ tail)
    (Some (image_name r +:+ " build failed")).

Definition annotate_success (r : BuildResult) : M unit :=
  emit_github_annotation "notice" "Build completed successfully."
    (Some (image_name r +:+ " build succeeded")).

(** The value written under the key [build_result]. *)
Definition build_result (failed_results succeeded_results : list BuildResult) : string :=
  match failed_results with
  | _ :: _ => "failure"
  | [] => match succeeded_results with
          | _ :: _ => "success"
          | [] => "unknown"
          end
  end.

Definition write_outputs (failed_results succeeded_results : list BuildResult) : M unit :=
  (write_github_output "build_result" (build_result failed_results succeeded_results) ;;;
   (match failed_results with
    | _ :: _ => write_github_output "failed_images" (join "," (map image_name failed_results))
    | [] => ret tt
    end) ;;;
   (match succeeded_results with
    | _ :: _ =>
        write_github_output "succeeded_images" (join "," (map image_name succeeded_results))
    | [] => ret tt
    end))%M.

(** [report_results(results, repo=None)]; [repo] is not used. *)
Definition report_results (results : list BuildResult) : M (list BuildResult) :=
  let in_github := is_github_actions in
  let failed_results := List.filter failed results in
  let succeeded_results := List.filter succeeded results in
  (logger WARNING EmptyString ;;;
   logger WARNING (Py.repeat "=" 60) ;;;
   logger WARNING "BUILD RESULTS" ;;;
   logger WARNING (Py.repeat "=" 60) ;;;
   for_each results (fun r => logger WARNING (console_line r)) ;;;
   logger WARNING (Py.repeat "=" 60) ;;;
   (if in_github then
      for_each failed_results annotate_failure ;;;
      for_each succeeded_results annotate_success ;;;
      write_github_summary (join nl (summary_lines results failed_results)) ;;;
      write_outputs failed_results succeeded_results
    else ret tt) ;;;
   ret failed_results)%M.

(** [exit_code or 0] *)
Definition exit_code_or_zero (code : option Z) : Z :=
  match code with
  | Some c => if c =? 0 then 0 else c
  | None => 0
  end.

(** [state == TERMINATED], for the optional label [_get_container_state] hands back. *)
Definition is_terminated (st : option string) : bool :=
  match st with
  | Some label => String.eqb label TERMINATED
  | None => false
  end.

Section Follower.

Context {factory : ClientFactory}.
Variable resource_group : string.
Variable image : string.

(** The [try] block of [follow_image_logs] with its [except] clause:
    [inl code] when the function returns [code] from inside the block,
    [inr offset] when control falls through to the sleep, with the value of
    [log_offset] at that point. *)
Definition follow_step (log_offset : Z) : M (Z + Z) :=
  try_except
    (cg <- client (CallGet resource_group image)
             (fun t => cg_get t resource_group image) ;;
     let '(st, code, detail) := _get_container_state cg in
     let cname := log_container_name cg image in
     full_logs <- _fetch_logs resource_group image cname ;;
     offset <- _stream_log_delta image full_logs log_offset false ;;
     if is_terminated st then
       logger WARNING EmptyString ;;;
       (match code with
        | Some 0 => logger WARNING (image +:+ ": build succeeded")
        | _ => logger WARNING (image +:+ ": build FAILED (exit code "
                               +:+ str_of_opt_int code +:+ ")")
        end) ;;;
       (if truthy detail
        then logger WARNING ("  Detail: " +:+ or_str detail EmptyString)
        else ret tt) ;;;
       ret (inl (exit_code_or_zero code))
     else ret (inr offset))%M
    (fun ex => logger INFO ("Error polling " +:+ image +:+ ": " +:+ ex) ;;;
               ret (inr log_offset))%M.

(** The [while True] loop; [None] when [fuel] passes were not enough. *)
Fixpoint follow_loop (fuel : nat) (log_offset : Z) (w : world)
  : option (outcome Z * world) :=
  match fuel with
  | O => None
  | S fuel' =>
      match follow_step log_offset w with
      | (Returned (inl code), w') => Some (Returned code, w')
      | (Returned (inr offset), w') =>
          follow_loop fuel' offset (snd (sleep POLL_INTERVAL_SECONDS w'))
      | (Raised e, w') => Some (Raised e, w')
      end
  end.

(** The client factory is called once, before the loop and outside of its
    [try]: when it raises, so does [follow_image_logs], before anything is
    logged or requested. *)
Definition follow_image_logs (fuel : nat) (w : world) : option (outcome Z * world) :=
  match cf_container_groups with
  | Raised e => Some (Raised e, w)
  | Returned _ =>
      follow_loop fuel 0
        (snd (logger WARNING ("Following logs for " +:+ image +:+ "...") w))
  end.

End Follower.

End Ci.


(** * Vocabulary of the properties *)

(** ** Worlds as traces *)

(** [world_app w d]: the world [w] followed by the effects recorded in [d]. *)
Definition world_app (w d : world) : world :=
  {| stdout := stdout w ++ stdout d; logged := logged w ++ logged d;
     appended := appended w ++ appended d; slept := slept w ++ slept d;
     calls := calls w ++ calls d |}.

Definition wrote (l : list string) : world :=
  {| stdout := l; logged := []; appended := []; slept := []; calls := [] |}.
Definition logs_of (l : list (log_level * string)) : world :=
  {| stdout := []; logged := l; appended := []; slept := []; calls := [] |}.
Definition files_of (l : list (string * string)) : world :=
  {| stdout := []; logged := []; appended := l; slept := []; calls := [] |}.
Definition sleeps_of (l : list Z) : world :=
  {| stdout := []; logged := []; appended := []; slept := l; calls := [] |}.
Definition calls_of (l : list client_call) : world :=
  {| stdout := []; logged := []; appended := []; slept := []; calls := l |}.

(** [emits m a d]: from every world, [m] returns [a] and adds exactly [d]. *)
Definition emits {A} (m : M A) (a : A) (d : world) : Prop :=
  forall w, m w = (Returned a, world_app w d).

Section FetcherModel.

Context {svc : ContainerService}.

(** What [_fetch_logs] returns when it is the [t]-th client call. *)
Definition fetched_logs (t : nat) (resource_group image cname : string) : string :=
  match list_logs t resource_group image cname with
  | Returned content => or_str content EmptyString
  | Raised _ => EmptyString
  end.

(** The state label [poll_build] stores for a container group. *)
Definition reported_state (cg : container_group) : string :=
  or_str (fst (fst (_get_container_state cg)))
         (or_str (provisioning_state cg) "Unknown").

(** The [BuildResult] that [poll_build] builds from a container group and
    the log text. *)
Definition poll_result (image : string) (cg : container_group) (logs : string)
  : BuildResult :=
  let '(st, code, detail) := _get_container_state cg in
  let result :=
    {| image_name := image;
       state := or_str st (or_str (provisioning_state cg) "Unknown");
       exit_code := code;
       start_time := None;
       finish_time := None;
       detail_status := or_str detail EmptyString;
       logs_tail := _tail_lines logs LOG_TAIL_LINES;
       portal_url := EmptyString |} in
  match first_current_state cg with
  | Some cs => set_times result (time_str (cs_start_time cs)) (time_str (cs_finish_time cs))
  | None => result
  end.

End FetcherModel.

(** Any change to the containers after the first one. *)
Definition alter_rest (f : list container -> list container) (cg : container_group)
  : container_group :=
  {| containers :=
       match containers cg with
       | Some (c :: rest) => Some (c :: f rest)
       | other => other
       end;
     provisioning_state := provisioning_state cg |}.

(** The same service, except that every container group it hands back has
    had its containers after the first one changed by [f]. *)
Definition altered_service (f : list container -> list container)
    (svc : ContainerService) : ContainerService :=
  {| cg_get t rg n :=
       match @cg_get svc t rg n with
       | Returned cg => Returned (alter_rest f cg)
       | Raised e => Raised e
       end;
     list_logs := @list_logs svc |}.

(** ** Lines of a text *)

(** No character of [s] is a line boundary. *)
Fixpoint no_linebreak (s : string) : bool :=
  match s with
  | EmptyString => true
  | String c r => negb (islinebreak c) && no_linebreak r
  end.

(** [s] is not empty and its last character is not a line boundary. *)
Fixpoint ends_with_text (s : string) : bool :=
  match s with
  | EmptyString => false
  | String c EmptyString => negb (islinebreak c)
  | String _ r => ends_with_text r
  end.

Definition nonempty (s : string) : bool :=
  match s with
  | EmptyString => false
  | String _ _ => true
  end.

(** The last [n] elements of a list (all of them when there are fewer). *)
Definition last_n {A} (n : nat) (l : list A) : list A := drop (length l - n) l.

(** The tail helper as the specification words it: the last [k] non-empty
    lines of the text, joined by newlines. *)
Definition tail_of_nonempty_lines (text : string) (k : nat) : string :=
  join nl (last_n k (List.filter nonempty (splitlines text))).

(** The specification's description of the tail helper, for a text and a
    line count [k]. *)
Definition tail_lines_as_specified (text : string) (k : nat) : Prop :=
  _tail_lines text (Z.of_nat k) = tail_of_nonempty_lines text k
  /\ (length (splitlines (_tail_lines text (Z.of_nat k))) <= k)%nat
  /\ (Exists (fun l => l <> EmptyString) (splitlines text) ->
      last (splitlines (_tail_lines text (Z.of_nat k))) = last (splitlines text))
  /\ _tail_lines EmptyString (Z.of_nat k) = EmptyString.

(** A log of four lines, one of them blank, with white space around it. *)
Definition sample_log : string :=
  " one" +:+ nl +:+ nl +:+ "three" +:+ nl +:+ "four " +:+ nl.

(** ** The reporter's outputs *)

(** [s] holds a newline character. *)
Fixpoint has_newline (s : string) : bool :=
  match s with
  | EmptyString => false
  | String c r => Ascii.eqb c LF || has_newline r
  end.

(** [s] is one physical line: its only newline is its last character. *)
Fixpoint is_one_line (s : string) : bool :=
  match s with
  | EmptyString => false
  | String c EmptyString => Ascii.eqb c LF
  | String c r => negb (Ascii.eqb c LF) && is_one_line r
  end.

(** What is written for an annotation with a title:
    [::<level> title=<text>::<message>] and the newline that ends it, the
    newlines of the message written as [%0A]. *)
Definition annotation (level title message : string) : string :=
  ("::" +:+ level +:+ (" title=" +:+ title) +:+ "::" +:+ replace LF "%0A" message) +:+ nl.

Definition failure_message (r : BuildResult) : string :=
  "Build failed with exit code " +:+ str_of_opt_int (exit_code r) +:+ "." +:+ nl +:+ nl
  +:+ "Last " +:+ str_of_int LOG_TAIL_LINES +:+ " lines:" +:+ nl
  +:+ match logs_tail r with
      | EmptyString => "(no logs available)"
      | t => t
      end.

Definition error_annotation (r : BuildResult) : string :=
  annotation "error" (image_name r +:+ " build failed") (failure_message r).

Definition notice_annotation (r : BuildResult) : string :=
  annotation "notice" (image_name r +:+ " build succeeded") "Build completed successfully.".

(** The lines that reach the key/value output file: [build_result] always,
    [failed_images] when some result failed, [succeeded_images] when some
    result succeeded. *)
Definition output_lines (results : list BuildResult) : list string :=
  [ "build_result" +:+ "="
    +:+ (if existsb failed results then "failure"
         else if existsb succeeded results then "success" else "unknown") +:+ nl ]
  ++ (if existsb failed results
      then [ "failed_images" +:+ "="
             +:+ join "," (map image_name (List.filter failed results)) +:+ nl ]
      else [])
  ++ (if existsb succeeded results
      then [ "succeeded_images" +:+ "="
             +:+ join "," (map image_name (List.filter succeeded results)) +:+ nl ]
      else []).

(** What is appended to files in CI mode: the markdown summary to the file
    named by [GITHUB_STEP_SUMMARY], then the key/value lines to the file
    named by [GITHUB_OUTPUT]; a setting that is absent or empty is skipped. *)
Definition summary_appends (env : environ) (results : list BuildResult)
  : list (string * string) :=
  if truthy (GITHUB_STEP_SUMMARY env)
  then [ (or_str (GITHUB_STEP_SUMMARY env) EmptyString,
          join nl (summary_lines results (List.filter failed results)) +:+ nl) ]
  else [].

Definition output_appends (env : environ) (results : list BuildResult)
  : list (string * string) :=
  if truthy (GITHUB_OUTPUT env)
  then map (fun line => (or_str (GITHUB_OUTPUT env) EmptyString, line)) (output_lines results)
  else [].

(** An environment of a GitHub Actions run, and one outside of CI. *)
Definition github_env : environ :=
  {| GITHUB_ACTIONS := Some "true"; GITHUB_ACTION := None;
     GITHUB_OUTPUT := Some "/tmp/output.txt";
     GITHUB_STEP_SUMMARY := Some "/tmp/summary.md" |}.

Definition local_env : environ :=
  {| GITHUB_ACTIONS := None; GITHUB_ACTION := None;
     GITHUB_OUTPUT := None; GITHUB_STEP_SUMMARY := None |}.

(** A terminated result with the given exit code. *)
Definition finished (name : string) (code : Z) (tail : string) : BuildResult :=
  {| image_name := name; state := TERMINATED; exit_code := Some code;
     start_time := None; finish_time := None; detail_status := EmptyString;
     logs_tail := tail; portal_url := EmptyString |}.

(** C7 as stated: in CI mode every annotation the reporter writes to standard
    output (everything it writes there, starting from an empty world) is one
    physical line. *)
Definition annotations_are_single_lines (results : list BuildResult) : Prop :=
  forall env, is_github_actions env = true ->
    Forall (fun chunk => is_one_line chunk = true)
           (stdout (snd (report_results env results world0))).

(** The results of the repository's test [test_github_annotations_on_failure]. *)
Definition good_and_bad : list BuildResult :=
  [finished "good" 0 EmptyString; finished "bad" 1 "packer error"].

(** A failed result whose identifier spans two lines. *)
Definition two_line_name : list BuildResult :=
  [finished ("a" +:+ nl +:+ "b") 1 "boom"].

(** ** The monitoring session *)

(** The container group (the job) a client call is about. *)
Definition call_group (c : client_call) : string :=
  match c with
  | CallGet _ group => group
  | CallListLogs _ group _ => group
  end.

(** What a session keeps true from its first sweep on: every monitored name
    has a log offset; a completed name is a monitored one and its stored
    result is terminal; every stored result carries the name it is stored
    under. *)
Definition session_ok (image_names : list string) (s : session) : Prop :=
  (forall n, n ∈ image_names -> is_Some (log_offsets s !! n))
  /\ (forall n, n ∈ completed s ->
        n ∈ image_names /\ exists r, results s !! n = Some r /\ state r = TERMINATED)
  /\ (forall n r, results s !! n = Some r -> image_name r = n).

(** From [(s, w)] to [(s', w')] the session has only moved forward: the
    completed set and every log offset have only grown; and for the names
    that were completed already, neither the offset nor the stored result
    has changed and no client call was issued. *)
Definition moved_on (s : session) (w : world) (s' : session) (w' : world) : Prop :=
  completed s ⊆ completed s'
  /\ (forall n o, log_offsets s !! n = Some o ->
        exists o', log_offsets s' !! n = Some o' /\ o <= o')
  /\ (forall n, n ∈ completed s ->
        log_offsets s' !! n = log_offsets s !! n /\ results s' !! n = results s !! n)
  /\ exists new, calls w' = calls w ++ new
                 /\ forall n, n ∈ completed s -> n ∉ map call_group new.

Section MonitorModel.

Context {svc : ContainerService}.
Variable env : environ.
Variable resource_group : string.
Variable image_names : list string.
Variable portal_urls_arg : option (gmap string string).

(** The session and the world after [n] more passes of the [while] loop
    (fewer when the loop is left before). *)
Fixpoint after_sweeps (n : nat) (s : session) (w : world) : outcome session * world :=
  match n with
  | O => (Returned s, w)
  | S n' =>
      if pending_left image_names s then
        match loop_body env resource_group image_names portal_urls_arg s w with
        | (Returned s', w') => after_sweeps n' s' w'
        | (Raised e, w') => (Raised e, w')
        end
      else (Returned s, w)
  end.

(** The result [poll_one] stores for a name: the polled result with the
    caller's portal link attached. *)
Definition stored_result (name : string) (cg : container_group) (logs : string)
  : BuildResult :=
  set_portal_url (poll_result name cg logs) (dict_get (portal_urls portal_urls_arg) name).

(** The offset after streaming: the longer of the old offset and the log. *)
Definition next_offset (logs : string) (previous : Z) : Z :=
  if len logs <=? previous then previous else len logs.

(** What a poll that raised leaves behind: the call and the diagnostic. *)
Definition poll_error_trace (name e : string) : world :=
  world_app (calls_of [CallGet resource_group name])
            (logs_of [(INFO, "Error polling " +:+ name +:+ ": " +:+ e)]).

End MonitorModel.

(** ** Sample services *)

(** The two jobs of the specification's example. *)
Definition two_jobs : list string := ["a"; "b"].

(** A container group with one container ["builder"] in the given state. *)
Definition group_in (label : string) (code : option Z) : container_group :=
  {| containers :=
       Some [ {| container_name := "builder";
                 instance_view :=
                   Some {| current_state :=
                             Some {| cs_state := Some label; cs_exit_code := code;
                                     cs_detail_status := None;
                                     cs_start_time := None;
                                     cs_finish_time := None |} |} |} ];
     provisioning_state := Some "Succeeded" |}.

(** Job ["b"] has terminated from the start; job ["a"] runs during the first
    four client calls and has terminated afterwards.  The log of every job
    grows with the calls. *)
Definition b_first : ContainerService :=
  {| cg_get t _ name :=
       if ((t <? 4)%nat && String.eqb name "a")%bool
       then Returned (group_in "Running" None)
       else Returned (group_in TERMINATED (Some 0));
     list_logs t _ _ _ := Returned (Some (Py.repeat ("step" +:+ nl) t)) |}.

(** Every job has terminated from the start. *)
Definition all_done : ContainerService :=
  {| cg_get _ _ _ := Returned (group_in TERMINATED (Some 0));
     list_logs _ _ _ _ := Returned (Some "done") |}.

(** The first status request for job ["a"] fails; everything else is as in
    [all_done]. *)
Definition a_fails_once : ContainerService :=
  {| cg_get t _ name :=
       if ((t =? 0)%nat && String.eqb name "a")%bool
       then Raised "connection reset"
       else Returned (group_in TERMINATED (Some 0));
     list_logs _ _ _ _ := Returned (Some "done") |}.

(** C3 as stated, for any list of identifiers: when the status request of
    [name] raises during a sweep of a session (the sweep that starts from the
    session [s] reached after [n] passes of the loop), the sweep returns, and
    at its end [name] is not in the completed set and its log offset and
    stored result are those of [s]. *)
Definition poll_error_skips_for_the_sweep : Prop :=
  forall (svc : ContainerService) env resource_group image_names portal_urls_arg
         n pre post name e s s1 w0 w w1,
    image_names = pre ++ name :: post ->
    after_sweeps env resource_group image_names portal_urls_arg n (session0 image_names) w0
    = (Returned s, w) ->
    for_fold pre (poll_one env resource_group image_names portal_urls_arg) s w
    = (Returned s1, w1) ->
    name ∉ completed s1 ->
    cg_get (length (calls w1)) resource_group name = Raised e ->
    exists s' w',
      sweep env resource_group image_names portal_urls_arg s w = (Returned s', w')
      /\ (name ∉ completed s')
      /\ log_offsets s' !! name = log_offsets s !! name
      /\ results s' !! name = results s !! name.

(** C9 as stated: a poll after which the job is still not completed leaves the
    stored [logs_tail] of the job as it was (empty when nothing was stored). *)
Definition logs_tail_captured_once : Prop :=
  forall (svc : ContainerService) env resource_group image_names portal_urls_arg
         name s w s' w',
    poll_one env resource_group image_names portal_urls_arg name s w = (Returned s', w') ->
    name ∉ completed s' ->
    default EmptyString (logs_tail <$> results s' !! name)
    = default EmptyString (logs_tail <$> results s !! name).

(** From the [T]-th client call on, the service reports every job of the
    list as terminal. *)
Definition all_terminal_from {svc : ContainerService} (resource_group : string)
    (image_names : list string) (T : nat) : Prop :=
  forall t n, (T <= t)%nat -> n ∈ image_names ->
    exists cg, cg_get t resource_group n = Returned cg /\ reported_state cg = TERMINATED.

(** C1 as stated: for every list of identifiers whose jobs all become
    terminal, [wait_for_builds] returns one result per identifier, in the
    order of the list. *)
Definition results_for_every_list : Prop :=
  forall (svc : ContainerService) env resource_group image_names portal_urls_arg w T,
    all_terminal_from resource_group image_names T ->
    exists fuel rs w',
      wait_for_builds env resource_group image_names portal_urls_arg fuel w
      = Some (Returned rs, w')
      /\ map image_name rs = image_names.

(** ** Inputs of the repository's tests *)

(** [line0], [line1], ... up to [n] lines, joined by newlines. *)
Definition numbered_lines (n : nat) : string :=
  join nl (map (fun i => "line" +:+ str_of_int (Z.of_nat i)) (seq 0 n)).

(** A container without an instance view, in a group that is being created. *)
Definition group_creating : container_group :=
  {| containers := Some [ {| container_name := "builder"; instance_view := None |} ];
     provisioning_state := Some "Creating" |}.

(** ** Samples *)

(** A service whose log client always fails. *)
Definition logs_unavailable : ContainerService :=
  {| cg_get _ _ _ := Returned (group_in "Running" None);
     list_logs _ _ _ _ := Raised "not yet available" |}.

(** A service whose groups have no container yet. *)
Definition nothing_started : ContainerService :=
  {| cg_get _ _ _ :=
       Returned {| containers := None; provisioning_state := Some "Pending" |};
     list_logs _ _ _ _ := Returned None |}.

(** The whole text that was written to standard output. *)
Definition text_of (chunks : list string) : string := foldr String.append EmptyString chunks.

(** Every line boundary of [s] is a newline character. *)
Fixpoint only_newlines (s : string) : bool :=
  match s with
  | EmptyString => true
  | String c r => (negb (islinebreak c) || Ascii.eqb c LF) && only_newlines r
  end.

(** ** Where a stored result comes from *)

(** [r] is what a poll of [name] stores: the result built from a container
    group that a status request for [name] returned as the [t]-th client
    call, and from the log fetched by the call right after it, with the
    caller's portal link attached. *)
Definition stored_by_poll {svc : ContainerService} (resource_group : string)
    (portal_urls_arg : option (gmap string string)) (name : string) (r : BuildResult)
  : Prop :=
  exists t cg,
    cg_get t resource_group name = Returned cg
    /\ r = stored_result portal_urls_arg name cg
             (fetched_logs (S t) resource_group name (log_container_name cg name)).

(** Every result stored in the session is what a poll of its name stores. *)
Definition all_from_polls {svc : ContainerService} (resource_group : string)
    (portal_urls_arg : option (gmap string string)) (s : session) : Prop :=
  forall n r, results s !! n = Some r -> stored_by_poll resource_group portal_urls_arg n r.

(** A line boundary as [str.splitlines] reads it below 256: one boundary
    character, or CR LF. *)
Definition is_boundary (b : string) : bool :=
  match b with
  | String c EmptyString => islinebreak c
  | String c (String c' EmptyString) => Ascii.eqb c CR && Ascii.eqb c' LF
  | _ => false
  end.

(** The text made of the lines of [segs], each followed by its boundary,
    and of a last line. *)
Fixpoint lines_with (segs : list (string * string)) (last_line : string) : string :=
  match segs with
  | [] => last_line
  | (l, b) :: rest => l +:+ b +:+ lines_with rest last_line
  end.

Definition begins_with_LF (s : string) : bool :=
  match s with
  | String c _ => Ascii.eqb c LF
  | EmptyString => false
  end.

(** [segs] and the last line are that many lines: no line holds a boundary
    character, every separator is a boundary, a lone CR is not directly
    followed by LF (the two would read as the one boundary CR LF), and the
    last line is not empty. *)
Fixpoint separate_lines (segs : list (string * string)) (last_line : string) : bool :=
  match segs with
  | [] => no_linebreak last_line && nonempty last_line
  | (l, b) :: rest =>
      no_linebreak l && is_boundary b
      && negb (String.eqb b (String CR EmptyString)
               && begins_with_LF (lines_with rest last_line))
      && separate_lines rest last_line
  end.

(** Three lines separated by CR LF and by a lone CR, with white space around. *)
Definition windows_log : string :=
  " one" +:+ String CR nl +:+ "two" +:+ String CR EmptyString +:+ "three" +:+ nl.

(** ** What the monitor prints *)

(** One log update as [wait_for_builds] prints it: the new part of a job's
    log, between the two markers of a collapsible group when groups are in
    use. *)
Definition log_update (groups : bool) (update : string * string) : list string :=
  (if groups then [("::group::" +:+ fst update +:+ " (log update)") +:+ nl] else [])
  ++ [snd update]
  ++ (if groups then ["::endgroup::" +:+ nl] else []).

(** [(name, delta)] is new log text of a job of the list: [delta] is what is
    left, from an offset below its length on, of the log that a log request
    for [name], recorded in [cs] as the [t]-th client call, was answered
    with. *)
Definition is_log_delta {svc : ContainerService} (resource_group : string)
    (image_names : list string) (cs : list client_call)
    (update : string * string) : Prop :=
  fst update ∈ image_names
  /\ exists t cname offset,
       cs !! t = Some (CallListLogs resource_group (fst update) cname)
       /\ offset < len (fetched_logs t resource_group (fst update) cname)
       /\ snd update = str_from (fetched_logs t resource_group (fst update) cname) offset.

(** From [w] to [w'], standard output has received log updates only, and
    client calls have only been added. *)
Definition streamed_between {svc : ContainerService} (env : environ)
    (resource_group : string) (image_names : list string) (w w' : world) : Prop :=
  exists updates new,
    stdout w' = stdout w ++ concat (map (log_update (use_groups env image_names)) updates)
    /\ calls w' = calls w ++ new
    /\ Forall (is_log_delta resource_group image_names (calls w')) updates.

(** ** The single-job follower *)

Definition is_status_request (c : client_call) : bool :=
  match c with
  | CallGet _ _ => true
  | CallListLogs _ _ _ => false
  end.

(** The state label and the exit code [_get_container_state] extracts. *)
Definition container_label (cg : container_group) : option string :=
  fst (fst (_get_container_state cg)).

Definition container_exit_code (cg : container_group) : option Z :=
  snd (fst (_get_container_state cg)).

(** From the [T]-th client call on, the service reports the job's container
    as terminated. *)
Definition terminated_from {svc : ContainerService} (resource_group image : string)
    (T : nat) : Prop :=
  forall t, (T <= t)%nat ->
    exists cg, cg_get t resource_group image = Returned cg
               /\ is_terminated (container_label cg) = true.

(** The job has terminated, but the service reports no exit code for it. *)
Definition terminated_without_code : ContainerService :=
  {| cg_get _ _ _ := Returned (group_in TERMINATED None);
     list_logs _ _ _ _ := Returned (Some "done") |}.

(** The client factory at work, and failing for want of a subscription. *)
Definition client_available : ClientFactory :=
  {| cf_container_groups := Returned tt |}.

Definition client_unavailable : ClientFactory :=
  {| cf_container_groups := Raised "no subscription found" |}.

(** * Properties *)

(** ** Python primitives *)

Example splitlines_demo :
  splitlines ("a" +:+ nl +:+ nl +:+ "b" +:+ String CR nl +:+ "c" +:+ nl) = ["a"; EmptyString; "b"; "c"]
  /\ splitlines nl = [EmptyString] /\ splitlines EmptyString = [] /\ strip (" a b " +:+ nl) = "a b"
  /\ str_from "hello world" 6 = "world" /\ str_from "abc" (-1) = "c"
  /\ list_from [1; 2; 3] (-2) = [2; 3] /\ list_from [1; 2; 3] 0 = [1; 2; 3]
  /\ str_of_int (-12) = "-12" /\ replace LF "%0A" ("x" +:+ nl +:+ "y") = "x%0Ay".
Proof. vm_compute. repeat split. Qed.

(** ** [BuildResult]: the derived predicates *)

(** C5: [succeeded] holds exactly when the exit code is present and 0, [failed]
    exactly when it is present and not 0; the two never hold together, and
    neither holds when the exit code is absent. *)
Theorem succeeded_failed_exit_code (r : BuildResult) :
  (succeeded r = true <-> exit_code r = Some 0)
  /\ (failed r = true <-> exists c, exit_code r = Some c /\ c <> 0)
  /\ succeeded r && failed r = false
  /\ (exit_code r = None -> succeeded r = false /\ failed r = false).
Proof.
  unfold succeeded, failed. destruct (exit_code r) as [c|]; repeat split;
    try discriminate; try tauto.
  - intros H. apply Z.eqb_eq in H. now subst.
  - intros H. injection H as ->. reflexivity.
  - intros H. exists c. split; [reflexivity|].
    apply negb_true_iff, Z.eqb_neq in H. exact H.
  - intros (c' & H & Hc). injection H as ->. now apply negb_true_iff, Z.eqb_neq.
  - apply andb_negb_r.
  - intros (c' & H & _). discriminate.
Qed.

Lemma succeeded_failed_exit_code_running :
  succeeded (BuildResult_default "img") = false
  /\ failed (BuildResult_default "img") = false.
Proof.
  apply (succeeded_failed_exit_code (BuildResult_default "img")). reflexivity.
Defined.

(** ** The log delta streamer *)

Lemma str_drop_all (s : string) (n : nat) :
  (String.length s <= n)%nat -> str_drop n s = EmptyString.
Proof.
  revert n. induction s as [|c s IH]; intros [|n] Hn; simpl in *;
    try reflexivity; try lia.
  apply IH. lia.
Qed.

Lemma str_from_nonneg (s : string) (i : Z) :
  0 <= i -> str_from s i = str_drop (Z.to_nat i) s.
Proof.
  intros Hi. unfold str_from, slice_start.
  destruct (Z.ltb_spec i 0) as [?|_]; [lia|].
  destruct (Z.le_ge_cases i (len s)) as [Hle|Hge].
  - replace (Z.min i (len s)) with i by lia. reflexivity.
  - replace (Z.min i (len s)) with (len s) by lia. unfold len in *. rewrite Nat2Z.id.
    rewrite !str_drop_all by lia. reflexivity.
Qed.

(** C4: when the log has not grown past the offset (also when it is shorter),
    nothing is written and the offset comes back as it was; otherwise the
    text from the offset on is written as it is (between the two group
    markers when grouping is on, bare by default) and the new length comes
    back. *)
Theorem stream_log_delta_contract (image full_content : string)
    (previous_length : Z) (groups : bool) (w : world) :
  (len full_content <= previous_length ->
     _stream_log_delta image full_content previous_length groups w
     = (Returned previous_length, w))
  /\ (previous_length < len full_content ->
        exists w',
          _stream_log_delta image full_content previous_length groups w
          = (Returned (len full_content), w')
          /\ stdout w' =
               stdout w
               ++ (if groups then [("::group::" +:+ image +:+ " (log update)") +:+ nl] else [])
               ++ [str_from full_content previous_length]
               ++ (if groups then ["::endgroup::" +:+ nl] else [])
          /\ logged w' = logged w /\ appended w' = appended w
          /\ slept w' = slept w /\ calls w' = calls w).
Proof.
  unfold _stream_log_delta. split; intros H.
  - apply Z.leb_le in H. rewrite H. reflexivity.
  - apply Z.leb_gt in H. rewrite H.
    destruct groups; eexists; (split; [reflexivity|]); cbn;
      repeat split; rewrite <- ?app_assoc; reflexivity.
Qed.

Lemma stream_log_delta_contract_demo :
  (_stream_log_delta "img" "hello" 9 false world0 = (Returned 9, world0))
  /\ (exists w',
        _stream_log_delta "img" "hello world" 6 false world0 = (Returned 11, w')
        /\ stdout w' = stdout world0 ++ [] ++ [str_from "hello world" 6] ++ []
        /\ logged w' = logged world0 /\ appended w' = appended world0
        /\ slept w' = slept world0 /\ calls w' = calls world0).
Proof.
  split.
  - apply (stream_log_delta_contract "img" "hello" 9 false world0). vm_compute. discriminate.
  - apply (stream_log_delta_contract "img" "hello world" 6 false world0). reflexivity.
Defined.

(** ** Worlds as traces *)

Lemma world_app_assoc (a b c : world) :
  world_app (world_app a b) c = world_app a (world_app b c).
Proof. unfold world_app; cbn. now rewrite <- !app_assoc. Qed.

Lemma world_app_nil_r (w : world) : world_app w world0 = w.
Proof. destruct w; unfold world_app; cbn. now rewrite !app_nil_r. Qed.

Lemma world_app_nil_l (w : world) : world_app world0 w = w.
Proof. now destruct w. Qed.

Lemma emits_ret {A} (a : A) : emits (ret a) a world0.
Proof. intros w. unfold ret. now rewrite world_app_nil_r. Qed.

Lemma emits_bind {A B} (m : M A) (k : A -> M B) a b d1 d2 :
  emits m a d1 -> emits (k a) b d2 -> emits (bind m k) b (world_app d1 d2).
Proof.
  intros Hm Hk w. unfold bind. rewrite Hm, Hk. now rewrite world_app_assoc.
Qed.

Lemma emits_stdout_write (s : string) : emits (stdout_write s) tt (wrote [s]).
Proof. intros [o l f z c]. unfold stdout_write, world_app; cbn. now rewrite !app_nil_r. Qed.

Lemma emits_print (s : string) : emits (print s) tt (wrote [s +:+ nl]).
Proof. apply emits_stdout_write. Qed.

Lemma emits_logger (lv : log_level) (s : string) : emits (logger lv s) tt (logs_of [(lv, s)]).
Proof. intros [o l f z c]. unfold logger, world_app; cbn. now rewrite !app_nil_r. Qed.

Lemma emits_file_append (p s : string) : emits (file_append p s) tt (files_of [(p, s)]).
Proof. intros [o l f z c]. unfold file_append, world_app; cbn. now rewrite !app_nil_r. Qed.

Lemma emits_sleep (n : Z) : emits (sleep n) tt (sleeps_of [n]).
Proof. intros [o l f z c]. unfold sleep, world_app; cbn. now rewrite !app_nil_r. Qed.

Lemma emits_for_each {A} (l : list A) (body : A -> M unit) (d : A -> world) :
  (forall x, emits (body x) tt (d x)) ->
  emits (for_each l body) tt (foldr (fun x acc => world_app (d x) acc) world0 l).
Proof.
  intros Hbody. induction l as [|x l IH]; cbn.
  - apply emits_ret.
  - eapply emits_bind; [apply Hbody | exact IH].
Qed.

Lemma client_eq {A} (c : client_call) (reply : nat -> outcome A) (w : world) :
  client c reply w = (reply (length (calls w)), world_app w (calls_of [c])).
Proof. destruct w as [o l f z cs]. unfold client, world_app; cbn. now rewrite !app_nil_r. Qed.

Lemma stdout_foldr_wrote {A} (f : A -> string) (l : list A) :
  stdout (foldr (fun x acc => world_app (wrote [f x]) acc) world0 l) = map f l.
Proof. induction l as [|x l IH]; cbn; [reflexivity | now rewrite IH]. Qed.

(** ** The status fetcher *)

Section Fetcher.

Context {svc : ContainerService}.

Lemma fetch_logs_eq (resource_group image cname : string) (w : world) :
  _fetch_logs resource_group image cname w
  = (Returned (fetched_logs (length (calls w)) resource_group image cname),
     world_app w (calls_of [CallListLogs resource_group image cname])).
Proof.
  unfold _fetch_logs, try_except, bind, fetched_logs. rewrite client_eq.
  destruct (list_logs _ _ _ _); reflexivity.
Qed.

Lemma poll_build_eq (resource_group image : string) (w : world) :
  poll_build resource_group image w =
  match cg_get (length (calls w)) resource_group image with
  | Raised e => (Raised e, world_app w (calls_of [CallGet resource_group image]))
  | Returned cg =>
      let cname := log_container_name cg image in
      let logs := fetched_logs (S (length (calls w))) resource_group image cname in
      (Returned (poll_result image cg logs, logs),
       world_app w (calls_of [CallGet resource_group image;
                              CallListLogs resource_group image cname]))
  end.
Proof.
  unfold poll_build, bind at 1. rewrite client_eq.
  destruct (cg_get _ _ _) as [cg|e]; [|reflexivity].
  unfold poll_result. destruct (_get_container_state cg) as [[st code] detail].
  unfold bind. rewrite fetch_logs_eq. cbn [ret].
  rewrite world_app_assoc. cbn [world_app calls calls_of app].
  rewrite length_app. cbn [length]. rewrite Nat.add_1_r. reflexivity.
Qed.

Lemma poll_result_image_name image cg logs : image_name (poll_result image cg logs) = image.
Proof.
  unfold poll_result. destruct (_get_container_state cg) as [[? ?] ?].
  now destruct (first_current_state cg).
Qed.

Lemma poll_result_state image cg logs : state (poll_result image cg logs) = reported_state cg.
Proof.
  unfold poll_result, reported_state. destruct (_get_container_state cg) as [[? ?] ?].
  now destruct (first_current_state cg).
Qed.

Lemma poll_result_logs_tail image cg logs :
  logs_tail (poll_result image cg logs) = _tail_lines logs LOG_TAIL_LINES.
Proof.
  unfold poll_result. destruct (_get_container_state cg) as [[? ?] ?].
  now destruct (first_current_state cg).
Qed.

End Fetcher.

(** C10: only the first container of a group (and the group's provisioning
    state) is consulted: whatever is done to the containers after the first,
    the state triple, the time stamps' source, the container name used for
    the log fetch, and the whole outcome of [poll_build] stay the same. *)
Theorem first_container_decides (f : list container -> list container) :
  (forall cg image,
      _get_container_state (alter_rest f cg) = _get_container_state cg
      /\ first_current_state (alter_rest f cg) = first_current_state cg
      /\ log_container_name (alter_rest f cg) image = log_container_name cg image)
  /\ (forall (svc : ContainerService) resource_group image w,
        @poll_build (altered_service f svc) resource_group image w
        = @poll_build svc resource_group image w).
Proof.
  assert (Hpure : forall cg image,
      _get_container_state (alter_rest f cg) = _get_container_state cg
      /\ first_current_state (alter_rest f cg) = first_current_state cg
      /\ log_container_name (alter_rest f cg) image = log_container_name cg image).
  { intros [[[|c rest]|] prov] image; repeat split; reflexivity. }
  split; [exact Hpure|].
  intros svc rg image w. rewrite !poll_build_eq. cbn [cg_get altered_service].
  destruct (@cg_get svc _ _ _) as [cg|e]; [|reflexivity].
  destruct (Hpure cg image) as (Hs & Hc & Hn).
  cbv zeta. rewrite Hn. unfold fetched_logs. cbn [list_logs altered_service].
  unfold poll_result. rewrite Hs, Hc. reflexivity.
Qed.


(** ** The tail helper *)

Lemma string_ind_two (P : string -> Prop) :
  P EmptyString ->
  (forall c r, P r -> (forall c' r', r = String c' r' -> P r') -> P (String c r)) ->
  forall s, P s.
Proof.
  intros H0 Hstep s.
  assert (H : P s /\ (forall c' r', s = String c' r' -> P r')).
  { induction s as [|c r [IH1 IH2]].
    - split; [exact H0 | discriminate].
    - split; [now apply Hstep | intros c' r' [= _ <-]; exact IH1]. }
  exact (proj1 H).
Qed.

Lemma linebreak_isspace (c : ascii) : islinebreak c = true -> isspace c = true.
Proof. destruct c as [[] [] [] [] [] [] [] []]; vm_compute; auto. Qed.

Lemma splitlines_cons_text (c : ascii) (r : string) :
  islinebreak c = false ->
  splitlines (String c r) =
  match splitlines r with
  | [] => [String c EmptyString]
  | l :: ls => String c l :: ls
  end.
Proof. intros H. cbn. now rewrite H. Qed.

Lemma splitlines_no_linebreak (s : string) :
  Forall (fun l => no_linebreak l = true) (splitlines s).
Proof.
  induction s as [|c r IH IH'] using string_ind_two; [constructor|].
  destruct (islinebreak c) eqn:Hc.
  - cbn. rewrite Hc. constructor; [reflexivity|].
    destruct (Ascii.eqb c CR); [|exact IH].
    destruct r as [|c' r']; [constructor|].
    destruct (Ascii.eqb c' LF); [now apply (IH' c' r') | exact IH].
  - rewrite splitlines_cons_text by exact Hc.
    destruct (splitlines r) as [|l ls].
    + repeat constructor. cbn. now rewrite Hc.
    + inversion IH as [|? ? Hl Hls]; subst. constructor; [|exact Hls].
      cbn. now rewrite Hc, Hl.
Qed.

Lemma ends_with_text_cons (c c' : ascii) (r : string) :
  ends_with_text (String c (String c' r)) = ends_with_text (String c' r).
Proof. reflexivity. Qed.

Lemma splitlines_last_nonempty (s : string) :
  ends_with_text s = true ->
  exists l, last (splitlines s) = Some l /\ l <> EmptyString.
Proof.
  induction s as [|c r IH IH'] using string_ind_two; [discriminate|].
  intros He. destruct (islinebreak c) eqn:Hc.
  - destruct r as [|c' r']; [cbn in He; rewrite Hc in He; discriminate|].
    rewrite ends_with_text_cons in He.
    cbn [splitlines]. rewrite Hc.
    assert (Hgoal : forall X, (exists l, last X = Some l /\ l <> EmptyString) ->
              exists l, last (EmptyString :: X) = Some l /\ l <> EmptyString).
    { intros [|x X] (l & Hl & Hne); [discriminate|]. exists l. now rewrite last_cons_cons. }
    apply Hgoal. destruct (Ascii.eqb c CR); [|now apply IH].
    destruct (Ascii.eqb c' LF) eqn:Hc'; [|now apply IH].
    apply (IH' c' r' eq_refl).
    apply Ascii.eqb_eq in Hc'. subst c'.
    destruct r' as [|c2 r2]; [discriminate He | exact He].
  - rewrite splitlines_cons_text by exact Hc.
    destruct r as [|c' r'].
    + cbn. eexists; split; [reflexivity | discriminate].
    + rewrite ends_with_text_cons in He. destruct (IH He) as (l & Hl & Hne).
      destruct (splitlines (String c' r')) as [|x [|y ls]]; [discriminate| |].
      * cbn. eexists; split; [reflexivity | discriminate].
      * rewrite last_cons_cons. rewrite last_cons_cons in Hl. now exists l.
Qed.

Lemma rstrip_ends_with_text (s : string) :
  rstrip s = EmptyString \/ ends_with_text (rstrip s) = true.
Proof.
  induction s as [|c r IH]; [now left|].
  cbn [rstrip]. destruct (rstrip r) as [|c' r'] eqn:Hr.
  - destruct (isspace c) eqn:Hc; [now left|]. right. cbn.
    destruct (islinebreak c) eqn:Hl; [|reflexivity].
    apply linebreak_isspace in Hl. congruence.
  - right. destruct IH as [IH|IH]; [discriminate|]. exact IH.
Qed.

Lemma splitlines_line_then (l rest : string) :
  no_linebreak l = true ->
  splitlines (l +:+ nl +:+ rest) = l :: splitlines rest.
Proof.
  induction l as [|c l IH]; intros Hl.
  - reflexivity.
  - cbn in Hl. apply andb_true_iff in Hl as [Hc Hl]. apply negb_true_iff in Hc.
    change (String c l +:+ nl +:+ rest) with (String c (l +:+ nl +:+ rest)).
    rewrite splitlines_cons_text by exact Hc. now rewrite IH.
Qed.

Lemma splitlines_one_line (l : string) :
  no_linebreak l = true -> l <> EmptyString -> splitlines l = [l].
Proof.
  induction l as [|c l IH]; intros Hl Hne; [congruence|].
  cbn in Hl. apply andb_true_iff in Hl as [Hc Hl]. apply negb_true_iff in Hc.
  rewrite splitlines_cons_text by exact Hc.
  destruct l as [|c' l']; [reflexivity|]. rewrite IH; [reflexivity | exact Hl | discriminate].
Qed.

Lemma splitlines_join (ls : list string) :
  Forall (fun l => no_linebreak l = true) ls ->
  last ls <> Some EmptyString ->
  splitlines (join nl ls) = ls.
Proof.
  induction ls as [|l ls IH]; intros Hall Hlast; [reflexivity|].
  inversion Hall as [|? ? Hl Hls]; subst.
  destruct ls as [|l2 ls].
  - cbn. apply splitlines_one_line; [exact Hl|]. intros ->. now apply Hlast.
  - change (join nl (l :: l2 :: ls)) with (l +:+ nl +:+ join nl (l2 :: ls)).
    rewrite splitlines_line_then by exact Hl. f_equal. apply IH; [exact Hls|].
    now rewrite last_cons_cons in Hlast.
Qed.

Lemma list_from_neg {A} (l : list A) (k : Z) :
  0 < k -> list_from l (- k) = last_n (Z.to_nat k) l.
Proof.
  intros Hk. unfold list_from, last_n, slice_start.
  destruct (Z.ltb_spec (- k) 0) as [_|?]; [|lia]. f_equal. lia.
Qed.

Lemma last_last_n {A} (n : nat) (l : list A) : (0 < n)%nat -> last (last_n n l) = last l.
Proof.
  intros Hn. unfold last_n. rewrite !last_lookup, length_drop, lookup_drop.
  destruct l as [|x l]; [reflexivity|]. f_equal. cbn [length]. lia.
Qed.

Lemma strip_lines_last (text : string) :
  (strip text = EmptyString /\ splitlines (strip text) = [])
  \/ (exists l, last (splitlines (strip text)) = Some l /\ l <> EmptyString).
Proof.
  unfold strip. destruct (rstrip_ends_with_text (lstrip text)) as [H|H].
  - left. now rewrite H.
  - right. now apply splitlines_last_nonempty.
Qed.

(** C8, as amended: for a line count of at least one, the tail helper returns
    the last [k] lines of the text stripped of surrounding white space (blank
    lines in between are kept and counted), joined by newlines; the returned
    text has at most [k] lines; its last line is the last line of the stripped
    text, which is not empty, whenever the text is not all white space; and
    the tail of the empty text is empty. *)
Theorem tail_lines_of_stripped_text (text : string) (k : Z) :
  0 < k ->
  _tail_lines text k = join nl (last_n (Z.to_nat k) (splitlines (strip text)))
  /\ splitlines (_tail_lines text k) = last_n (Z.to_nat k) (splitlines (strip text))
  /\ Z.of_nat (length (splitlines (_tail_lines text k))) <= k
  /\ (strip text <> EmptyString ->
      exists l, l <> EmptyString
                /\ last (splitlines (_tail_lines text k)) = Some l
                /\ last (splitlines (strip text)) = Some l)
  /\ _tail_lines EmptyString k = EmptyString.
Proof.
  intros Hk.
  assert (Hdef : forall t, _tail_lines t k
                           = join nl (last_n (Z.to_nat k) (splitlines (strip t)))).
  { intros t. unfold _tail_lines. now rewrite list_from_neg. }
  assert (Hlines : splitlines (_tail_lines text k)
                   = last_n (Z.to_nat k) (splitlines (strip text))).
  { rewrite Hdef. apply splitlines_join.
    - apply Forall_drop, splitlines_no_linebreak.
    - rewrite last_last_n by lia.
      destruct (strip_lines_last text) as [[_ ->]|(l & -> & Hne)];
        [discriminate | congruence]. }
  split; [apply Hdef|]. split; [exact Hlines|]. split; [|split].
  - rewrite Hlines. unfold last_n. rewrite length_drop. lia.
  - intros Hne. rewrite Hlines, last_last_n by lia.
    destruct (strip_lines_last text) as [[H _]|(l & Hl & Hl')]; [congruence|].
    exists l. now rewrite Hl.
  - rewrite Hdef. reflexivity.
Qed.

Lemma tail_lines_of_stripped_text_demo :
  0 < 3
  /\ _tail_lines sample_log 3 = join nl (last_n (Z.to_nat 3) (splitlines (strip sample_log)))
  /\ splitlines (_tail_lines sample_log 3)
     = last_n (Z.to_nat 3) (splitlines (strip sample_log))
  /\ Z.of_nat (length (splitlines (_tail_lines sample_log 3))) <= 3.
Proof.
  split; [reflexivity|].
  destruct (tail_lines_of_stripped_text sample_log 3 eq_refl) as (H1 & H2 & H3 & _).
  exact (conj H1 (conj H2 H3)).
Defined.

(** C8, as stated, fails: of the text with the three lines [a], an empty
    line and [b], the helper with [k = 2] returns the empty line and [b],
    not the last two non-empty lines [a] and [b]. *)
Lemma tail_lines_keeps_blank_lines :
  ~ tail_lines_as_specified ("a" +:+ nl +:+ nl +:+ "b") 2.
Proof. intros (H & _). vm_compute in H. discriminate H. Qed.

Example tail_lines_last_line_is_stripped :
  last (splitlines (_tail_lines ("a" +:+ nl +:+ "b  ") 1)) = Some "b"
  /\ last (splitlines ("a" +:+ nl +:+ "b  ")) = Some "b  ".
Proof. split; reflexivity. Qed.

Example tail_lines_zero_returns_everything :
  _tail_lines ("a" +:+ nl +:+ "b") 0 = "a" +:+ nl +:+ "b".
Proof. reflexivity. Qed.

(** ** The reporter *)

Lemma stdout_foldr_world {A} (d : A -> world) (l : list A) :
  stdout (foldr (fun x acc => world_app (d x) acc) world0 l)
  = concat (map (fun x => stdout (d x)) l).
Proof. induction l as [|x l IH]; cbn; [reflexivity | now rewrite IH]. Qed.

Lemma appended_foldr_world {A} (d : A -> world) (l : list A) :
  appended (foldr (fun x acc => world_app (d x) acc) world0 l)
  = concat (map (fun x => appended (d x)) l).
Proof. induction l as [|x l IH]; cbn; [reflexivity | now rewrite IH]. Qed.

Lemma concat_map_nil {A B} (l : list A) : concat (map (fun _ : A => @nil B) l) = [].
Proof. induction l; cbn; auto. Qed.

Lemma concat_map_singleton {A B} (f : A -> B) (l : list A) :
  concat (map (fun x => [f x]) l) = map f l.
Proof. induction l as [|x l IH]; cbn; [reflexivity | now rewrite IH]. Qed.

Lemma existsb_filter {A} (f : A -> bool) (l : list A) :
  existsb f l = match List.filter f l with [] => false | _ :: _ => true end.
Proof.
  induction l as [|x l IH]; cbn; [reflexivity|].
  destruct (f x); [reflexivity | exact IH].
Qed.

Lemma truthy_app_cons (a : string) (c : ascii) (b : string) :
  truthy (Some (a +:+ String c b)) = true.
Proof. now destruct a. Qed.

Lemma or_str_some (s : string) : or_str (Some s) EmptyString = s.
Proof. now destruct s. Qed.

Lemma emits_annotation (level title message : string) :
  truthy (Some title) = true ->
  emits (emit_github_annotation level message (Some title))
        tt (wrote [annotation level title message]).
Proof.
  intros Ht. unfold emit_github_annotation, annotation.
  rewrite Ht, or_str_some. apply emits_print.
Qed.

Lemma emits_annotate_failure (r : BuildResult) :
  emits (annotate_failure r) tt (wrote [error_annotation r]).
Proof. apply emits_annotation, truthy_app_cons. Qed.

Lemma emits_annotate_success (r : BuildResult) :
  emits (annotate_success r) tt (wrote [notice_annotation r]).
Proof. apply emits_annotation, truthy_app_cons. Qed.

Lemma emits_write_github_output (env : environ) (key value : string) :
  emits (write_github_output env key value) tt
        (files_of (if truthy (GITHUB_OUTPUT env)
                   then [(or_str (GITHUB_OUTPUT env) EmptyString, key +:+ "=" +:+ value +:+ nl)]
                   else [])).
Proof.
  unfold write_github_output. destruct (truthy (GITHUB_OUTPUT env)).
  - apply emits_file_append.
  - apply emits_ret.
Qed.

Lemma emits_write_github_summary (env : environ) (markdown : string) :
  emits (write_github_summary env markdown) tt
        (files_of (if truthy (GITHUB_STEP_SUMMARY env)
                   then [(or_str (GITHUB_STEP_SUMMARY env) EmptyString, markdown +:+ nl)]
                   else [])).
Proof.
  unfold write_github_summary. destruct (truthy (GITHUB_STEP_SUMMARY env)).
  - apply emits_file_append.
  - apply emits_ret.
Qed.

Lemma emits_write_outputs (env : environ) (results : list BuildResult) :
  exists d,
    emits (write_outputs env (List.filter failed results) (List.filter succeeded results)) tt d
    /\ stdout d = [] /\ appended d = output_appends env results.
Proof.
  unfold write_outputs, output_appends, output_lines, build_result.
  rewrite !existsb_filter.
  eexists. split.
  - eapply emits_bind; [apply emits_write_github_output|].
    eapply emits_bind.
    + instantiate (1 := files_of
        (match List.filter failed results with
         | [] => []
         | _ :: _ =>
             if truthy (GITHUB_OUTPUT env)
             then [(or_str (GITHUB_OUTPUT env) EmptyString,
                    "failed_images" +:+ "="
                    +:+ join "," (map image_name (List.filter failed results)) +:+ nl)]
             else []
         end)).
      destruct (List.filter failed results);
        [apply emits_ret | apply emits_write_github_output].
    + instantiate (1 := files_of
        (match List.filter succeeded results with
         | [] => []
         | _ :: _ =>
             if truthy (GITHUB_OUTPUT env)
             then [(or_str (GITHUB_OUTPUT env) EmptyString,
                    "succeeded_images" +:+ "="
                    +:+ join "," (map image_name (List.filter succeeded results)) +:+ nl)]
             else []
         end)).
      destruct (List.filter succeeded results);
        [apply emits_ret | apply emits_write_github_output].
  - split; [reflexivity|]. cbn.
    destruct (truthy (GITHUB_OUTPUT env));
      destruct (List.filter failed results); destruct (List.filter succeeded results);
      reflexivity.
Qed.

(** The reporter returns the failed results; in CI mode it writes the
    annotations of the failed results, then those of the succeeded ones, to
    standard output, and appends the summary and the key/value lines;
    outside of CI it writes nothing there. *)
Lemma report_results_effects (env : environ) (results : list BuildResult) :
  exists d,
    emits (report_results env results) (List.filter failed results) d
    /\ stdout d =
         (if is_github_actions env
          then map error_annotation (List.filter failed results)
               ++ map notice_annotation (List.filter succeeded results)
          else [])
    /\ appended d =
         (if is_github_actions env
          then summary_appends env results ++ output_appends env results
          else []).
Proof.
  destruct (emits_write_outputs env results) as (dout & Hout & Hout1 & Hout2).
  unfold report_results. eexists. split.
  - do 4 (eapply emits_bind; [apply emits_logger|]).
    eapply emits_bind;
      [apply (emits_for_each _ _ (fun r => logs_of [(WARNING, console_line r)]));
       intros r; apply emits_logger|].
    eapply emits_bind; [apply emits_logger|].
    eapply emits_bind; [|apply emits_ret].
    instantiate (1 :=
      if is_github_actions env then
        world_app (foldr (fun x acc => world_app (wrote [error_annotation x]) acc) world0
                     (List.filter failed results))
          (world_app (foldr (fun x acc => world_app (wrote [notice_annotation x]) acc) world0
                        (List.filter succeeded results))
             (world_app (files_of (summary_appends env results)) dout))
      else world0).
    destruct (is_github_actions env); [|apply emits_ret].
    eapply emits_bind;
      [apply (emits_for_each _ _ (fun r => wrote [error_annotation r]));
       apply emits_annotate_failure|].
    eapply emits_bind;
      [apply (emits_for_each _ _ (fun r => wrote [notice_annotation r]));
       apply emits_annotate_success|].
    eapply emits_bind; [apply emits_write_github_summary | exact Hout].
  - cbn [stdout appended world_app logs_of app].
    rewrite !stdout_foldr_world, !appended_foldr_world. cbn [stdout appended logs_of].
    rewrite !concat_map_nil. cbn [app].
    destruct (is_github_actions env); [|split; reflexivity].
    cbn [stdout appended world_app files_of world0].
    rewrite !stdout_foldr_world, !appended_foldr_world. cbn [stdout appended wrote].
    rewrite !concat_map_nil, !concat_map_singleton, Hout1, Hout2, !app_nil_r.
    split; reflexivity.
Qed.

(** C6: the reporter returns exactly the failed results, in list order.  In CI
    mode it appends, after the markdown summary, the key/value lines to the
    file named by [GITHUB_OUTPUT]: [build_result] with [failure] when some
    result failed, else [success] when some result succeeded, else
    [unknown]; then [failed_images] with the comma-joined failed identifiers
    exactly when some result failed; then [succeeded_images] exactly when
    some result succeeded.  Outside of CI nothing is appended or printed. *)
Theorem report_results_outputs (env : environ) (results : list BuildResult) (w : world) :
  exists w',
    report_results env results w = (Returned (List.filter failed results), w')
    /\ (is_github_actions env = true ->
        appended w'
        = appended w ++ summary_appends env results ++ output_appends env results)
    /\ (forall c path, GITHUB_OUTPUT env = Some (String c path) ->
        output_appends env results
        = map (fun line => (String c path, line)) (output_lines results))
    /\ (is_github_actions env = false -> appended w' = appended w /\ stdout w' = stdout w).
Proof.
  destruct (report_results_effects env results) as (d & Hd & Hout & Happ).
  exists (world_app w d). split; [apply Hd|]. cbn [appended stdout world_app].
  rewrite Hout, Happ. repeat split.
  - intros ->. reflexivity.
  - intros c path Hp. unfold output_appends. now rewrite Hp.
  - rewrite H. apply app_nil_r.
  - rewrite H. apply app_nil_r.
Qed.

Lemma report_results_outputs_demo :
  is_github_actions github_env = true
  /\ exists w',
       report_results github_env good_and_bad world0
       = (Returned (List.filter failed good_and_bad), w')
       /\ appended w'
          = appended world0 ++ summary_appends github_env good_and_bad
            ++ output_appends github_env good_and_bad.
Proof.
  split; [reflexivity|].
  destruct (report_results_outputs github_env good_and_bad world0) as (w' & H1 & H2 & _).
  exists w'. split; [exact H1 | apply H2; reflexivity].
Defined.

Example output_lines_good_and_bad :
  output_lines good_and_bad
  = [ "build_result=failure" +:+ nl; "failed_images=bad" +:+ nl;
      "succeeded_images=good" +:+ nl ]
  /\ output_lines [finished "img1" 0 EmptyString]
     = [ "build_result=success" +:+ nl; "succeeded_images=img1" +:+ nl ]
  /\ output_lines [] = [ "build_result=unknown" +:+ nl ].
Proof. vm_compute. repeat split. Qed.

Lemma str_app_cons (c : ascii) (a b : string) : String c a +:+ b = String c (a +:+ b).
Proof. reflexivity. Qed.

Lemma has_newline_app (a b : string) :
  has_newline (a +:+ b) = has_newline a || has_newline b.
Proof.
  induction a as [|c a IH]; [reflexivity|].
  rewrite str_app_cons. cbn [has_newline]. rewrite IH. apply orb_assoc.
Qed.

Lemma has_newline_escaped (message : string) :
  has_newline (replace LF "%0A" message) = false.
Proof.
  induction message as [|c m IH]; [reflexivity|].
  cbn [replace]. destruct (Ascii.eqb c LF) eqn:Hc.
  - rewrite has_newline_app, IH. reflexivity.
  - cbn [has_newline]. now rewrite Hc, IH.
Qed.

Lemma is_one_line_app_nl (line : string) :
  has_newline line = false -> is_one_line (line +:+ nl) = true.
Proof.
  induction line as [|c l IH]; [reflexivity|].
  cbn [has_newline]. intros H. apply orb_false_iff in H as [Hc Hl].
  rewrite str_app_cons. specialize (IH Hl).
  destruct (l +:+ nl) as [|c' l'] eqn:E; [discriminate IH|].
  change (negb (Ascii.eqb c LF) && is_one_line (String c' l') = true).
  now rewrite Hc, IH.
Qed.

Lemma annotation_is_one_line (level title message : string) :
  has_newline level = false -> has_newline title = false ->
  is_one_line (annotation level title message) = true.
Proof.
  intros Hl Ht. apply is_one_line_app_nl.
  rewrite !has_newline_app, Hl, Ht, has_newline_escaped. reflexivity.
Qed.

(** C7, as amended: in CI mode the reporter writes to standard output exactly
    one error annotation per failed result, then exactly one notice
    annotation per succeeded result, each of the form
    [::<level> title=<text>::<message>]; the newlines of the message are
    written as [%0A], so that no newline is left in it; and the annotation is
    one physical line provided the identifier, which goes into the title as
    it is, holds no newline. *)
Theorem report_results_annotations (env : environ) (results : list BuildResult) (w : world) :
  is_github_actions env = true ->
  exists w',
    report_results env results w = (Returned (List.filter failed results), w')
    /\ stdout w'
       = stdout w ++ map error_annotation (List.filter failed results)
         ++ map notice_annotation (List.filter succeeded results)
    /\ (forall r,
          error_annotation r
          = ("::" +:+ "error" +:+ (" title=" +:+ image_name r +:+ " build failed") +:+ "::"
             +:+ replace LF "%0A" (failure_message r)) +:+ nl
          /\ notice_annotation r
             = ("::" +:+ "notice" +:+ (" title=" +:+ image_name r +:+ " build succeeded")
                +:+ "::" +:+ replace LF "%0A" "Build completed successfully.") +:+ nl
          /\ has_newline (replace LF "%0A" (failure_message r)) = false
          /\ (has_newline (image_name r) = false ->
              is_one_line (error_annotation r) = true
              /\ is_one_line (notice_annotation r) = true)).
Proof.
  intros Hci.
  destruct (report_results_effects env results) as (d & Hd & Hout & _).
  exists (world_app w d). split; [apply Hd|]. cbn [stdout world_app].
  rewrite Hout, Hci. split; [reflexivity|].
  intros r. split; [reflexivity|]. split; [reflexivity|].
  split; [apply has_newline_escaped|].
  intros Hname.
  split; apply annotation_is_one_line; try reflexivity;
    rewrite has_newline_app, Hname; reflexivity.
Qed.

Lemma report_results_annotations_demo :
  is_github_actions github_env = true
  /\ exists w',
       report_results github_env good_and_bad world0
       = (Returned (List.filter failed good_and_bad), w')
       /\ stdout w'
          = stdout world0 ++ map error_annotation (List.filter failed good_and_bad)
            ++ map notice_annotation (List.filter succeeded good_and_bad).
Proof.
  split; [reflexivity|].
  destruct (report_results_annotations github_env good_and_bad world0 eq_refl)
    as (w' & H1 & H2 & _).
  exists w'. split; [exact H1 | exact H2].
Defined.

Example annotations_good_and_bad :
  map error_annotation (List.filter failed good_and_bad)
  = [ "::error title=bad build failed::Build failed with exit code 1.%0A%0ALast 50 lines:%0Apacker error"
      +:+ nl ]
  /\ map notice_annotation (List.filter succeeded good_and_bad)
     = [ "::notice title=good build succeeded::Build completed successfully." +:+ nl ].
Proof. vm_compute. split; reflexivity. Qed.

(** C7, as stated, fails: for a failed result whose identifier holds a
    newline the error annotation is written on two physical lines, as the
    title is not escaped. *)
Lemma annotation_title_not_escaped : ~ annotations_are_single_lines two_line_name.
Proof.
  intros H. specialize (H github_env eq_refl).
  apply Forall_inv in H. vm_compute in H. discriminate H.
Qed.

(** ** The fan-out poller: one poll *)

Section PollOne.

Context {svc : ContainerService}.
Variable env : environ.
Variable resource_group : string.
Variable image_names : list string.
Variable portal_urls_arg : option (gmap string string).

Local Abbreviation poll1 := (poll_one env resource_group image_names portal_urls_arg).
Local Abbreviation stored := (stored_result portal_urls_arg).

Lemma poll_one_completed (name : string) (s : session) (w : world) :
  name ∈ completed s -> poll1 name s w = (Returned s, w).
Proof. intros H. unfold poll_one. now rewrite decide_True. Qed.

Lemma poll_one_raised (name e : string) (s : session) (w : world) :
  name ∉ completed s ->
  cg_get (length (calls w)) resource_group name = Raised e ->
  poll1 name s w = (Returned s, world_app w (poll_error_trace resource_group name e)).
Proof.
  intros Hn Hget. unfold poll_one. rewrite decide_False by exact Hn.
  unfold bind at 1, try_except, bind at 1. rewrite poll_build_eq, Hget.
  unfold bind. rewrite (emits_logger INFO _ _). cbn [ret].
  now rewrite world_app_assoc.
Qed.

Lemma stream_log_delta_eq (name logs : string) (previous : Z) (groups : bool) (w : world) :
  exists chunks,
    _stream_log_delta name logs previous groups w
    = (Returned (next_offset logs previous), world_app w (wrote chunks)).
Proof.
  unfold _stream_log_delta, next_offset. destruct (len logs <=? previous).
  - exists []. unfold ret. now rewrite world_app_nil_r.
  - destruct groups; eexists; unfold bind.
    + rewrite (emits_print _ _), (emits_stdout_write _ _), (emits_print _ _).
      unfold ret. rewrite !world_app_assoc. reflexivity.
    + unfold ret at 1. rewrite (emits_stdout_write _ _).
      unfold ret. reflexivity.
Qed.

Lemma poll_one_returned (name : string) (cg : container_group) (previous : Z)
    (s : session) (w : world) :
  name ∉ completed s ->
  cg_get (length (calls w)) resource_group name = Returned cg ->
  log_offsets s !! name = Some previous ->
  let cname := log_container_name cg name in
  let logs := fetched_logs (S (length (calls w))) resource_group name cname in
  let r := stored name cg logs in
  exists chunks notices,
    poll1 name s w
    = (Returned {| log_offsets := <[name := next_offset logs previous]> (log_offsets s);
                   completed := if String.eqb (state r) TERMINATED
                                then {[name]} ∪ completed s else completed s;
                   results := <[name := r]> (results s) |},
       world_app w
         (world_app (calls_of [CallGet resource_group name;
                               CallListLogs resource_group name cname])
            (world_app (wrote chunks) (logs_of notices)))).
Proof.
  intros Hn Hget Hoff cname logs r.
  destruct (stream_log_delta_eq name logs previous
              (use_groups env image_names)
              (world_app w (calls_of [CallGet resource_group name;
                                      CallListLogs resource_group name cname])))
    as (chunks & Hstream).
  exists chunks.
  unfold poll_one. rewrite decide_False by exact Hn.
  unfold bind at 1, try_except, bind at 1. rewrite poll_build_eq, Hget.
  cbv zeta. cbn [ret]. fold cname. fold logs.
  unfold subscript. rewrite Hoff. unfold bind at 1. cbn [ret].
  unfold bind at 1. rewrite Hstream.
  change (set_portal_url (poll_result name cg logs)
            (dict_get (portal_urls portal_urls_arg) name)) with r.
  destruct (String.eqb (state r) TERMINATED).
  - eexists. unfold bind. rewrite (emits_logger WARNING _ _). cbn [ret].
    rewrite !world_app_assoc. reflexivity.
  - exists []. cbn [ret]. rewrite !world_app_assoc.
    change (logs_of []) with world0. now rewrite (world_app_nil_r (wrote chunks)).
Qed.

Lemma poll_one_key_error (name : string) (cg : container_group) (s : session) (w : world) :
  name ∉ completed s ->
  cg_get (length (calls w)) resource_group name = Returned cg ->
  log_offsets s !! name = None ->
  exists e w', poll1 name s w = (Raised e, w').
Proof.
  intros Hn Hget Hoff.
  unfold poll_one. rewrite decide_False by exact Hn.
  unfold bind at 1, try_except, bind at 1. rewrite poll_build_eq, Hget.
  cbv zeta. cbn [ret]. unfold subscript. rewrite Hoff. unfold bind, raise.
  eexists _, _. reflexivity.
Qed.

End PollOne.

(** ** The fan-out poller: sweeps *)

Lemma moved_on_refl (s : session) (w : world) : moved_on s w s w.
Proof.
  repeat split; try done.
  - intros n o Ho. exists o. split; [exact Ho | lia].
  - exists []. split; [now rewrite app_nil_r|]. intros n _. cbn. apply not_elem_of_nil.
Qed.

Lemma moved_on_trans (s : session) (w : world) (s1 : session) (w1 : world)
    (s2 : session) (w2 : world) :
  moved_on s w s1 w1 -> moved_on s1 w1 s2 w2 -> moved_on s w s2 w2.
Proof.
  intros (Hc & Ho & Hf & new & Hcalls & Hnew) (Hc' & Ho' & Hf' & new' & Hcalls' & Hnew').
  split; [etrans; eassumption|]. split; [|split].
  - intros n o Hn. destruct (Ho n o Hn) as (o1 & Ho1 & Hle).
    destruct (Ho' n o1 Ho1) as (o2 & Ho2 & Hle'). exists o2. split; [exact Ho2 | lia].
  - intros n Hn. destruct (Hf n Hn) as [E1 E2].
    destruct (Hf' n (Hc n Hn)) as [E1' E2']. split; congruence.
  - exists (new ++ new'). split; [rewrite Hcalls', Hcalls; now rewrite app_assoc|].
    intros n Hn. rewrite map_app, elem_of_app. intros [H|H].
    + exact (Hnew n Hn H).
    + exact (Hnew' n (Hc n Hn) H).
Qed.

Lemma moved_on_world_only (s : session) (w : world) (d : world) :
  calls d = [] -> moved_on s w s (world_app w d).
Proof.
  intros Hd. destruct (moved_on_refl s w) as (H1 & H2 & H3 & _).
  repeat split; try done.
  exists []. split; [cbn; now rewrite Hd|]. intros n _. cbn. apply not_elem_of_nil.
Qed.

Lemma next_offset_ge (logs : string) (previous : Z) : previous <= next_offset logs previous.
Proof. unfold next_offset. destruct (Z.leb_spec (len logs) previous); lia. Qed.

Lemma session0_ok (image_names : list string) : session_ok image_names (session0 image_names).
Proof.
  split; [|split].
  - intros n Hn. cbn.
    assert (H : forall (l : list string) (m : gmap string Z),
               n ∈ l \/ is_Some (m !! n) ->
               is_Some (foldl (fun m name => <[name := 0]> m) m l !! n)).
    { induction l as [|x l IH]; intros m [Hin|Hm]; cbn.
      - now apply elem_of_nil in Hin.
      - exact Hm.
      - apply IH. apply elem_of_cons in Hin as [->|Hin]; [right | now left].
        rewrite lookup_insert_eq. eauto.
      - apply IH. right. destruct (decide (x = n)) as [->|Hne].
        + rewrite lookup_insert_eq. eauto.
        + now rewrite lookup_insert_ne. }
    apply H. now left.
  - intros n Hn. cbn in Hn. now apply not_elem_of_empty in Hn.
  - intros n r Hr. cbn in Hr. now rewrite lookup_empty in Hr.
Qed.

Section Sweeps.

Context {svc : ContainerService}.
Variable env : environ.
Variable resource_group : string.
Variable image_names : list string.
Variable portal_urls_arg : option (gmap string string).

Local Abbreviation poll1 := (poll_one env resource_group image_names portal_urls_arg).
Local Abbreviation body := (loop_body env resource_group image_names portal_urls_arg).
Local Abbreviation after := (after_sweeps env resource_group image_names portal_urls_arg).
Local Abbreviation loop := (while_pending env resource_group image_names portal_urls_arg).

Lemma stored_result_image_name (name : string) (cg : container_group) (logs : string) :
  image_name (stored_result portal_urls_arg name cg logs) = name.
Proof. apply poll_result_image_name. Qed.

Lemma poll_one_moves_on (name : string) (s : session) (w : world) :
  session_ok image_names s -> name ∈ image_names ->
  exists s' w',
    poll1 name s w = (Returned s', w')
    /\ session_ok image_names s' /\ moved_on s w s' w'.
Proof.
  intros Hok Hname. destruct (decide (name ∈ completed s)) as [Hin|Hnin].
  { exists s, w. rewrite poll_one_completed by exact Hin.
    split; [reflexivity|]. split; [exact Hok | apply moved_on_refl]. }
  destruct (cg_get (length (calls w)) resource_group name) as [cg|e] eqn:Hget.
  2:{ eexists s, _. rewrite (poll_one_raised env resource_group image_names portal_urls_arg name e s w) by assumption.
      split; [reflexivity|]. split; [exact Hok|].
      destruct (moved_on_refl s w) as (H1 & H2 & H3 & _). repeat split; try done.
      eexists. split; [cbn; reflexivity|].
      intros n Hn. cbn. rewrite list_elem_of_singleton. intros ->. contradiction. }
  destruct Hok as (Hoff & Hdone & Hres).
  destruct (Hoff name Hname) as [previous Hprev].
  destruct (poll_one_returned env resource_group image_names portal_urls_arg
              name cg previous s w Hnin Hget Hprev) as (chunks & notices & Heq).
  cbv zeta in Heq. eexists _, _. split; [exact Heq|].
  set (logs := fetched_logs _ _ _ _) in *.
  set (r := stored_result portal_urls_arg name cg logs) in *.
  split; [split; [|split]|]; cbn [log_offsets completed results].
  - intros n Hn. destruct (decide (name = n)) as [->|Hne].
    + rewrite lookup_insert_eq. eauto.
    + rewrite lookup_insert_ne by exact Hne. now apply Hoff.
  - intros n Hn.
    assert (Hcases : n ∈ completed s
                     \/ (n = name /\ String.eqb (state r) TERMINATED = true)).
    { destruct (String.eqb (state r) TERMINATED); [|now left].
      apply elem_of_union in Hn as [Hn|Hn]; [|now left].
      apply elem_of_singleton in Hn. now right. }
    destruct Hcases as [Hold|[-> Hterm]].
    + destruct (Hdone n Hold) as (Hin & r0 & Hr0 & Hst). split; [exact Hin|].
      exists r0. rewrite lookup_insert_ne; [now split|]. intros ->. contradiction.
    + split; [exact Hname|]. exists r. rewrite lookup_insert_eq.
      split; [reflexivity | now apply String.eqb_eq].
  - intros n r0. destruct (decide (name = n)) as [->|Hne].
    + rewrite lookup_insert_eq. intros [= <-]. apply stored_result_image_name.
    + rewrite lookup_insert_ne by exact Hne. apply Hres.
  - split; [|split; [|split]]; cbn [log_offsets completed results].
    + destruct (String.eqb (state r) TERMINATED); [apply union_subseteq_r | reflexivity].
    + intros n o Ho. destruct (decide (name = n)) as [->|Hne].
      * rewrite lookup_insert_eq. eexists. split; [reflexivity|].
        rewrite Hprev in Ho. injection Ho as <-. apply next_offset_ge.
      * rewrite lookup_insert_ne by exact Hne. exists o. split; [exact Ho | lia].
    + intros n Hn. assert (name <> n) by (intros ->; contradiction).
      now rewrite !lookup_insert_ne.
    + exists [CallGet resource_group name;
              CallListLogs resource_group name (log_container_name cg name)].
      split; [reflexivity|].
      intros n Hn. cbn. rewrite !elem_of_cons. intros [->|[->|H]]; try contradiction.
      now apply elem_of_nil in H.
Qed.

Lemma for_fold_moves_on (l : list string) (s : session) (w : world) :
  session_ok image_names s -> (forall n, n ∈ l -> n ∈ image_names) ->
  exists s' w',
    for_fold l poll1 s w = (Returned s', w')
    /\ session_ok image_names s' /\ moved_on s w s' w'.
Proof.
  revert s w. induction l as [|x l IH]; intros s w Hok Hl.
  - exists s, w. split; [reflexivity|]. split; [exact Hok | apply moved_on_refl].
  - destruct (poll_one_moves_on x s w Hok) as (s1 & w1 & H1 & Hok1 & Hm1).
    { apply Hl. now left. }
    destruct (IH s1 w1 Hok1) as (s2 & w2 & H2 & Hok2 & Hm2).
    { intros n Hn. apply Hl. now right. }
    exists s2, w2. cbn [for_fold]. unfold bind. rewrite H1, H2.
    split; [reflexivity|]. split; [exact Hok2|]. eapply moved_on_trans; eassumption.
Qed.

Lemma pause_emits (s : session) :
  exists d, emits (pause image_names s) tt d /\ calls d = [].
Proof.
  unfold pause. destruct (pending_left image_names s).
  - eexists. split; [eapply emits_bind; [apply emits_logger | apply emits_sleep]|].
    reflexivity.
  - exists world0. split; [apply emits_ret | reflexivity].
Qed.

Lemma loop_body_moves_on (s : session) (w : world) :
  session_ok image_names s ->
  exists s' w',
    body s w = (Returned s', w') /\ session_ok image_names s' /\ moved_on s w s' w'.
Proof.
  intros Hok.
  destruct (for_fold_moves_on image_names s w Hok) as (s1 & w1 & H1 & Hok1 & Hm1); [auto|].
  destruct (pause_emits s1) as (d & Hd & Hcalls).
  exists s1, (world_app w1 d). unfold loop_body, sweep, bind. rewrite H1, (Hd w1).
  split; [reflexivity|]. split; [exact Hok1|].
  eapply moved_on_trans; [exact Hm1 | now apply moved_on_world_only].
Qed.

Lemma after_sweeps_moves_on (n : nat) (s : session) (w : world) :
  session_ok image_names s ->
  exists s' w',
    after n s w = (Returned s', w') /\ session_ok image_names s' /\ moved_on s w s' w'.
Proof.
  revert s w. induction n as [|n IH]; intros s w Hok; cbn [after_sweeps].
  - exists s, w. split; [reflexivity|]. split; [exact Hok | apply moved_on_refl].
  - destruct (pending_left image_names s).
    + destruct (loop_body_moves_on s w Hok) as (s1 & w1 & H1 & Hok1 & Hm1).
      destruct (IH s1 w1 Hok1) as (s2 & w2 & H2 & Hok2 & Hm2).
      exists s2, w2. rewrite H1. split; [exact H2|]. split; [exact Hok2|].
      eapply moved_on_trans; eassumption.
    + exists s, w. split; [reflexivity|]. split; [exact Hok | apply moved_on_refl].
Qed.

Lemma after_sweeps_left (n : nat) (s : session) (w : world) :
  pending_left image_names s = false -> after n s w = (Returned s, w).
Proof. intros H. destruct n; cbn [after_sweeps]; [reflexivity | now rewrite H]. Qed.

Lemma after_sweeps_add (n m : nat) (s : session) (w : world) :
  after (n + m) s w =
  match after n s w with
  | (Returned s1, w1) => after m s1 w1
  | (Raised e, w1) => (Raised e, w1)
  end.
Proof.
  revert s w. induction n as [|n IH]; intros s w; [reflexivity|].
  cbn [Nat.add after_sweeps]. destruct (pending_left image_names s) eqn:Hp.
  - destruct (body s w) as [[s1|e] w1]; [apply IH | reflexivity].
  - now rewrite after_sweeps_left.
Qed.

Lemma while_pending_after_sweeps (fuel : nat) (s : session) (w : world)
    (r : outcome session * world) :
  loop fuel s w = Some r -> after fuel s w = r.
Proof.
  revert s w. induction fuel as [|fuel IH]; intros s w; cbn [while_pending after_sweeps].
  - destruct (pending_left image_names s); [discriminate | now intros [= <-]].
  - destruct (pending_left image_names s); [|now intros [= <-]].
    destruct (body s w) as [[s1|e] w1]; [apply IH | now intros [= <-]].
Qed.

End Sweeps.

(** C2: across the sweeps of a session, every log offset only grows and the
    completed set only grows; a job that is in the completed set after [n]
    sweeps is not polled in any later sweep (no client call is about it), and
    its offset and its stored result stay as they are.  The sweeps never
    raise, and they are the sweeps the [while] loop of [wait_for_builds]
    makes. *)
Theorem sweeps_only_move_on {svc : ContainerService} (env : environ)
    (resource_group : string) (image_names : list string)
    (portal_urls_arg : option (gmap string string)) (w : world) (n m : nat) :
  exists s1 w1 s2 w2,
    after_sweeps env resource_group image_names portal_urls_arg n
      (session0 image_names) w = (Returned s1, w1)
    /\ after_sweeps env resource_group image_names portal_urls_arg (n + m)
         (session0 image_names) w = (Returned s2, w2)
    /\ completed s1 ⊆ completed s2
    /\ (forall name o, log_offsets s1 !! name = Some o ->
          exists o', log_offsets s2 !! name = Some o' /\ o <= o')
    /\ (forall name, name ∈ completed s1 ->
          log_offsets s2 !! name = log_offsets s1 !! name
          /\ results s2 !! name = results s1 !! name)
    /\ (exists new, calls w2 = calls w1 ++ new
                    /\ forall name, name ∈ completed s1 -> name ∉ map call_group new)
    /\ (forall fuel r,
          while_pending env resource_group image_names portal_urls_arg fuel
            (session0 image_names) w = Some r ->
          after_sweeps env resource_group image_names portal_urls_arg fuel
            (session0 image_names) w = r).
Proof.
  destruct (after_sweeps_moves_on env resource_group image_names portal_urls_arg
              n (session0 image_names) w (session0_ok image_names))
    as (s1 & w1 & H1 & Hok1 & _).
  destruct (after_sweeps_moves_on env resource_group image_names portal_urls_arg
              m s1 w1 Hok1) as (s2 & w2 & H2 & _ & Hc & Ho & Hf & Hnew).
  exists s1, w1, s2, w2. rewrite after_sweeps_add, H1.
  repeat split; try assumption; try (now apply Hf).
  intros fuel r. apply while_pending_after_sweeps.
Qed.


Lemma sweeps_only_move_on_demo :
  exists s1 w1 s2 w2,
    @after_sweeps b_first local_env "rg" two_jobs None 1 (session0 two_jobs) world0
    = (Returned s1, w1)
    /\ @after_sweeps b_first local_env "rg" two_jobs None (1 + 2) (session0 two_jobs) world0
       = (Returned s2, w2)
    /\ completed s1 ⊆ completed s2.
Proof.
  destruct (@sweeps_only_move_on b_first local_env "rg" two_jobs None world0 1 2)
    as (s1 & w1 & s2 & w2 & H1 & H2 & H3 & _).
  exists s1, w1, s2, w2. auto.
Defined.

Example sweeps_b_first :
  let after n :=
    fst (@after_sweeps b_first local_env "rg" ["a"; "b"] None n (session0 ["a"; "b"]) world0) in
  match after 1%nat, after 3%nat with
  | Returned s1, Returned s3 =>
      elements (completed s1) = ["b"] /\ log_offsets s1 !! "b" = Some 15
      /\ log_offsets s1 !! "a" = Some 5
      /\ log_offsets s3 !! "b" = Some 15 /\ log_offsets s3 !! "a" = Some 25
      /\ size (completed s3) = 2%nat
  | _, _ => False
  end.
Proof. vm_compute. repeat split. Qed.

(** ** The fan-out poller: what a single poll can do *)

Section Polls.

Context {svc : ContainerService}.
Variable env : environ.
Variable resource_group : string.
Variable image_names : list string.
Variable portal_urls_arg : option (gmap string string).

Local Abbreviation poll1 := (poll_one env resource_group image_names portal_urls_arg).

(** The four ways a poll can go: the job was completed already; the status
    request raised; the poll went through; the name has no log offset. *)
Lemma poll_one_cases (name : string) (s : session) (w : world) :
  ((name ∈ completed s) /\ poll1 name s w = (Returned s, w))
  \/ ((name ∉ completed s)
      /\ exists e, cg_get (length (calls w)) resource_group name = Raised e
                   /\ poll1 name s w
                      = (Returned s, world_app w (poll_error_trace resource_group name e)))
  \/ ((name ∉ completed s)
      /\ exists cg previous chunks notices,
           cg_get (length (calls w)) resource_group name = Returned cg
           /\ log_offsets s !! name = Some previous
           /\ let cname := log_container_name cg name in
              let logs := fetched_logs (S (length (calls w))) resource_group name cname in
              let r := stored_result portal_urls_arg name cg logs in
              poll1 name s w
              = (Returned {| log_offsets := <[name := next_offset logs previous]> (log_offsets s);
                             completed := if String.eqb (state r) TERMINATED
                                          then {[name]} ∪ completed s else completed s;
                             results := <[name := r]> (results s) |},
                 world_app w
                   (world_app (calls_of [CallGet resource_group name;
                                         CallListLogs resource_group name cname])
                      (world_app (wrote chunks) (logs_of notices)))))
  \/ ((name ∉ completed s) /\ exists e w', poll1 name s w = (Raised e, w')).
Proof.
  destruct (decide (name ∈ completed s)) as [Hin|Hnin].
  { left. split; [exact Hin | now apply poll_one_completed]. }
  right. destruct (cg_get (length (calls w)) resource_group name) as [cg|e] eqn:Hget.
  2:{ left. split; [exact Hnin|]. exists e. split; [reflexivity|].
      now apply poll_one_raised. }
  right. destruct (log_offsets s !! name) as [previous|] eqn:Hoff.
  - left. split; [exact Hnin|].
    destruct (poll_one_returned env resource_group image_names portal_urls_arg
                name cg previous s w Hnin Hget Hoff) as (chunks & notices & Heq).
    exists cg, previous, chunks, notices. split; [reflexivity|]. split; [reflexivity|].
    exact Heq.
  - right. split; [exact Hnin|]. eapply poll_one_key_error; eassumption.
Qed.

(** A poll of [x] leaves every other name alone, and its client calls are
    about [x]. *)
Lemma poll_one_frame (x name : string) (s s' : session) (w w' : world) :
  poll1 x s w = (Returned s', w') -> x <> name ->
  (name ∈ completed s' <-> name ∈ completed s)
  /\ log_offsets s' !! name = log_offsets s !! name
  /\ results s' !! name = results s !! name.
Proof.
  intros Heq Hne.
  destruct (poll_one_cases x s w)
    as [(_ & H)|[(_ & e & _ & H)|[(_ & cg & prev & ch & nt & _ & _ & H)|(_ & e & w0 & H)]]];
    cbv zeta in H; rewrite H in Heq; try discriminate;
    injection Heq as <- <-; try done.
  cbn [completed log_offsets results]. rewrite !lookup_insert_ne by exact Hne.
  repeat split; try done.
  - destruct (String.eqb _ TERMINATED); [|done].
    rewrite elem_of_union, elem_of_singleton. intros [->|H']; [contradiction | exact H'].
  - destruct (String.eqb _ TERMINATED); [|done]. apply elem_of_union_r.
Qed.

Lemma poll_one_calls (x : string) (s s' : session) (w w' : world) :
  poll1 x s w = (Returned s', w') ->
  exists new, calls w' = calls w ++ new
              /\ (x ∉ completed s -> CallGet resource_group x ∈ new).
Proof.
  intros Heq.
  destruct (poll_one_cases x s w)
    as [(Hin & H)|[(_ & e & _ & H)|[(_ & cg & prev & ch & nt & _ & _ & H)|(_ & e & w0 & H)]]];
    cbv zeta in H; rewrite H in Heq; try discriminate; injection Heq as <- <-.
  - exists []. split; [now rewrite app_nil_r | contradiction].
  - exists [CallGet resource_group x]. split; [reflexivity|]. intros _. now left.
  - eexists. split; [cbn; reflexivity|]. intros _. now left.
Qed.

Lemma for_fold_frame (l : list string) (name : string) (s s' : session) (w w' : world) :
  for_fold l poll1 s w = (Returned s', w') -> name ∉ l ->
  (name ∈ completed s' <-> name ∈ completed s)
  /\ log_offsets s' !! name = log_offsets s !! name
  /\ results s' !! name = results s !! name.
Proof.
  revert s w. induction l as [|x l IH]; intros s w Heq Hnot.
  - injection Heq as <- <-. done.
  - cbn [for_fold] in Heq. unfold bind in Heq.
    destruct (poll1 x s w) as [[s1|e] w1] eqn:H1; [|discriminate].
    apply not_elem_of_cons in Hnot as [Hne Hnot].
    destruct (poll_one_frame x name s s1 w w1 H1) as (Hc & Ho & Hr); [congruence|].
    destruct (IH s1 w1 Heq Hnot) as (Hc' & Ho' & Hr').
    split; [now rewrite Hc', Hc | split; congruence].
Qed.

(** In a sweep, every name of the list that was not completed at the start
    is polled. *)
Lemma for_fold_polls (l : list string) (s s' : session) (w w' : world) :
  for_fold l poll1 s w = (Returned s', w') ->
  exists new, calls w' = calls w ++ new
              /\ forall n, n ∈ l -> n ∉ completed s -> CallGet resource_group n ∈ new.
Proof.
  revert s w. induction l as [|x l IH]; intros s w Heq.
  - injection Heq as <- <-. exists []. split; [now rewrite app_nil_r|].
    intros n Hn. now apply elem_of_nil in Hn.
  - cbn [for_fold] in Heq. unfold bind in Heq.
    destruct (poll1 x s w) as [[s1|e] w1] eqn:H1; [|discriminate].
    destruct (poll_one_calls x s s1 w w1 H1) as (new1 & Hc1 & Hx).
    destruct (IH s1 w1 Heq) as (new2 & Hc2 & Hl).
    exists (new1 ++ new2). split; [now rewrite Hc2, Hc1, app_assoc|].
    intros n Hn Hnot. apply elem_of_app. destruct (decide (n = x)) as [->|Hne].
    + left. now apply Hx.
    + right. apply elem_of_cons in Hn as [->|Hn]; [contradiction|].
      apply Hl; [exact Hn|].
      destruct (poll_one_frame x n s s1 w w1 H1) as (Hc & _); [congruence|].
      now rewrite Hc.
Qed.

Lemma for_fold_app (pre post : list string) (s : session) (w : world) :
  for_fold (pre ++ post) poll1 s w =
  match for_fold pre poll1 s w with
  | (Returned s1, w1) => for_fold post poll1 s1 w1
  | (Raised e, w1) => (Raised e, w1)
  end.
Proof.
  revert s w. induction pre as [|x pre IH]; intros s w; cbn [app for_fold].
  - reflexivity.
  - unfold bind. destruct (poll1 x s w) as [[s1|e] w1]; [apply IH | reflexivity].
Qed.

End Polls.

(** C9, as amended: every poll that goes through, whatever state it finds the
    job in, stores a result whose [logs_tail] is the tail of the full log
    fetched by that very poll, in the place of the one stored before; the
    job joins the completed set exactly when the state found is the terminal
    one; and once the job is completed, polling it changes nothing, so that
    the tail that remains is the one taken by the poll that saw it
    terminal. *)
Theorem logs_tail_follows_every_poll {svc : ContainerService} (env : environ)
    (resource_group : string) (image_names : list string)
    (portal_urls_arg : option (gmap string string))
    (name : string) (s : session) (w : world) :
  (name ∈ completed s ->
   poll_one env resource_group image_names portal_urls_arg name s w = (Returned s, w))
  /\ (forall cg previous,
        name ∉ completed s ->
        cg_get (length (calls w)) resource_group name = Returned cg ->
        log_offsets s !! name = Some previous ->
        exists s' w' r,
          poll_one env resource_group image_names portal_urls_arg name s w
          = (Returned s', w')
          /\ results s' !! name = Some r
          /\ logs_tail r
             = _tail_lines
                 (fetched_logs (S (length (calls w))) resource_group name
                    (log_container_name cg name))
                 LOG_TAIL_LINES
          /\ state r = reported_state cg
          /\ (name ∈ completed s' <-> reported_state cg = TERMINATED)).
Proof.
  split; [apply poll_one_completed|].
  intros cg previous Hnot Hget Hoff.
  destruct (poll_one_returned env resource_group image_names portal_urls_arg
              name cg previous s w Hnot Hget Hoff) as (chunks & notices & Heq).
  cbv zeta in Heq. eexists _, _, _. split; [exact Heq|].
  cbn [results completed]. rewrite lookup_insert_eq. split; [reflexivity|].
  assert (Hst : state (stored_result portal_urls_arg name cg
                         (fetched_logs (S (length (calls w))) resource_group name
                            (log_container_name cg name)))
                = reported_state cg) by apply poll_result_state.
  split; [apply poll_result_logs_tail|]. split; [exact Hst|].
  rewrite Hst. destruct (String.eqb_spec (reported_state cg) TERMINATED) as [E|E].
  - split; [done|]. intros _. apply elem_of_union_l. now apply elem_of_singleton.
  - split; [contradiction | done].
Qed.

Lemma logs_tail_follows_every_poll_demo :
  exists s' w' r,
    @poll_one b_first local_env "rg" two_jobs None "a" (session0 two_jobs) world0
    = (Returned s', w')
    /\ results s' !! "a" = Some r
    /\ logs_tail r
       = _tail_lines
           (@fetched_logs b_first (S (length (calls world0))) "rg" "a"
              (log_container_name (group_in "Running" None) "a"))
           LOG_TAIL_LINES
    /\ state r = reported_state (group_in "Running" None).
Proof.
  assert (Hn : "a" ∉ completed (session0 two_jobs)) by apply not_elem_of_empty.
  destruct (@logs_tail_follows_every_poll b_first local_env "rg" two_jobs None "a"
              (session0 two_jobs) world0) as (_ & H).
  destruct (H (group_in "Running" None) 0 Hn eq_refl eq_refl)
    as (s' & w' & r & H1 & H2 & H3 & H4 & _).
  exists s', w', r. auto.
Defined.

(** C9, as stated, fails: the first poll of job ["a"] finds it running and
    yet stores the tail of the log fetched so far. *)
Lemma logs_tail_updated_while_running : ~ logs_tail_captured_once.
Proof.
  intros H.
  destruct (@poll_one b_first local_env "rg" two_jobs None "a" (session0 two_jobs) world0)
    as [[s'|e] w'] eqn:Heq; [|vm_compute in Heq; discriminate Heq].
  specialize (H b_first local_env "rg" two_jobs None "a" (session0 two_jobs) world0 s' w' Heq).
  vm_compute in Heq. injection Heq as <- <-.
  match type of H with
  | ?P -> _ => assert (Hn : P) by compute_done; specialize (H Hn)
  end.
  vm_compute in H. discriminate H.
Qed.

Example running_job_has_logs_tail :
  match @poll_one b_first local_env "rg" two_jobs None "a" (session0 two_jobs) world0 with
  | (Returned s', _) =>
      elements (completed s') = []
      /\ (state <$> results s' !! "a") = Some "Running"
      /\ (logs_tail <$> results s' !! "a") = Some "step"
  | _ => False
  end.
Proof. vm_compute. repeat split. Qed.

(** ** The fan-out poller: leaving the loop *)

Lemma size_list_to_set_le (l : list string) :
  (size (list_to_set (C := gset string) l) <= length l)%nat.
Proof.
  induction l as [|x l IH]; cbn [list_to_set length]; [now rewrite size_empty|].
  destruct (decide (x ∈ (list_to_set l : gset string))) as [Hin|Hnin].
  - replace ({[x]} ∪ list_to_set l) with (list_to_set (C := gset string) l); [lia|].
    apply set_eq. intros y. rewrite elem_of_union, elem_of_singleton.
    split; [auto | intros [->|H]; auto].
  - rewrite size_union by (apply disjoint_singleton_l; exact Hnin).
    rewrite size_singleton. lia.
Qed.

Lemma collect_stored (d : gmap string BuildResult) (l : list string) (w : world) :
  (forall n, n ∈ l -> is_Some (d !! n)) ->
  exists rs, collect d l w = (Returned rs, w) /\ Forall2 (fun n r => d !! n = Some r) l rs.
Proof.
  induction l as [|x l IH]; intros Hl.
  - exists []. split; [reflexivity | constructor].
  - destruct (Hl x) as [r Hr]; [now left|].
    destruct IH as (rs & Hrs & Hall); [intros n Hn; apply Hl; now right|].
    exists (r :: rs). cbn [collect]. unfold bind, subscript. rewrite Hr. cbn [ret].
    rewrite Hrs. split; [reflexivity | now constructor].
Qed.

Lemma stored_in_order (d : gmap string BuildResult) (l : list string)
    (rs : list BuildResult) :
  Forall2 (fun n r => d !! n = Some r) l rs ->
  (forall n r, n ∈ l -> d !! n = Some r -> image_name r = n /\ state r = TERMINATED) ->
  map image_name rs = l /\ Forall (fun r => state r = TERMINATED) rs.
Proof.
  induction 1 as [|n r l rs Hr Hfor IH]; intros Hd; [split; [reflexivity | constructor]|].
  destruct IH as [IH1 IH2]; [intros x y Hx; apply Hd; now right|].
  destruct (Hd n r) as [Hn Hs]; [now left | exact Hr|].
  cbn [map]. rewrite IH1, Hn. split; [reflexivity | now constructor].
Qed.

Section Leaving.

Context {svc : ContainerService}.
Variable env : environ.
Variable resource_group : string.
Variable image_names : list string.
Variable portal_urls_arg : option (gmap string string).

Local Abbreviation poll1 := (poll_one env resource_group image_names portal_urls_arg).
Local Abbreviation body := (loop_body env resource_group image_names portal_urls_arg).
Local Abbreviation loop := (while_pending env resource_group image_names portal_urls_arg).

Lemma pending_left_false (s : session) :
  pending_left image_names s = false <-> (length image_names <= size (completed s))%nat.
Proof. unfold pending_left. rewrite Z.ltb_ge. lia. Qed.

(** When the loop condition fails, every name is in the completed set. *)
Lemma all_completed (s : session) :
  session_ok image_names s -> pending_left image_names s = false ->
  forall n, n ∈ image_names -> n ∈ completed s.
Proof.
  intros (_ & Hdone & _) Hp n Hn. apply pending_left_false in Hp.
  assert (Hsub : completed s ⊆ list_to_set image_names).
  { intros x Hx. apply elem_of_list_to_set. now apply Hdone. }
  assert (Heq : completed s = list_to_set image_names).
  { apply set_subseteq_size_eq; [exact Hsub|].
    pose proof (size_list_to_set_le image_names). lia. }
  rewrite Heq. now apply elem_of_list_to_set.
Qed.

Lemma while_pending_left (fuel : nat) (s : session) (w : world)
    (o : outcome session) (w' : world) :
  session_ok image_names s -> loop fuel s w = Some (o, w') ->
  exists s', o = Returned s' /\ session_ok image_names s'
             /\ pending_left image_names s' = false.
Proof.
  revert s w. induction fuel as [|fuel IH]; intros s w Hok; cbn [while_pending];
    destruct (pending_left image_names s) eqn:Hp; try discriminate;
    try (intros [= <- <-]; now exists s).
  destruct (loop_body_moves_on env resource_group image_names portal_urls_arg s w Hok)
    as (s1 & w1 & H1 & Hok1 & _).
  rewrite H1. now apply IH.
Qed.

(** The results read off a session that has left the loop. *)
Lemma collect_session (s : session) (w : world) :
  session_ok image_names s -> pending_left image_names s = false ->
  exists rs,
    collect (results s) image_names w = (Returned rs, w)
    /\ map image_name rs = image_names
    /\ Forall (fun r => state r = TERMINATED) rs.
Proof.
  intros Hok Hp. pose proof (all_completed s Hok Hp) as Hall.
  destruct Hok as (_ & Hdone & Hres).
  destruct (collect_stored (results s) image_names w) as (rs & Hrs & Hfor).
  { intros n Hn. destruct (Hdone n (Hall n Hn)) as (_ & r & Hr & _). eauto. }
  exists rs. split; [exact Hrs|].
  apply (stored_in_order (results s) image_names rs Hfor).
  intros n r Hn Hr. split; [now apply Hres|].
  destruct (Hdone n (Hall n Hn)) as (_ & r' & Hr' & Hst). congruence.
Qed.

Lemma prologue_emits :
  exists d,
    emits (logger WARNING "Waiting for builds to complete..." ;;;
           if is_github_actions env then print "::group::Build progress" else ret tt)%M tt d
    /\ calls d = [] /\ slept d = [].
Proof.
  eexists. split.
  - eapply emits_bind; [apply emits_logger|].
    instantiate (1 := if is_github_actions env
                      then wrote ["::group::Build progress" +:+ nl] else world0).
    destruct (is_github_actions env); [apply emits_print | apply emits_ret].
  - destruct (is_github_actions env); split; reflexivity.
Qed.

Lemma epilogue_eq (w : world) :
  exists d,
    (if is_github_actions env then print "::endgroup::" else ret tt) w
    = (Returned tt, world_app w d)
    /\ calls d = [] /\ slept d = [].
Proof.
  destruct (is_github_actions env).
  - eexists. split; [apply emits_print | split; reflexivity].
  - exists world0. split; [apply emits_ret | split; reflexivity].
Qed.

(** [wait_for_builds] in terms of its loop. *)
Lemma wait_for_builds_eq (fuel : nat) (w : world) :
  exists d,
    calls d = [] /\ slept d = []
    /\ wait_for_builds env resource_group image_names portal_urls_arg fuel w
       = match loop fuel (session0 image_names) (world_app w d) with
         | None => None
         | Some (Raised e, w2) => Some (Raised e, w2)
         | Some (Returned s, w2) =>
             Some (((if is_github_actions env then print "::endgroup::" else ret tt) ;;;
                    collect (results s) image_names)%M w2)
         end.
Proof.
  destruct prologue_emits as (d & Hd & Hc & Hs).
  exists d. split; [exact Hc|]. split; [exact Hs|].
  unfold wait_for_builds. now rewrite (Hd w).
Qed.

Lemma wait_for_builds_returned (fuel : nat) (w : world)
    (o : outcome (list BuildResult)) (w' : world) :
  wait_for_builds env resource_group image_names portal_urls_arg fuel w = Some (o, w') ->
  exists rs, o = Returned rs /\ map image_name rs = image_names
             /\ Forall (fun r => state r = TERMINATED) rs.
Proof.
  destruct (wait_for_builds_eq fuel w) as (d & _ & _ & ->).
  destruct (loop fuel (session0 image_names) (world_app w d)) as [[o1 w1]|] eqn:Hloop;
    [|discriminate].
  destruct (while_pending_left fuel _ _ o1 w1 (session0_ok image_names) Hloop)
    as (s' & -> & Hok & Hp).
  destruct (epilogue_eq w1) as (d' & Hd' & _).
  destruct (collect_session s' (world_app w1 d') Hok Hp) as (rs & Hrs & Hmap & Hst).
  unfold bind. rewrite Hd', Hrs. intros [= <- <-]. now exists rs.
Qed.

End Leaving.

(** ** The fan-out poller: termination *)

Section Termination.

Context {svc : ContainerService}.
Variable env : environ.
Variable resource_group : string.
Variable image_names : list string.
Variable portal_urls_arg : option (gmap string string).
Variable T : nat.
Hypothesis Hterminal : all_terminal_from resource_group image_names T.

Local Abbreviation poll1 := (poll_one env resource_group image_names portal_urls_arg).
Local Abbreviation body := (loop_body env resource_group image_names portal_urls_arg).
Local Abbreviation loop := (while_pending env resource_group image_names portal_urls_arg).

(** Once the service reports every job as terminal, a poll completes the job. *)
Lemma poll_one_completes (name : string) (s s' : session) (w w' : world) :
  (T <= length (calls w))%nat -> name ∈ image_names ->
  poll1 name s w = (Returned s', w') ->
  name ∈ completed s' /\ (T <= length (calls w'))%nat.
Proof.
  intros Ht Hname Heq.
  destruct (Hterminal (length (calls w)) name Ht Hname) as (cg & Hget & Hst).
  destruct (poll_one_cases env resource_group image_names portal_urls_arg name s w)
    as [(Hin & H)|[(_ & e & He & H)|[(_ & cg' & prev & ch & nt & Hget' & _ & H)|(_ & e & w0 & H)]]];
    cbv zeta in H; rewrite H in Heq; try discriminate; try congruence;
    injection Heq as <- <-.
  - now split.
  - assert (cg' = cg) as -> by congruence.
    cbn [completed calls world_app]. rewrite length_app. split; [|lia].
    rewrite poll_result_state, Hst, String.eqb_refl. apply elem_of_union_l. now apply elem_of_singleton.
Qed.

Lemma for_fold_completes (l : list string) (s s' : session) (w w' : world) :
  session_ok image_names s ->
  (T <= length (calls w))%nat -> (forall n, n ∈ l -> n ∈ image_names) ->
  for_fold l poll1 s w = (Returned s', w') ->
  forall n, n ∈ l -> n ∈ completed s'.
Proof.
  revert s w. induction l as [|x l IH]; intros s w Hok Ht Hl Heq n Hn.
  - now apply elem_of_nil in Hn.
  - cbn [for_fold] in Heq. unfold bind in Heq.
    destruct (poll_one_moves_on env resource_group image_names portal_urls_arg x s w Hok)
      as (s1 & w1 & H1 & Hok1 & _); [apply Hl; now left|].
    rewrite H1 in Heq.
    destruct (poll_one_completes x s s1 w w1 Ht) as [Hx Ht1]; [apply Hl; now left | exact H1|].
    assert (Hl' : forall n, n ∈ l -> n ∈ image_names) by (intros y Hy; apply Hl; now right).
    apply elem_of_cons in Hn as [->|Hn].
    + destruct (for_fold_moves_on env resource_group image_names portal_urls_arg
                  l s1 w1 Hok1 Hl') as (s2 & w2 & H2 & _ & Hsub & _).
      rewrite H2 in Heq. injection Heq as <- <-. now apply Hsub.
    + exact (IH s1 w1 Hok1 Ht1 Hl' Heq n Hn).
Qed.

Hypothesis Hnodup : NoDup image_names.

Lemma pending_left_when_all_completed (s : session) :
  (forall n, n ∈ image_names -> n ∈ completed s) -> pending_left image_names s = false.
Proof.
  intros Hall. apply pending_left_false.
  rewrite <- (size_list_to_set (C := gset string) image_names Hnodup).
  apply subseteq_size. intros x Hx. apply Hall. now apply elem_of_list_to_set in Hx.
Qed.

(** While the loop goes on, a sweep polls at least one job. *)
Lemma loop_body_polls (s s' : session) (w w' : world) :
  pending_left image_names s = true ->
  body s w = (Returned s', w') ->
  (length (calls w) < length (calls w'))%nat.
Proof.
  intros Hp Heq.
  destruct (decide (Forall (fun n => n ∈ completed s) image_names)) as [Hall|Hsome].
  { rewrite pending_left_when_all_completed in Hp; [discriminate|].
    intros n Hn. rewrite Forall_forall in Hall. now apply Hall. }
  apply not_Forall_Exists in Hsome; [|intros x; apply _].
  apply Exists_exists in Hsome as (n & Hn & Hnot). cbn in Hnot.
  unfold loop_body, sweep, bind in Heq.
  destruct (for_fold image_names poll1 s w) as [[s1|e] w1] eqn:Hfold; [|discriminate].
  destruct (pause_emits image_names s1) as (d & Hd & Hcalls).
  rewrite (Hd w1) in Heq. injection Heq as <- <-.
  destruct (for_fold_polls env resource_group image_names portal_urls_arg
              image_names s s1 w w1 Hfold) as (new & Hnew & Hpolled).
  specialize (Hpolled n Hn Hnot).
  cbn [calls world_app]. rewrite Hcalls, Hnew, app_nil_r, length_app.
  destruct new; [now apply elem_of_nil in Hpolled | cbn [length]; lia].
Qed.

Lemma loop_terminates (k : nat) (s : session) (w : world) :
  session_ok image_names s -> (T - length (calls w) <= k)%nat ->
  exists fuel s' w', loop fuel s w = Some (Returned s', w').
Proof.
  revert s w. induction k as [|k IH]; intros s w Hok Hk;
    (destruct (pending_left image_names s) eqn:Hp;
     [|exists 0%nat, s, w; cbn [while_pending]; now rewrite Hp]);
    destruct (loop_body_moves_on env resource_group image_names portal_urls_arg s w Hok)
      as (s1 & w1 & H1 & Hok1 & _).
  - exists 1%nat, s1, w1. cbn [while_pending]. rewrite Hp, H1.
    rewrite pending_left_when_all_completed; [reflexivity|].
    unfold loop_body, sweep, bind in H1.
    destruct (for_fold image_names poll1 s w) as [[s2|e] w2] eqn:Hfold; [|discriminate].
    destruct (pause_emits image_names s2) as (d & Hd & _).
    rewrite (Hd w2) in H1. injection H1 as <- <-.
    apply (for_fold_completes image_names s s2 w w2 Hok); [lia | auto | exact Hfold].
  - pose proof (loop_body_polls s s1 w w1 Hp H1) as Hlt.
    destruct (IH s1 w1 Hok1) as (fuel & s' & w' & Hloop); [lia|].
    exists (S fuel), s', w'. cbn [while_pending]. now rewrite Hp, H1.
Qed.

Lemma wait_for_builds_terminates (w : world) :
  exists fuel rs w',
    wait_for_builds env resource_group image_names portal_urls_arg fuel w
    = Some (Returned rs, w')
    /\ map image_name rs = image_names
    /\ Forall (fun r => state r = TERMINATED) rs.
Proof.
  destruct (prologue_emits env) as (d & Hd & _).
  destruct (loop_terminates (T - length (calls (world_app w d))) (session0 image_names)
              (world_app w d) (session0_ok image_names) (le_n _))
    as (fuel & s' & w1 & Hloop).
  destruct (wait_for_builds env resource_group image_names portal_urls_arg fuel w)
    as [[o w']|] eqn:Hrun.
  - destruct (wait_for_builds_returned env resource_group image_names portal_urls_arg
                fuel w o w' Hrun) as (rs & -> & Hmap & Hst).
    now exists fuel, rs, w'.
  - unfold wait_for_builds in Hrun. rewrite (Hd w), Hloop in Hrun. discriminate.
Qed.

End Termination.

(** C1, as amended: whenever [wait_for_builds] returns, for whatever list,
    it returns (it does not raise) one result per identifier, in the order of
    the list, each the terminal result stored under that identifier; it does
    return, with enough sweeps, for every duplicate-free list whose jobs the
    service reports as terminal from some call on, in whatever order they
    got there; and for the empty list it returns the empty list at once,
    with no client call and no sleep. *)
Theorem wait_for_builds_in_order {svc : ContainerService} (env : environ)
    (resource_group : string) (image_names : list string)
    (portal_urls_arg : option (gmap string string)) (w : world) :
  (forall fuel o w',
      wait_for_builds env resource_group image_names portal_urls_arg fuel w = Some (o, w') ->
      exists rs, o = Returned rs /\ map image_name rs = image_names
                 /\ Forall (fun r => state r = TERMINATED) rs)
  /\ (NoDup image_names ->
      forall T, all_terminal_from resource_group image_names T ->
      exists fuel rs w',
        wait_for_builds env resource_group image_names portal_urls_arg fuel w
        = Some (Returned rs, w')
        /\ map image_name rs = image_names
        /\ Forall (fun r => state r = TERMINATED) rs)
  /\ (image_names = [] ->
      forall fuel, exists w',
        wait_for_builds env resource_group image_names portal_urls_arg fuel w
        = Some (Returned [], w')
        /\ calls w' = calls w /\ slept w' = slept w).
Proof.
  split; [intros fuel o w' H; eapply wait_for_builds_returned; exact H|]. split.
  - intros Hnodup T Hterminal. now apply (wait_for_builds_terminates _ _ _ _ T).
  - intros -> fuel.
    destruct (wait_for_builds_eq env resource_group [] portal_urls_arg fuel w)
      as (d & Hc & Hs & ->).
    assert (Hloop : while_pending env resource_group [] portal_urls_arg fuel
                      (session0 []) (world_app w d)
                    = Some (Returned (session0 []), world_app w d))
      by (destruct fuel; reflexivity).
    rewrite Hloop. destruct (epilogue_eq env (world_app w d)) as (d' & Hd' & Hc' & Hs').
    exists (world_app (world_app w d) d'). unfold bind. rewrite Hd'.
    split; [reflexivity|]. cbn [calls slept world_app].
    now rewrite Hc, Hs, Hc', Hs', !app_nil_r.
Qed.

Lemma b_first_all_terminal : @all_terminal_from b_first "rg" two_jobs 4.
Proof.
  intros t n Ht _. exists (group_in TERMINATED (Some 0)). split; [|reflexivity].
  cbn [cg_get b_first]. apply Nat.ltb_ge in Ht. now rewrite Ht.
Defined.

Lemma wait_for_builds_in_order_demo :
  NoDup two_jobs
  /\ @all_terminal_from b_first "rg" two_jobs 4
  /\ exists fuel rs w',
       @wait_for_builds b_first local_env "rg" two_jobs None fuel world0
       = Some (Returned rs, w')
       /\ map image_name rs = two_jobs
       /\ Forall (fun r => state r = TERMINATED) rs.
Proof.
  assert (Hnodup : NoDup two_jobs) by compute_done.
  split; [exact Hnodup|]. split; [exact b_first_all_terminal|].
  destruct (@wait_for_builds_in_order b_first local_env "rg" two_jobs None world0)
    as (_ & H & _).
  exact (H Hnodup 4%nat b_first_all_terminal).
Defined.

(** The specification's example: of the jobs [a] and [b], [b] is completed
    first (see the notices), and the results still come as [a], [b]. *)
Example b_first_results_in_order :
  match @wait_for_builds b_first local_env "rg" two_jobs None 2 world0 with
  | Some (Returned rs, w') =>
      map image_name rs = ["a"; "b"]
      /\ logged w' = [ (WARNING, "Waiting for builds to complete...");
                       (WARNING, "b: build succeeded");
                       (INFO, "Waiting for 1 build(s): a");
                       (WARNING, "a: build succeeded") ]
      /\ slept w' = [15]
  | _ => False
  end.
Proof. vm_compute. repeat split. Qed.

(** With the identifier [a] given twice, the completed set never gets as
    large as the list, and the loop goes on for ever. *)
Lemma duplicate_never_leaves (fuel : nat) (s : session) (w : world) :
  completed s = {["a"]} ->
  @while_pending all_done local_env "rg" ["a"; "a"] None fuel s w = None.
Proof.
  intros Hc. assert (Hin : "a" ∈ completed s) by (rewrite Hc; now apply elem_of_singleton).
  assert (Hp : pending_left ["a"; "a"] s = true)
    by (unfold pending_left; rewrite Hc, size_singleton; reflexivity).
  revert w. induction fuel as [|fuel IH]; intros w; cbn [while_pending]; rewrite Hp;
    [reflexivity|].
  unfold loop_body, sweep. cbn [for_fold]. unfold bind.
  rewrite !poll_one_completed by exact Hin. cbn [ret].
  destruct (pause_emits ["a"; "a"] s) as (d & Hd & _). rewrite (Hd w). apply IH.
Qed.

Lemma duplicate_never_returns (fuel : nat) :
  @wait_for_builds all_done local_env "rg" ["a"; "a"] None fuel world0 = None.
Proof.
  destruct fuel as [|fuel]; [reflexivity|].
  unfold wait_for_builds.
  match goal with
  | |- match ?p world0 with _ => _ end = _ =>
      destruct (p world0) as [[u|e] w1] eqn:Hpro; vm_compute in Hpro; [|discriminate Hpro]
  end.
  injection Hpro as <-. cbn [while_pending].
  change (pending_left ["a"; "a"] (session0 ["a"; "a"])) with true. cbv iota.
  destruct (@loop_body all_done local_env "rg" ["a"; "a"] None (session0 ["a"; "a"]) _)
    as [[s1|e] w2] eqn:Hbody; vm_compute in Hbody; [|discriminate Hbody].
  injection Hbody as <- <-.
  rewrite duplicate_never_leaves; reflexivity.
Qed.

(** C1, as stated, fails: with an identifier given twice, [wait_for_builds]
    never returns, although the job is reported as terminal from the first
    call on. *)
Lemma duplicate_identifiers_never_return : ~ results_for_every_list.
Proof.
  intros H.
  destruct (H all_done local_env "rg" ["a"; "a"] None world0 0%nat)
    as (fuel & rs & w' & Hrun & _).
  - intros t n _ _. exists (group_in TERMINATED (Some 0)). split; reflexivity.
  - rewrite duplicate_never_returns in Hrun. discriminate Hrun.
Qed.

(** C3: for a duplicate-free list, in any sweep of a session of
    [wait_for_builds] (the sweep that starts from the session [s] reached
    after some passes of the loop): when the status request of a job raises,
    the poll of that job returns with the session as it was (only the call
    and a diagnostic are recorded) and the sweep goes on and returns: nothing
    is raised.  At the end of that sweep the job is not in the completed set,
    its log offset and its stored result are those the sweep started from,
    every pending job before it and after it in the list has been polled,
    the loop condition still holds, and the next sweep polls the job again. *)
Theorem poll_error_skips_job {svc : ContainerService} (env : environ)
    (resource_group : string) (image_names : list string)
    (portal_urls_arg : option (gmap string string)) (passes : nat)
    (pre post : list string) (name e : string) (s s1 : session) (w0 w w1 : world) :
  NoDup image_names ->
  image_names = pre ++ name :: post ->
  after_sweeps env resource_group image_names portal_urls_arg passes
    (session0 image_names) w0
  = (Returned s, w) ->
  for_fold pre (poll_one env resource_group image_names portal_urls_arg) s w
  = (Returned s1, w1) ->
  name ∉ completed s1 ->
  cg_get (length (calls w1)) resource_group name = Raised e ->
  poll_one env resource_group image_names portal_urls_arg name s1 w1
  = (Returned s1, world_app w1 (poll_error_trace resource_group name e))
  /\ exists s' w' before new,
       sweep env resource_group image_names portal_urls_arg s w = (Returned s', w')
       /\ calls w1 = calls w ++ before
       /\ (forall n, n ∈ pre -> n ∉ completed s -> CallGet resource_group n ∈ before)
       /\ calls w' = calls w1 ++ CallGet resource_group name :: new
       /\ (forall n, n ∈ post -> n ∉ completed s1 -> CallGet resource_group n ∈ new)
       /\ (name ∉ completed s')
       /\ log_offsets s' !! name = log_offsets s !! name
       /\ results s' !! name = results s !! name
       /\ pending_left image_names s' = true
       /\ forall w2, exists s2 w3 again,
            sweep env resource_group image_names portal_urls_arg s' w2 = (Returned s2, w3)
            /\ calls w3 = calls w2 ++ again
            /\ CallGet resource_group name ∈ again.
Proof.
  intros Hnodup Hlist Hreach Hpre Hnot Hget.
  assert (Hok : session_ok image_names s).
  { destruct (after_sweeps_moves_on env resource_group image_names portal_urls_arg
                passes (session0 image_names) w0 (session0_ok image_names))
      as (s0 & w0' & Hs0 & Hok0 & _).
    rewrite Hreach in Hs0. now injection Hs0 as <- _. }
  assert (Hpoll : poll_one env resource_group image_names portal_urls_arg name s1 w1
                  = (Returned s1, world_app w1 (poll_error_trace resource_group name e)))
    by now apply poll_one_raised.
  split; [exact Hpoll|].
  assert (Hname : name ∈ image_names)
    by (rewrite Hlist; apply elem_of_app; right; now left).
  assert (Hin_pre : forall n, n ∈ pre -> n ∈ image_names)
    by (intros n Hn; rewrite Hlist; apply elem_of_app; now left).
  assert (Hin_post : forall n, n ∈ post -> n ∈ image_names)
    by (intros n Hn; rewrite Hlist; apply elem_of_app; right; now right).
  assert (Honce : (name ∉ pre) /\ (name ∉ post)).
  { rewrite Hlist in Hnodup. apply NoDup_app in Hnodup as (_ & Hsep & Hrest).
    apply NoDup_cons in Hrest as [Hpost _]. split; [|exact Hpost].
    intros Hin. apply (Hsep name Hin). now left. }
  destruct Honce as [Hfresh_pre Hfresh_post].
  destruct (for_fold_moves_on env resource_group image_names portal_urls_arg pre s w
              Hok Hin_pre) as (s1' & w1' & Heq1 & Hok1 & _).
  rewrite Hpre in Heq1. injection Heq1 as <- <-.
  destruct (for_fold_polls env resource_group image_names portal_urls_arg
              pre s s1 w w1 Hpre) as (before & Hbefore & Hpolled_pre).
  destruct (for_fold_frame env resource_group image_names portal_urls_arg
              pre name s s1 w w1 Hpre Hfresh_pre) as (_ & Ho1 & Hr1).
  destruct (for_fold_moves_on env resource_group image_names portal_urls_arg post s1
              (world_app w1 (poll_error_trace resource_group name e)) Hok1 Hin_post)
    as (s' & w' & Heq & Hok' & _).
  destruct (for_fold_polls env resource_group image_names portal_urls_arg
              post s1 s' _ w' Heq) as (new & Hcalls & Hpolled).
  destruct (for_fold_frame env resource_group image_names portal_urls_arg
              post name s1 s' _ w' Heq Hfresh_post) as (Hc & Ho & Hr).
  assert (Hstill : name ∉ completed s') by now rewrite Hc.
  exists s', w', before, new.
  split.
  { unfold sweep. rewrite Hlist at 1. rewrite for_fold_app, Hpre. cbn [for_fold].
    unfold bind. now rewrite Hpoll. }
  split; [exact Hbefore|]. split; [exact Hpolled_pre|].
  split; [rewrite Hcalls; cbn; now rewrite <- app_assoc|].
  split; [exact Hpolled|]. split; [exact Hstill|].
  split; [congruence|]. split; [congruence|]. split.
  { destruct (pending_left image_names s') eqn:Hp; [reflexivity|].
    exfalso. apply Hstill.
    exact (all_completed image_names s' Hok' Hp name Hname). }
  intros w2.
  destruct (for_fold_moves_on env resource_group image_names portal_urls_arg
              image_names s' w2 Hok' (fun n H => H)) as (s2 & w3 & Hnext & _).
  destruct (for_fold_polls env resource_group image_names portal_urls_arg
              image_names s' s2 w2 w3 Hnext) as (again & Hagain & Hp).
  exists s2, w3, again. split; [exact Hnext|]. split; [exact Hagain|].
  now apply Hp.
Qed.

Lemma poll_error_skips_job_demo :
  NoDup two_jobs
  /\ @cg_get a_fails_once (length (calls world0)) "rg" "a" = Raised "connection reset"
  /\ @poll_one a_fails_once local_env "rg" two_jobs None "a" (session0 two_jobs) world0
     = (Returned (session0 two_jobs),
        world_app world0 (poll_error_trace "rg" "a" "connection reset"))
  /\ exists s' w',
       @sweep a_fails_once local_env "rg" two_jobs None (session0 two_jobs) world0
       = (Returned s', w')
       /\ ("a" ∉ completed s')
       /\ log_offsets s' !! "a" = log_offsets (session0 two_jobs) !! "a"
       /\ results s' !! "a" = results (session0 two_jobs) !! "a"
       /\ pending_left two_jobs s' = true.
Proof.
  assert (Hnodup : NoDup two_jobs) by compute_done.
  assert (Hn : "a" ∉ completed (session0 two_jobs)) by apply not_elem_of_empty.
  destruct (@poll_error_skips_job a_fails_once local_env "rg" two_jobs None 0
              [] ["b"] "a" "connection reset" (session0 two_jobs) (session0 two_jobs)
              world0 world0 world0 Hnodup eq_refl eq_refl eq_refl Hn eq_refl)
    as (H1 & s' & w' & before & new & H2 & _ & _ & _ & _ & H3 & H4 & H5 & H6 & _).
  split; [exact Hnodup|]. split; [reflexivity|]. split; [exact H1|].
  exists s', w'. auto.
Defined.

Example sweep_a_fails_once :
  match @sweep a_fails_once local_env "rg" two_jobs None (session0 two_jobs) world0 with
  | (Returned s', w') =>
      elements (completed s') = ["b"] /\ results s' !! "a" = None
      /\ log_offsets s' !! "a" = Some 0
      /\ calls w' = [CallGet "rg" "a"; CallGet "rg" "b"; CallListLogs "rg" "b" "builder"]
      /\ logged w' = [(INFO, "Error polling a: connection reset");
                      (WARNING, "b: build succeeded")]
  | _ => False
  end.
Proof. vm_compute. repeat split. Qed.

(** C3, as stated, fails: with the identifier given twice and the first
    status request raising, the second entry of the list polls the job again
    in the very same sweep, stores a result and an offset for it and adds it
    to the completed set. *)
Lemma poll_error_job_polled_again_in_same_sweep : ~ poll_error_skips_for_the_sweep.
Proof.
  intros H.
  assert (Hn : "a" ∉ completed (session0 ["a"; "a"])) by apply not_elem_of_empty.
  destruct (H a_fails_once local_env "rg" ["a"; "a"] None 0%nat [] ["a"] "a"
              "connection reset" (session0 ["a"; "a"]) (session0 ["a"; "a"])
              world0 world0 world0 eq_refl eq_refl eq_refl Hn eq_refl)
    as (s' & w' & Hsweep & Hnot & _).
  vm_compute in Hsweep. injection Hsweep as <- _.
  apply Hnot. compute_done.
Qed.

Example sweep_duplicate_after_error :
  match @sweep a_fails_once local_env "rg" ["a"; "a"] None (session0 ["a"; "a"]) world0 with
  | (Returned s', w') =>
      elements (completed s') = ["a"]
      /\ log_offsets s' !! "a" = Some 4
      /\ (exists r, results s' !! "a" = Some r /\ state r = TERMINATED)
      /\ calls w' = [CallGet "rg" "a"; CallGet "rg" "a"; CallListLogs "rg" "a" "builder"]
      /\ logged w' = [(INFO, "Error polling a: connection reset");
                      (WARNING, "a: build succeeded")]
  | _ => False
  end.
Proof. vm_compute. repeat split. eexists. split; reflexivity. Qed.

(** ** The repository's tests, replayed *)

Example test_tail_lines :
  _tail_lines ("line1" +:+ nl +:+ "line2") LOG_TAIL_LINES = "line1" +:+ nl +:+ "line2"
  /\ _tail_lines (numbered_lines 50) LOG_TAIL_LINES = numbered_lines 50
  /\ length (splitlines (_tail_lines (numbered_lines 70) LOG_TAIL_LINES)) = 50%nat
  /\ last (splitlines (_tail_lines (numbered_lines 70) LOG_TAIL_LINES)) = Some "line69"
  /\ _tail_lines EmptyString LOG_TAIL_LINES = EmptyString.
Proof. vm_compute. repeat split. Qed.

Example test_stream_log_delta :
  _stream_log_delta "img" "hello" 5 false world0 = (Returned 5, world0)
  /\ _stream_log_delta "img" "hello world" 6 false world0 = (Returned 11, wrote ["world"])
  /\ _stream_log_delta "img" "first log" 0 false world0 = (Returned 9, wrote ["first log"])
  /\ _stream_log_delta "img" "hello world" 6 true world0
     = (Returned 11,
        wrote ["::group::img (log update)" +:+ nl; "world"; "::endgroup::" +:+ nl]).
Proof. vm_compute. repeat split. Qed.

Example test_emit_github_annotation :
  emit_github_annotation "error" "Build broke" (Some "img1 failed") world0
  = (Returned tt, wrote ["::error title=img1 failed::Build broke" +:+ nl])
  /\ emit_github_annotation "warning" "Something odd" None world0
     = (Returned tt, wrote ["::warning::Something odd" +:+ nl])
  /\ emit_github_annotation "error" ("line1" +:+ nl +:+ "line2") None world0
     = (Returned tt, wrote ["::error::line1%0Aline2" +:+ nl]).
Proof. vm_compute. repeat split. Qed.

Example test_write_github_output :
  write_github_output github_env "build_result" "success" world0
  = (Returned tt, files_of [("/tmp/output.txt", "build_result=success" +:+ nl)])
  /\ write_github_output local_env "key" "val" world0 = (Returned tt, world0).
Proof. vm_compute. repeat split. Qed.

Example test_get_container_state :
  _get_container_state {| containers := Some []; provisioning_state := None |}
  = (None, None, None)
  /\ _get_container_state group_creating = (Some "Creating", None, None)
  /\ _get_container_state (group_in "Running" None) = (Some "Running", None, None)
  /\ _get_container_state (group_in TERMINATED (Some 1)) = (Some TERMINATED, Some 1, None).
Proof. vm_compute. repeat split. Qed.

Example test_report_results :
  fst (report_results local_env [finished "img1" 0 EmptyString; finished "img2" 0 EmptyString]
         world0) = Returned []
  /\ fst (report_results local_env good_and_bad world0)
     = Returned [finished "bad" 1 "packer error"]
  /\ stdout (snd (report_results local_env good_and_bad world0)) = []
  /\ appended (snd (report_results local_env good_and_bad world0)) = [].
Proof. vm_compute. repeat split. Qed.

Example test_wait_for_builds_immediate :
  match @wait_for_builds all_done local_env "my-rg" ["img1"] None 1 world0 with
  | Some (Returned [r], w') =>
      succeeded r = true /\ image_name r = "img1"
      /\ calls w' = [CallGet "my-rg" "img1"; CallListLogs "my-rg" "img1" "builder"]
      /\ stdout w' = ["done"] /\ slept w' = []
  | _ => False
  end.
Proof. vm_compute. repeat split. Qed.

(** * Further properties of the module *)

(** ** [poll_build] *)

(** X1: [poll_build] touches nothing but the two clients: it writes nothing,
    logs nothing, appends to no file and does not sleep.  It raises exactly
    when the status request raises, after that one call; otherwise it issues
    the status request and one log request for the same group, and a log
    request that raises or has no content gives the empty log and an empty
    tail instead of an error. *)
Theorem poll_build_footprint {svc : ContainerService} (resource_group image : string)
    (w : world) :
  exists o w',
    poll_build resource_group image w = (o, w')
    /\ stdout w' = stdout w /\ logged w' = logged w
    /\ appended w' = appended w /\ slept w' = slept w
    /\ (forall e, o = Raised e <->
                  cg_get (length (calls w)) resource_group image = Raised e)
    /\ (forall e, o = Raised e -> calls w' = calls w ++ [CallGet resource_group image])
    /\ (forall r logs, o = Returned (r, logs) ->
          exists cname,
            calls w' = calls w ++ [CallGet resource_group image;
                                   CallListLogs resource_group image cname]
            /\ (list_logs (S (length (calls w))) resource_group image cname
                  = Returned (Some logs)
                \/ (logs = EmptyString /\ logs_tail r = EmptyString))).
Proof.
  rewrite poll_build_eq.
  destruct (cg_get (length (calls w)) resource_group image) as [cg|e] eqn:Hget.
  - eexists _, _. split; [reflexivity|]. cbn [stdout logged appended slept calls world_app calls_of].
    rewrite !app_nil_r. repeat split; try discriminate.
    intros r logs [= <- <-]. exists (log_container_name cg image). split; [reflexivity|].
    unfold fetched_logs.
    destruct (list_logs _ _ _ _) as [[[|c txt]|]|e]; [right| left |right|right];
      try reflexivity; split; try reflexivity; apply poll_result_logs_tail.
  - eexists _, _. split; [reflexivity|]. cbn [stdout logged appended slept calls world_app calls_of].
    rewrite !app_nil_r. repeat split; try discriminate; try congruence.
Qed.



(** X3: when the first container has no current state to show (there is no
    container, or it has no instance view, or the view has no current state),
    the result has no exit code, no time stamps and no detail, is neither
    succeeded nor failed, and its state is the group's provisioning state, or
    [Unknown] when that is absent or empty; with a current state, the exit
    code is the one it reports and the time stamps are its non-empty ones. *)
Theorem poll_build_absent_fields {svc : ContainerService}
    (resource_group image : string) (w w' : world) (r : BuildResult) (logs : string) :
  poll_build resource_group image w = (Returned (r, logs), w') ->
  exists cg,
    cg_get (length (calls w)) resource_group image = Returned cg
    /\ match first_current_state cg with
       | None =>
           exit_code r = None /\ start_time r = None /\ finish_time r = None
           /\ detail_status r = EmptyString
           /\ succeeded r = false /\ failed r = false
           /\ state r = or_str (provisioning_state cg) "Unknown"
       | Some cs =>
           exit_code r = cs_exit_code cs
           /\ detail_status r = or_str (cs_detail_status cs) EmptyString
           /\ start_time r = (if truthy (cs_start_time cs) then cs_start_time cs else None)
           /\ finish_time r = (if truthy (cs_finish_time cs) then cs_finish_time cs else None)
       end.
Proof.
  rewrite poll_build_eq.
  destruct (cg_get (length (calls w)) resource_group image) as [cg|e]; [|discriminate].
  cbv zeta. intros [= <- <- _]. exists cg. split; [reflexivity|].
  unfold poll_result, first_current_state, _get_container_state, succeeded, failed.
  destruct (containers_or_empty cg) as [|c rest]; cbn.
  { repeat split; now destruct (provisioning_state cg) as [[|? ?]|]. }
  destruct (instance_view c) as [[[cs|]]|]; cbn;
    repeat split; now destruct (provisioning_state cg) as [[|? ?]|].
Qed.

Lemma poll_build_absent_fields_demo :
  exists r logs w',
    @poll_build nothing_started "rg" "a" world0 = (Returned (r, logs), w')
    /\ exit_code r = None /\ succeeded r = false /\ failed r = false
    /\ state r = "Pending".
Proof.
  destruct (@poll_build nothing_started "rg" "a" world0) as [[[r logs]|e] w'] eqn:Heq;
    [|vm_compute in Heq; discriminate Heq].
  destruct (@poll_build_absent_fields nothing_started "rg" "a" world0 w' r logs Heq)
    as (cg & Hget & H).
  injection Hget as <-. cbn in H. destruct H as (H1 & _ & _ & _ & H5 & H6 & H7).
  exists r, logs, w'. auto.
Defined.

(** ** The log delta streamer and the tail helper, composed *)

Lemma str_app_assoc (a b c : string) : (a +:+ b) +:+ c = a +:+ b +:+ c.
Proof.
  induction a as [|x a IH]; [reflexivity|].
  rewrite !str_app_cons. now rewrite IH.
Qed.

Lemma str_app_nil_r (a : string) : a +:+ EmptyString = a.
Proof. induction a as [|x a IH]; [reflexivity|]. rewrite str_app_cons. now rewrite IH. Qed.

Lemma str_length_app (a b : string) :
  String.length (a +:+ b) = (String.length a + String.length b)%nat.
Proof.
  induction a as [|x a IH]; [reflexivity|].
  rewrite str_app_cons. cbn [String.length]. now rewrite IH.
Qed.

Lemma str_drop_app (n : nat) (a b : string) :
  (n <= String.length a)%nat -> str_drop n (a +:+ b) = str_drop n a +:+ b.
Proof.
  revert a. induction n as [|n IH]; intros a Hn; [reflexivity|].
  destruct a as [|x a]; [cbn in Hn; lia|].
  rewrite str_app_cons. cbn [str_drop]. apply IH. cbn in Hn. lia.
Qed.

Lemma text_of_app (l1 l2 : list string) : text_of (l1 ++ l2) = text_of l1 +:+ text_of l2.
Proof.
  induction l1 as [|x l1 IH]; [reflexivity|].
  cbn [app text_of foldr]. fold (text_of (l1 ++ l2)). fold (text_of l1).
  now rewrite IH, str_app_assoc.
Qed.

(** X4: streaming the same log again with the offset that came back writes
    nothing more and gives the same offset back; the offset that comes back
    is the larger of the old offset and the length of the log. *)
Theorem stream_log_delta_settles (image full_content : string)
    (previous_length : Z) (groups : bool) (w : world) :
  exists offset w',
    _stream_log_delta image full_content previous_length groups w = (Returned offset, w')
    /\ offset = Z.max previous_length (len full_content)
    /\ _stream_log_delta image full_content offset groups w' = (Returned offset, w').
Proof.
  destruct (stream_log_delta_eq image full_content previous_length groups w)
    as (chunks & Heq).
  eexists _, _. split; [exact Heq|].
  assert (Hmax : next_offset full_content previous_length
                 = Z.max previous_length (len full_content)).
  { unfold next_offset. destruct (Z.leb_spec (len full_content) previous_length); lia. }
  split; [exact Hmax|].
  unfold _stream_log_delta at 1.
  replace (len full_content <=? next_offset full_content previous_length) with true;
    [reflexivity|].
  symmetry. apply Z.leb_le. lia.
Qed.

(** X5: when a log grows by appending, streaming the old log and then the
    grown log from the offset that came back writes, in all, exactly the
    text the grown log holds beyond the first offset: nothing twice, nothing
    left out (without group markers). *)
Theorem stream_log_delta_appends (image old_log more : string)
    (previous_length : Z) (w : world) :
  0 <= previous_length <= len old_log ->
  exists offset w1 w2,
    _stream_log_delta image old_log previous_length false w = (Returned offset, w1)
    /\ _stream_log_delta image (old_log +:+ more) offset false w1
       = (Returned (len (old_log +:+ more)), w2)
    /\ text_of (stdout w2)
       = text_of (stdout w) +:+ str_from (old_log +:+ more) previous_length.
Proof.
  intros [H0 Hle].
  assert (Hlen : len (old_log +:+ more) = len old_log + len more)
    by (unfold len; rewrite str_length_app; lia).
  assert (Hmore : 0 <= len more) by (unfold len; lia).
  assert (Hsplit : str_from (old_log +:+ more) previous_length
                   = str_from old_log previous_length +:+ more).
  { rewrite !str_from_nonneg by lia. apply str_drop_app. unfold len in Hle. lia. }
  assert (Hrest : str_from (old_log +:+ more) (len old_log) = more).
  { rewrite str_from_nonneg by (unfold len; lia). unfold len. rewrite Nat2Z.id.
    rewrite str_drop_app by lia. now rewrite str_drop_all by lia. }
  assert (Hempty : len (old_log +:+ more) <= len old_log -> more = EmptyString).
  { intros Hge'. destruct more; [reflexivity|]. unfold len in *.
    cbn [String.length] in *. lia. }
  unfold _stream_log_delta.
  destruct (Z.leb_spec (len old_log) previous_length) as [Hge|Hlt];
    destruct (Z.leb_spec (len (old_log +:+ more)) (len old_log)) as [Hge'|Hlt'].
  - assert (previous_length = len old_log) as -> by lia.
    rewrite (Hempty Hge') in *. rewrite str_app_nil_r in *.
    exists (len old_log), w, w. split; [reflexivity|].
    rewrite Z.leb_refl. split; [reflexivity|].
    rewrite Hrest. now rewrite str_app_nil_r.
  - assert (previous_length = len old_log) as -> by lia.
    eexists (len old_log), w, _. split; [reflexivity|].
    replace (len (old_log +:+ more) <=? len old_log) with false
      by (symmetry; apply Z.leb_gt; lia).
    unfold bind. cbn [ret stdout_write]. split; [reflexivity|].
    cbn [stdout]. rewrite text_of_app. cbn [text_of foldr]. now rewrite str_app_nil_r.
  - rewrite (Hempty Hge') in *. rewrite str_app_nil_r in *.
    eexists (len old_log), _, _. unfold bind. cbn [ret stdout_write].
    split; [reflexivity|]. rewrite Z.leb_refl. split; [reflexivity|].
    cbn [stdout]. rewrite text_of_app. cbn [text_of foldr]. now rewrite str_app_nil_r.
  - eexists (len old_log), _, _. unfold bind. cbn [ret stdout_write].
    split; [reflexivity|].
    replace (len (old_log +:+ more) <=? len old_log) with false
      by (symmetry; apply Z.leb_gt; lia).
    split; [reflexivity|]. cbn [stdout]. rewrite !text_of_app. cbn [text_of foldr].
    rewrite !str_app_nil_r, Hrest, Hsplit. now rewrite str_app_assoc.
Qed.

Lemma stream_log_delta_appends_demo :
  0 <= 3 <= len "Building..."
  /\ exists offset w1 w2,
       _stream_log_delta "img" "Building..." 3 false world0 = (Returned offset, w1)
       /\ _stream_log_delta "img" ("Building..." +:+ (nl +:+ "Done!")) offset false w1
          = (Returned (len ("Building..." +:+ (nl +:+ "Done!"))), w2)
       /\ text_of (stdout w2)
          = text_of (stdout world0) +:+ str_from ("Building..." +:+ (nl +:+ "Done!")) 3.
Proof.
  assert (H : 0 <= 3 <= len "Building...") by (vm_compute; split; discriminate).
  split; [exact H|].
  exact (stream_log_delta_appends "img" "Building..." (nl +:+ "Done!") 3 world0 H).
Defined.

Lemma splitlines_nil (s : string) : splitlines s = [] -> s = EmptyString.
Proof.
  destruct s as [|c r]; [reflexivity|]. cbn [splitlines].
  destruct (islinebreak c); [discriminate|]. now destruct (splitlines r).
Qed.

Lemma join_cons_cons (sep x y : string) (l : list string) :
  join sep (x :: y :: l) = x +:+ sep +:+ join sep (y :: l).
Proof. reflexivity. Qed.

Lemma join_splitlines (s : string) :
  only_newlines s = true -> ends_with_text s = true -> join nl (splitlines s) = s.
Proof.
  induction s as [|c r IH]; [discriminate|].
  intros Hnl Hend. cbn [only_newlines] in Hnl. apply andb_true_iff in Hnl as [Hc Hr].
  destruct r as [|c' r'].
  { cbn in Hend. apply negb_true_iff in Hend. cbn. now rewrite Hend. }
  rewrite ends_with_text_cons in Hend. specialize (IH Hr Hend).
  destruct (splitlines (String c' r')) as [|l ls] eqn:Hlines;
    [apply splitlines_nil in Hlines; discriminate|].
  destruct (islinebreak c) eqn:Hbreak.
  - cbn in Hc. apply Ascii.eqb_eq in Hc. subst c.
    change (splitlines (String LF (String c' r')))
      with (EmptyString :: splitlines (String c' r')).
    rewrite Hlines, join_cons_cons, IH. reflexivity.
  - rewrite splitlines_cons_text by exact Hbreak. rewrite Hlines.
    destruct ls as [|x ls].
    + cbn in IH. cbn. now rewrite IH.
    + rewrite join_cons_cons in *. rewrite str_app_cons. now rewrite IH.
Qed.

Lemma only_newlines_app (a b : string) :
  only_newlines (a +:+ b) = only_newlines a && only_newlines b.
Proof.
  induction a as [|c a IH]; [reflexivity|].
  rewrite str_app_cons. cbn [only_newlines]. rewrite IH. now rewrite andb_assoc.
Qed.

Lemma no_linebreak_only_newlines (l : string) :
  no_linebreak l = true -> only_newlines l = true.
Proof.
  induction l as [|c l IH]; [reflexivity|]. cbn. intros H.
  apply andb_true_iff in H as [Hc Hl]. now rewrite Hc, IH.
Qed.

Lemma only_newlines_join (ls : list string) :
  Forall (fun l => no_linebreak l = true) ls -> only_newlines (join nl ls) = true.
Proof.
  induction 1 as [|l ls Hl Hls IH]; [reflexivity|].
  destruct ls as [|x ls]; [now apply no_linebreak_only_newlines|].
  rewrite join_cons_cons, !only_newlines_app, IH.
  now rewrite (no_linebreak_only_newlines l Hl).
Qed.

Lemma only_newlines_lstrip (s : string) :
  only_newlines s = true -> only_newlines (lstrip s) = true.
Proof.
  induction s as [|c r IH]; [reflexivity|]. intros H. cbn [lstrip].
  destruct (isspace c); [|exact H]. apply IH.
  cbn in H. now apply andb_true_iff in H as [_ H].
Qed.

Lemma only_newlines_rstrip (s : string) :
  only_newlines s = true -> only_newlines (rstrip s) = true.
Proof.
  induction s as [|c r IH]; [reflexivity|]. intros H.
  cbn in H. apply andb_true_iff in H as [Hc Hr]. specialize (IH Hr).
  cbn [rstrip]. destruct (rstrip r) as [|c' r'].
  - destruct (isspace c); [reflexivity|]. cbn. now rewrite Hc.
  - cbn [only_newlines] in *. now rewrite Hc, IH.
Qed.

Lemma last_n_all {A} (n : nat) (l : list A) : (length l <= n)%nat -> last_n n l = l.
Proof. intros H. unfold last_n. now replace (length l - n)%nat with 0%nat by lia. Qed.

(** X6: of a text whose only line boundaries are newlines and which, once
    stripped, has no more than [k] lines, the tail is the stripped text
    itself: splitting into lines and joining them again loses nothing. *)
Theorem tail_lines_of_short_text (text : string) (k : Z) :
  0 < k ->
  only_newlines text = true ->
  Z.of_nat (length (splitlines (strip text))) <= k ->
  _tail_lines text k = strip text.
Proof.
  intros Hk Hnl Hshort. unfold _tail_lines.
  rewrite list_from_neg by exact Hk. rewrite last_n_all by lia.
  destruct (rstrip_ends_with_text (lstrip text)) as [Hempty|Hend].
  - unfold strip. now rewrite Hempty.
  - apply join_splitlines; [|exact Hend].
    now apply only_newlines_rstrip, only_newlines_lstrip.
Qed.

Lemma tail_lines_of_short_text_demo :
  0 < LOG_TAIL_LINES
  /\ only_newlines sample_log = true
  /\ _tail_lines sample_log LOG_TAIL_LINES = strip sample_log.
Proof.
  split; [reflexivity|]. split; [reflexivity|].
  apply (tail_lines_of_short_text sample_log LOG_TAIL_LINES); [reflexivity | reflexivity|].
  vm_compute. discriminate.
Defined.

Lemma splitlines_boundary_then (b rest : string) :
  is_boundary b = true ->
  String.eqb b (String CR EmptyString) && begins_with_LF rest = false ->
  splitlines (b +:+ rest) = EmptyString :: splitlines rest.
Proof.
  destruct b as [|c [|c' [|c2 b]]]; try discriminate; cbn [is_boundary]; intros Hb Hcr.
  - change (String c EmptyString +:+ rest) with (String c rest).
    cbn [splitlines]. rewrite Hb. f_equal.
    destruct (Ascii.eqb c CR) eqn:Hc; [|reflexivity].
    apply Ascii.eqb_eq in Hc. subst c.
    destruct rest as [|c' rest']; [reflexivity|].
    cbn [begins_with_LF] in Hcr. rewrite String.eqb_refl in Hcr. cbn [andb] in Hcr.
    now rewrite Hcr.
  - apply andb_true_iff in Hb as [Hc Hc'].
    apply Ascii.eqb_eq in Hc, Hc'. subst c c'. reflexivity.
Qed.

Lemma splitlines_segment (l b rest : string) :
  no_linebreak l = true ->
  is_boundary b = true ->
  String.eqb b (String CR EmptyString) && begins_with_LF rest = false ->
  splitlines (l +:+ b +:+ rest) = l :: splitlines rest.
Proof.
  intros Hl Hb Hcr. induction l as [|c l IH].
  - change (EmptyString +:+ b +:+ rest) with (b +:+ rest).
    now apply splitlines_boundary_then.
  - cbn in Hl. apply andb_true_iff in Hl as [Hc Hl]. apply negb_true_iff in Hc.
    change (String c l +:+ b +:+ rest) with (String c (l +:+ b +:+ rest)).
    rewrite splitlines_cons_text by exact Hc. now rewrite IH.
Qed.

(** A text made of separate lines reads back as these lines. *)
Lemma splitlines_lines_with (segs : list (string * string)) (last_line : string) :
  separate_lines segs last_line = true ->
  splitlines (lines_with segs last_line) = map fst segs ++ [last_line].
Proof.
  induction segs as [|[l b] segs IH]; cbn [separate_lines lines_with map fst app].
  - intros H. apply andb_true_iff in H as [Hl Hne].
    apply splitlines_one_line; [exact Hl|]. intros ->. discriminate Hne.
  - intros H. apply andb_true_iff in H as [H Hrest].
    apply andb_true_iff in H as [H Hcr]. apply andb_true_iff in H as [Hl Hb].
    apply negb_true_iff in Hcr.
    rewrite splitlines_segment by assumption. now rewrite IH.
Qed.

(** X7: the only line boundaries in the tail are newlines, whatever the
    text and the line count; and the lines are kept: when the stripped text
    is made of lines separated by any of the boundaries [splitlines] knows
    (CR LF, a lone CR, LF, VT, FF, FS, GS, RS, NEL), the tail for a line
    count of at least one is the last lines of these, as they are, joined by
    single newlines. *)
Theorem tail_lines_normalizes_boundaries (text : string) (k : Z) :
  only_newlines (_tail_lines text k) = true
  /\ forall (segs : list (string * string)) (last_line : string),
       1 <= k ->
       strip text = lines_with segs last_line ->
       separate_lines segs last_line = true ->
       _tail_lines text k = join nl (last_n (Z.to_nat k) (map fst segs ++ [last_line])).
Proof.
  split.
  - unfold _tail_lines, list_from. apply only_newlines_join, Forall_drop.
    apply splitlines_no_linebreak.
  - intros segs last_line Hk Htext Hsep. unfold _tail_lines.
    rewrite list_from_neg by lia.
    now rewrite Htext, splitlines_lines_with.
Qed.

Lemma tail_lines_normalizes_boundaries_demo :
  strip windows_log
  = lines_with [("one", String CR nl); ("two", String CR EmptyString)] "three"
  /\ _tail_lines windows_log 2 = "two" +:+ nl +:+ "three"
  /\ _tail_lines windows_log LOG_TAIL_LINES = "one" +:+ nl +:+ "two" +:+ nl +:+ "three".
Proof.
  split; [reflexivity|].
  destruct (tail_lines_normalizes_boundaries windows_log 2) as [_ H2].
  destruct (tail_lines_normalizes_boundaries windows_log LOG_TAIL_LINES) as [_ H50].
  split.
  - exact (H2 [("one", String CR nl); ("two", String CR EmptyString)] "three"
              ltac:(lia) eq_refl eq_refl).
  - exact (H50 [("one", String CR nl); ("two", String CR EmptyString)] "three"
               ltac:(unfold LOG_TAIL_LINES; lia) eq_refl eq_refl).
Defined.

Example tail_lines_crlf :
  _tail_lines ("a" +:+ String CR nl +:+ "b" +:+ String CR EmptyString +:+ "c") LOG_TAIL_LINES
  = "a" +:+ nl +:+ "b" +:+ nl +:+ "c".
Proof. reflexivity. Qed.

(** A lone CR directly followed by LF is one boundary, not two: no blank
    line comes between. *)
Example tail_lines_cr_then_lf :
  separate_lines [("a", String CR EmptyString); (EmptyString, nl)] "b" = false
  /\ _tail_lines ("a" +:+ String CR EmptyString +:+ nl +:+ "b") LOG_TAIL_LINES
     = "a" +:+ nl +:+ "b".
Proof. split; reflexivity. Qed.

(** ** The reporter: summary, outcome and annotations *)

Lemma existsb_failed (results : list BuildResult) :
  existsb failed results = true
  <-> exists r c, In r results /\ exit_code r = Some c /\ c <> 0.
Proof.
  rewrite existsb_exists. split.
  - intros (r & Hin & Hf). unfold failed in Hf.
    destruct (exit_code r) as [c|] eqn:Hc; [|discriminate].
    exists r, c. apply negb_true_iff, Z.eqb_neq in Hf. auto.
  - intros (r & c & Hin & Hc & Hne). exists r. split; [exact Hin|].
    unfold failed. rewrite Hc. now apply negb_true_iff, Z.eqb_neq.
Qed.

Lemma existsb_succeeded (results : list BuildResult) :
  existsb succeeded results = true <-> exists r, In r results /\ exit_code r = Some 0.
Proof.
  rewrite existsb_exists. split.
  - intros (r & Hin & Hs). unfold succeeded in Hs.
    destruct (exit_code r) as [c|] eqn:Hc; [|discriminate].
    apply Z.eqb_eq in Hs. subst c. eauto.
  - intros (r & Hin & Hc). exists r. split; [exact Hin|]. unfold succeeded. now rewrite Hc.
Qed.

(** X8: the overall outcome the reporter computes is [failure] exactly when
    some result has a non-zero exit code; [success] exactly when none has
    one and some result has exit code 0 (results without an exit code do not
    stand in the way); and [unknown] exactly when no result has an exit code
    at all, the empty list included. *)
Theorem build_result_classifies (results : list BuildResult) :
  let outcome := build_result (List.filter failed results) (List.filter succeeded results) in
  (outcome = "failure" <-> exists r c, In r results /\ exit_code r = Some c /\ c <> 0)
  /\ (outcome = "success" <->
      (forall r c, In r results -> exit_code r = Some c -> c = 0)
      /\ exists r, In r results /\ exit_code r = Some 0)
  /\ (outcome = "unknown" <-> forall r, In r results -> exit_code r = None).
Proof.
  cbv zeta.
  assert (Hout : build_result (List.filter failed results) (List.filter succeeded results)
                 = if existsb failed results then "failure"
                   else if existsb succeeded results then "success" else "unknown").
  { rewrite !existsb_filter. unfold build_result.
    destruct (List.filter failed results); destruct (List.filter succeeded results);
      reflexivity. }
  rewrite Hout. clear Hout.
  pose proof (existsb_failed results) as Hf.
  pose proof (existsb_succeeded results) as Hs.
  assert (Hzero : existsb failed results = false ->
                  forall r c, In r results -> exit_code r = Some c -> c = 0).
  { intros Hno r c Hin Hc. destruct (Z.eq_dec c 0) as [|Hne]; [assumption|].
    assert (existsb failed results = true) by (apply Hf; eauto). congruence. }
  assert (Hnone : existsb failed results = false -> existsb succeeded results = false ->
                  forall r, In r results -> exit_code r = None).
  { intros Hnf Hns r Hin. destruct (exit_code r) as [c|] eqn:Hc; [|reflexivity].
    assert (c = 0) by (eapply Hzero; eauto). subst c.
    assert (existsb succeeded results = true) by (apply Hs; eauto). congruence. }
  assert (Hfail : (forall r c, In r results -> exit_code r = Some c -> c = 0) ->
                  existsb failed results = false).
  { intros Hall. destruct (existsb failed results) eqn:E; [|reflexivity].
    destruct (proj1 Hf eq_refl) as (r & c & Hin & Hc & Hne).
    now specialize (Hall r c Hin Hc). }
  assert (Hunk : (forall r, In r results -> exit_code r = None) ->
                 existsb failed results = false /\ existsb succeeded results = false).
  { intros Hall. split.
    - apply Hfail. intros r c Hin Hc. rewrite (Hall r Hin) in Hc. discriminate.
    - destruct (existsb succeeded results) eqn:E; [|reflexivity].
      destruct (proj1 Hs eq_refl) as (r & Hin & Hc). rewrite (Hall r Hin) in Hc.
      discriminate. }
  split; [|split].
  - rewrite <- Hf. destruct (existsb failed results); [tauto|].
    destruct (existsb succeeded results); split; discriminate.
  - split.
    + intros Hv. destruct (existsb failed results) eqn:Ef; [discriminate|].
      destruct (existsb succeeded results) eqn:Es; [|discriminate].
      split; [now apply Hzero | exact (proj1 Hs eq_refl)].
    + intros [Hall Hex]. rewrite (Hfail Hall). apply Hs in Hex. now rewrite Hex.
  - split.
    + intros Hv. destruct (existsb failed results) eqn:Ef; [discriminate|].
      destruct (existsb succeeded results) eqn:Es; [discriminate|]. now apply Hnone.
    + intros Hall. destruct (Hunk Hall) as [-> ->]. reflexivity.
Qed.

Lemma emits_write_outputs_quiet (env : environ) (results : list BuildResult) :
  exists d,
    emits (write_outputs env (List.filter failed results) (List.filter succeeded results)) tt d
    /\ logged d = [] /\ slept d = [] /\ calls d = []
    /\ (truthy (GITHUB_OUTPUT env) = false -> appended d = []).
Proof.
  assert (Hone : forall key value, exists d,
             emits (write_github_output env key value) tt d
             /\ logged d = [] /\ slept d = [] /\ calls d = []
             /\ (truthy (GITHUB_OUTPUT env) = false -> appended d = [])).
  { intros key value. eexists. split; [apply emits_write_github_output|].
    repeat split. intros ->. reflexivity. }
  assert (Hnone : exists d, emits (ret tt) tt d /\ logged d = [] /\ slept d = []
                            /\ calls d = []
                            /\ (truthy (GITHUB_OUTPUT env) = false -> appended d = [])).
  { exists world0. split; [apply emits_ret | repeat split]. }
  unfold write_outputs.
  destruct (Hone "build_result"
              (build_result (List.filter failed results) (List.filter succeeded results)))
    as (d1 & H1 & L1 & S1 & C1 & A1).
  assert (H2 : exists d,
             emits (match List.filter failed results with
                    | [] => ret tt
                    | _ :: _ => write_github_output env "failed_images"
                                  (join "," (map image_name (List.filter failed results)))
                    end) tt d
             /\ logged d = [] /\ slept d = [] /\ calls d = []
             /\ (truthy (GITHUB_OUTPUT env) = false -> appended d = []))
    by (destruct (List.filter failed results); [exact Hnone | apply Hone]).
  assert (H3 : exists d,
             emits (match List.filter succeeded results with
                    | [] => ret tt
                    | _ :: _ => write_github_output env "succeeded_images"
                                  (join "," (map image_name (List.filter succeeded results)))
                    end) tt d
             /\ logged d = [] /\ slept d = [] /\ calls d = []
             /\ (truthy (GITHUB_OUTPUT env) = false -> appended d = []))
    by (destruct (List.filter succeeded results); [exact Hnone | apply Hone]).
  destruct H2 as (d2 & H2 & L2 & S2 & C2 & A2).
  destruct H3 as (d3 & H3 & L3 & S3 & C3 & A3).
  exists (world_app d1 (world_app d2 d3)). split.
  - eapply emits_bind; [exact H1|]. eapply emits_bind; [exact H2 | exact H3].
  - cbn [logged slept calls appended world_app].
    rewrite L1, L2, L3, S1, S2, S3, C1, C2, C3. repeat split.
    intros Hno. now rewrite A1, A2, A3.
Qed.

Lemma logged_foldr_world {A} (d : A -> world) (l : list A) :
  logged (foldr (fun x acc => world_app (d x) acc) world0 l)
  = concat (map (fun x => logged (d x)) l).
Proof. induction l as [|x l IH]; cbn; [reflexivity | now rewrite IH]. Qed.

Lemma slept_foldr_world {A} (d : A -> world) (l : list A) :
  slept (foldr (fun x acc => world_app (d x) acc) world0 l)
  = concat (map (fun x => slept (d x)) l).
Proof. induction l as [|x l IH]; cbn; [reflexivity | now rewrite IH]. Qed.

Lemma calls_foldr_world {A} (d : A -> world) (l : list A) :
  calls (foldr (fun x acc => world_app (d x) acc) world0 l)
  = concat (map (fun x => calls (d x)) l).
Proof. induction l as [|x l IH]; cbn; [reflexivity | now rewrite IH]. Qed.

(** X9: in CI mode and outside of it alike, the reporter logs the same
    console summary: an empty line, the banner between two rules of sixty
    [=], one line per result in list order, and a closing rule.  It never
    calls the Azure clients and never sleeps, and when neither output file is
    configured it appends to no file, CI mode or not. *)
Theorem report_results_console (env : environ) (results : list BuildResult) (w : world) :
  exists w',
    report_results env results w = (Returned (List.filter failed results), w')
    /\ logged w'
       = logged w
         ++ [ (WARNING, EmptyString); (WARNING, Py.repeat "=" 60);
              (WARNING, "BUILD RESULTS"); (WARNING, Py.repeat "=" 60) ]
         ++ map (fun r => (WARNING, console_line r)) results
         ++ [ (WARNING, Py.repeat "=" 60) ]
    /\ calls w' = calls w /\ slept w' = slept w
    /\ (truthy (GITHUB_OUTPUT env) = false -> truthy (GITHUB_STEP_SUMMARY env) = false ->
        appended w' = appended w).
Proof.
  destruct (emits_write_outputs_quiet env results) as (dout & Hout & L & S & C & A).
  assert (Hrun : exists d,
             emits (report_results env results) (List.filter failed results) d
             /\ logged d
                = [ (WARNING, EmptyString); (WARNING, Py.repeat "=" 60);
                    (WARNING, "BUILD RESULTS"); (WARNING, Py.repeat "=" 60) ]
                  ++ map (fun r => (WARNING, console_line r)) results
                  ++ [ (WARNING, Py.repeat "=" 60) ]
             /\ calls d = [] /\ slept d = []
             /\ (truthy (GITHUB_OUTPUT env) = false ->
                 truthy (GITHUB_STEP_SUMMARY env) = false -> appended d = [])).
  { unfold report_results. eexists. split.
    - do 4 (eapply emits_bind; [apply emits_logger|]).
      eapply emits_bind;
        [apply (emits_for_each _ _ (fun r => logs_of [(WARNING, console_line r)]));
         intros r; apply emits_logger|].
      eapply emits_bind; [apply emits_logger|].
      eapply emits_bind; [|apply emits_ret].
      instantiate (1 :=
        if is_github_actions env then
          world_app (foldr (fun x acc => world_app (wrote [error_annotation x]) acc) world0
                       (List.filter failed results))
            (world_app (foldr (fun x acc => world_app (wrote [notice_annotation x]) acc)
                          world0 (List.filter succeeded results))
               (world_app
                  (files_of
                     (if truthy (GITHUB_STEP_SUMMARY env)
                      then [(or_str (GITHUB_STEP_SUMMARY env) EmptyString,
                             join nl (summary_lines results (List.filter failed results))
                             +:+ nl)]
                      else []))
                  dout))
        else world0).
      destruct (is_github_actions env); [|apply emits_ret].
      eapply emits_bind;
        [apply (emits_for_each _ _ (fun r => wrote [error_annotation r]));
         apply emits_annotate_failure|].
      eapply emits_bind;
        [apply (emits_for_each _ _ (fun r => wrote [notice_annotation r]));
         apply emits_annotate_success|].
      eapply emits_bind; [apply emits_write_github_summary | exact Hout].
    - cbn [logged calls slept appended world_app logs_of app].
      rewrite !logged_foldr_world, !calls_foldr_world, !slept_foldr_world,
        !appended_foldr_world.
      cbn [logged calls slept appended logs_of].
      rewrite !concat_map_nil, concat_map_singleton. cbn [app].
      destruct (is_github_actions env).
      + cbn [logged calls slept appended world_app files_of world0].
        rewrite !logged_foldr_world, !calls_foldr_world, !slept_foldr_world,
          !appended_foldr_world.
        cbn [logged calls slept appended wrote].
        rewrite !concat_map_nil, L, S, C, !app_nil_r. cbn [app].
        repeat split. intros Ho Hs. rewrite Hs, (A Ho). reflexivity.
      + cbn [logged calls slept appended world0]. rewrite !app_nil_r. repeat split. }
  destruct Hrun as (d & Hd & Hl & Hc & Hs & Ha).
  exists (world_app w d). split; [apply Hd|]. cbn [logged calls slept appended world_app].
  rewrite Hl, Hc, Hs, !app_nil_r. repeat split.
  intros Ho Hsum. now rewrite (Ha Ho Hsum), app_nil_r.
Qed.

Lemma replace_without_newline (message : string) :
  has_newline message = false -> replace LF "%0A" message = message.
Proof.
  induction message as [|c m IH]; [reflexivity|]. cbn [has_newline replace].
  intros H. apply orb_false_iff in H as [Hc Hm]. now rewrite Hc, IH.
Qed.

(** X10: an annotation whose title is absent or empty has no title part at
    all, and a message that holds no newline goes out as it is, so that the
    annotation is the one line [::<level>::<message>]. *)
Theorem annotation_without_title (level message : string) (title : option string)
    (w : world) :
  truthy title = false ->
  has_newline message = false ->
  emit_github_annotation level message title w
  = (Returned tt, world_app w (wrote [("::" +:+ level +:+ "::" +:+ message) +:+ nl])).
Proof.
  intros Ht Hm. unfold emit_github_annotation.
  rewrite Ht, replace_without_newline by exact Hm. apply emits_print.
Qed.

Lemma annotation_without_title_demo :
  emit_github_annotation "warning" "Something odd" (Some EmptyString) world0
  = (Returned tt,
     world_app world0 (wrote [("::" +:+ "warning" +:+ "::" +:+ "Something odd") +:+ nl])).
Proof.
  exact (annotation_without_title "warning" "Something odd" (Some EmptyString) world0
           eq_refl eq_refl).
Defined.

(** ** The fan-out poller: what the results are made of, and what it costs *)

Section Provenance.

Context {svc : ContainerService}.
Variable env : environ.
Variable resource_group : string.
Variable image_names : list string.
Variable portal_urls_arg : option (gmap string string).

Local Abbreviation poll1 := (poll_one env resource_group image_names portal_urls_arg).
Local Abbreviation body := (loop_body env resource_group image_names portal_urls_arg).
Local Abbreviation loop := (while_pending env resource_group image_names portal_urls_arg).
Local Abbreviation from_poll := (stored_by_poll resource_group portal_urls_arg).

Local Abbreviation all_from_polls := (all_from_polls resource_group portal_urls_arg).

Lemma poll_one_from_polls (name : string) (s s' : session) (w w' : world) :
  all_from_polls s -> poll1 name s w = (Returned s', w') -> all_from_polls s'.
Proof.
  intros Hall Heq.
  destruct (poll_one_cases env resource_group image_names portal_urls_arg name s w)
    as [(_ & H)|[(_ & e & _ & H)|[(_ & cg & prev & ch & nt & Hget & _ & H)|(_ & e & w0 & H)]]];
    cbv zeta in H; rewrite H in Heq; try discriminate; injection Heq as <- <-;
    try exact Hall.
  intros n r. cbn [results]. destruct (decide (name = n)) as [<-|Hne].
  - rewrite lookup_insert_eq. intros [= <-]. exists (length (calls w)), cg. now split.
  - rewrite lookup_insert_ne by exact Hne. apply Hall.
Qed.

Lemma for_fold_from_polls (l : list string) (s s' : session) (w w' : world) :
  all_from_polls s -> for_fold l poll1 s w = (Returned s', w') -> all_from_polls s'.
Proof.
  revert s w. induction l as [|x l IH]; intros s w Hall Heq.
  - now injection Heq as <- <-.
  - cbn [for_fold] in Heq. unfold bind in Heq.
    destruct (poll1 x s w) as [[s1|e] w1] eqn:H1; [|discriminate].
    eapply IH; [|exact Heq]. eapply poll_one_from_polls; eassumption.
Qed.

Lemma loop_body_from_polls (s s' : session) (w w' : world) :
  all_from_polls s -> body s w = (Returned s', w') -> all_from_polls s'.
Proof.
  intros Hall Heq. unfold loop_body, sweep, bind in Heq.
  destruct (for_fold image_names poll1 s w) as [[s1|e] w1] eqn:H1; [|discriminate].
  destruct (pause_emits image_names s1) as (d & Hd & _). rewrite (Hd w1) in Heq.
  injection Heq as <- <-. eapply for_fold_from_polls; eassumption.
Qed.

Lemma while_pending_from_polls (fuel : nat) (s s' : session) (w w' : world) :
  all_from_polls s -> loop fuel s w = Some (Returned s', w') -> all_from_polls s'.
Proof.
  revert s w. induction fuel as [|fuel IH]; intros s w Hall; cbn [while_pending];
    destruct (pending_left image_names s); try discriminate;
    try (intros [= <- <-]; exact Hall).
  destruct (body s w) as [[s1|e] w1] eqn:H1; [|discriminate].
  apply IH. eapply loop_body_from_polls; eassumption.
Qed.

(** The session [wait_for_builds] reads its results from. *)
Lemma wait_for_builds_session (fuel : nat) (w w' : world) (rs : list BuildResult) :
  wait_for_builds env resource_group image_names portal_urls_arg fuel w
  = Some (Returned rs, w') ->
  exists s,
    session_ok image_names s /\ all_from_polls s
    /\ (forall n, n ∈ image_names -> n ∈ completed s)
    /\ Forall2 (fun n r => results s !! n = Some r) image_names rs.
Proof.
  destruct (wait_for_builds_eq env resource_group image_names portal_urls_arg fuel w)
    as (d & _ & _ & ->).
  destruct (loop fuel (session0 image_names) (world_app w d)) as [[o1 w1]|] eqn:Hloop;
    [|discriminate].
  destruct (while_pending_left env resource_group image_names portal_urls_arg
              fuel _ _ o1 w1 (session0_ok image_names) Hloop) as (s & -> & Hok & Hp).
  assert (Hfrom : all_from_polls s).
  { eapply while_pending_from_polls; [|exact Hloop].
    intros n r Hr. cbn in Hr. now rewrite lookup_empty in Hr. }
  destruct (epilogue_eq env w1) as (d' & Hd' & _).
  destruct (collect_stored (results s) image_names (world_app w1 d')) as (rs' & Hrs & Hfor).
  { intros n Hn.
    pose proof (all_completed image_names s Hok Hp n Hn) as Hin.
    destruct Hok as (_ & Hdone & _). destruct (Hdone n Hin) as (_ & r & Hr & _). eauto. }
  unfold bind. rewrite Hd', Hrs. intros [= <- <-]. exists s.
  split; [exact Hok|]. split; [exact Hfrom|]. split; [|exact Hfor].
  now apply all_completed.
Qed.

End Provenance.

(** X11: every result [wait_for_builds] returns carries the portal link the
    caller gave for its identifier, and the empty link when the caller gave
    none for it (or no dictionary at all). *)
Theorem wait_for_builds_portal_urls {svc : ContainerService} (env : environ)
    (resource_group : string) (image_names : list string)
    (portal_urls_arg : option (gmap string string))
    (fuel : nat) (w w' : world) (rs : list BuildResult) :
  wait_for_builds env resource_group image_names portal_urls_arg fuel w
  = Some (Returned rs, w') ->
  Forall2 (fun name r =>
             portal_url r
             = match portal_urls_arg with
               | Some urls => default EmptyString (urls !! name)
               | None => EmptyString
               end)
          image_names rs.
Proof.
  intros Hrun.
  destruct (wait_for_builds_session env resource_group image_names portal_urls_arg
              fuel w w' rs Hrun) as (s & _ & Hfrom & _ & Hfor).
  eapply Forall2_impl; [exact Hfor|]. cbn beta. intros n r Hr.
  destruct (Hfrom n r Hr) as (t & cg & _ & ->). cbn.
  unfold dict_get, portal_urls. destruct portal_urls_arg as [urls|]; [reflexivity|].
  cbn. now rewrite lookup_empty.
Qed.

Lemma wait_for_builds_portal_urls_demo :
  exists rs w',
    @wait_for_builds b_first local_env "rg" two_jobs
      (Some {[ "a" := "https://portal/a" ]}) 2 world0 = Some (Returned rs, w')
    /\ Forall2 (fun name r =>
                  portal_url r
                  = default EmptyString
                      (({[ "a" := "https://portal/a" ]} : gmap string string) !! name))
               two_jobs rs.
Proof.
  destruct (@wait_for_builds b_first local_env "rg" two_jobs
              (Some {[ "a" := "https://portal/a" ]}) 2 world0)
    as [[[rs|e] w']|] eqn:Hrun; try (vm_compute in Hrun; discriminate Hrun).
  exists rs, w'. split; [reflexivity|].
  exact (@wait_for_builds_portal_urls b_first local_env "rg" two_jobs
           (Some {[ "a" := "https://portal/a" ]}) 2 world0 w' rs Hrun).
Defined.



Section Cost.

Context {svc : ContainerService}.
Variable env : environ.
Variable resource_group : string.
Variable image_names : list string.
Variable portal_urls_arg : option (gmap string string).

Local Abbreviation poll1 := (poll_one env resource_group image_names portal_urls_arg).
Local Abbreviation body := (loop_body env resource_group image_names portal_urls_arg).
Local Abbreviation loop := (while_pending env resource_group image_names portal_urls_arg).








(** *** Standard output *)

Local Abbreviation streamed := (streamed_between env resource_group image_names).











End Cost.



Example wait_for_builds_local_output :
  match @wait_for_builds b_first local_env "rg" two_jobs None 2 world0 with
  | Some (Returned _, w') =>
      stdout w' = [ Py.repeat ("step" +:+ nl) 1; Py.repeat ("step" +:+ nl) 3;
                    str_from (Py.repeat ("step" +:+ nl) 5) 5 ]
  | _ => False
  end.
Proof. vm_compute. reflexivity. Qed.

Section Immediate.

Context {svc : ContainerService}.
Variable env : environ.
Variable resource_group : string.
Variable image_names : list string.
Variable portal_urls_arg : option (gmap string string).
Hypothesis Hterminal : all_terminal_from resource_group image_names 0.

Local Abbreviation poll1 := (poll_one env resource_group image_names portal_urls_arg).

(** Polling a pending job that the service reports as terminal takes two
    client calls and completes it. *)
Lemma poll_one_terminal (name : string) (s : session) (w : world) :
  session_ok image_names s -> name ∈ image_names -> name ∉ completed s ->
  exists s' w',
    poll1 name s w = (Returned s', w') /\ session_ok image_names s'
    /\ completed s' = {[name]} ∪ completed s
    /\ length (calls w') = (length (calls w) + 2)%nat /\ slept w' = slept w.
Proof.
  intros Hok Hname Hnot.
  destruct (poll_one_moves_on env resource_group image_names portal_urls_arg
              name s w Hok Hname) as (s' & w' & Heq & Hok' & _).
  exists s', w'. split; [exact Heq|]. split; [exact Hok'|].
  destruct (Hterminal (length (calls w)) name (Nat.le_0_l _) Hname) as (cg & Hget & Hst).
  destruct (poll_one_cases env resource_group image_names portal_urls_arg name s w)
    as [(Hin & _)|[(_ & e & He & _)|[(_ & cg' & prev & ch & nt & Hget' & _ & H)|(_ & e & w0 & H)]]];
    try contradiction; try congruence.
  cbv zeta in H. rewrite H in Heq. injection Heq as <- <-.
  assert (cg' = cg) as -> by congruence.
  cbn [completed calls slept world_app calls_of wrote logs_of].
  rewrite poll_result_state, Hst, String.eqb_refl, !length_app, !app_nil_r.
  repeat split.
Qed.

Lemma for_fold_terminal (l : list string) (s : session) (w : world) :
  session_ok image_names s -> NoDup l ->
  (forall n, n ∈ l -> n ∈ image_names /\ n ∉ completed s) ->
  exists s' w',
    for_fold l poll1 s w = (Returned s', w') /\ session_ok image_names s'
    /\ (forall n, n ∈ l -> n ∈ completed s')
    /\ length (calls w') = (length (calls w) + 2 * length l)%nat /\ slept w' = slept w.
Proof.
  revert s w. induction l as [|x l IH]; intros s w Hok Hnodup Hl.
  - exists s, w. split; [reflexivity|]. split; [exact Hok|]. split; [|split; [cbn; lia | reflexivity]].
    intros n Hn. now apply elem_of_nil in Hn.
  - apply NoDup_cons in Hnodup as [Hx Hnodup].
    destruct (Hl x) as [Hxin Hxnot]; [now left|].
    destruct (poll_one_terminal x s w Hok Hxin Hxnot)
      as (s1 & w1 & H1 & Hok1 & Hc1 & Hcalls1 & Hs1).
    destruct (IH s1 w1 Hok1 Hnodup) as (s2 & w2 & H2 & Hok2 & Hc2 & Hcalls2 & Hs2).
    { intros n Hn. destruct (Hl n) as [Hnin Hnnot]; [now right|]. split; [exact Hnin|].
      rewrite Hc1, elem_of_union, elem_of_singleton. intros [->|H']; contradiction. }
    exists s2, w2. cbn [for_fold]. unfold bind. rewrite H1, H2.
    split; [reflexivity|]. split; [exact Hok2|]. split; [|split].
    + intros n Hn. apply elem_of_cons in Hn as [->|Hn]; [|now apply Hc2].
      destruct (for_fold_moves_on env resource_group image_names portal_urls_arg
                  l s1 w1 Hok1) as (s2' & w2' & H2' & _ & Hsub & _).
      { intros n Hn. now apply Hl; right. }
      rewrite H2 in H2'. injection H2' as <- <-. apply Hsub. rewrite Hc1.
      apply elem_of_union_l. now apply elem_of_singleton.
    + rewrite Hcalls2, Hcalls1. cbn [length]. lia.
    + now rewrite Hs2, Hs1.
Qed.

End Immediate.

(** X14: when the service reports every job of a duplicate-free list as
    terminal from the first call on, [wait_for_builds] returns after a single
    sweep: it never sleeps, and it issues exactly two client calls per job
    (the status request and the log request). *)
Theorem wait_for_builds_immediate {svc : ContainerService} (env : environ)
    (resource_group : string) (image_names : list string)
    (portal_urls_arg : option (gmap string string)) (w : world) :
  NoDup image_names ->
  all_terminal_from resource_group image_names 0 ->
  exists rs w',
    wait_for_builds env resource_group image_names portal_urls_arg 1 w
    = Some (Returned rs, w')
    /\ map image_name rs = image_names
    /\ slept w' = slept w
    /\ length (calls w') = (length (calls w) + 2 * length image_names)%nat.
Proof.
  intros Hnodup Hterminal.
  destruct (wait_for_builds_eq env resource_group image_names portal_urls_arg 1 w)
    as (d & Hc & Hs & ->).
  assert (Hloop : exists s w1,
             while_pending env resource_group image_names portal_urls_arg 1
               (session0 image_names) (world_app w d) = Some (Returned s, w1)
             /\ session_ok image_names s /\ pending_left image_names s = false
             /\ slept w1 = slept w
             /\ length (calls w1) = (length (calls w) + 2 * length image_names)%nat).
  { cbn [while_pending].
    destruct (pending_left image_names (session0 image_names)) eqn:Hp.
    - destruct (for_fold_terminal env resource_group image_names portal_urls_arg
                  Hterminal image_names (session0 image_names) (world_app w d)
                  (session0_ok image_names) Hnodup)
        as (s & w1 & Hfold & Hok & Hall & Hcalls & Hslept).
      { intros n Hn. split; [exact Hn|]. cbn. apply not_elem_of_empty. }
      assert (Hp' : pending_left image_names s = false)
        by now apply pending_left_when_all_completed.
      exists s, w1. unfold loop_body, sweep, bind. rewrite Hfold.
      unfold pause. rewrite Hp'. cbn [ret]. rewrite Hp'.
      split; [reflexivity|]. split; [exact Hok|]. split; [reflexivity|].
      rewrite Hslept, Hcalls. cbn [slept calls world_app]. now rewrite Hs, Hc, !app_nil_r.
    - exists (session0 image_names), (world_app w d). split; [reflexivity|].
      split; [apply session0_ok|]. split; [exact Hp|].
      cbn [slept calls world_app]. rewrite Hs, Hc, !app_nil_r. split; [reflexivity|].
      apply pending_left_false in Hp. cbn in Hp. rewrite size_empty in Hp. lia. }
  destruct Hloop as (s & w1 & -> & Hok & Hp & Hslept & Hcalls).
  destruct (epilogue_eq env w1) as (d' & Hd' & Hc' & Hs').
  destruct (collect_session image_names s (world_app w1 d') Hok Hp) as (rs & Hrs & Hmap & _).
  exists rs, (world_app w1 d'). unfold bind. rewrite Hd', Hrs.
  split; [reflexivity|]. split; [exact Hmap|]. cbn [slept calls world_app].
  now rewrite Hs', Hc', !app_nil_r.
Qed.

Lemma all_done_all_terminal : @all_terminal_from all_done "rg" two_jobs 0.
Proof.
  intros t n _ _. exists (group_in TERMINATED (Some 0)). split; reflexivity.
Defined.

Lemma wait_for_builds_immediate_demo :
  NoDup two_jobs
  /\ @all_terminal_from all_done "rg" two_jobs 0
  /\ exists rs w',
       @wait_for_builds all_done local_env "rg" two_jobs None 1 world0
       = Some (Returned rs, w')
       /\ map image_name rs = two_jobs
       /\ slept w' = slept world0
       /\ length (calls w') = (length (calls world0) + 2 * length two_jobs)%nat.
Proof.
  assert (Hnodup : NoDup two_jobs) by compute_done.
  split; [exact Hnodup|]. split; [exact all_done_all_terminal|].
  exact (@wait_for_builds_immediate all_done local_env "rg" two_jobs None world0
           Hnodup all_done_all_terminal).
Defined.

(** ** The single-job follower *)

Section Follow.

Context {svc : ContainerService}.
Variable resource_group : string.
Variable image : string.

Local Abbreviation step := (follow_step resource_group image).
Local Abbreviation floop := (follow_loop resource_group image).

(** The three ways one pass of the follower's loop can go: the status
    request raised; the container was found terminated; it was not. *)
Lemma follow_step_cases (log_offset : Z) (w : world) :
  (exists e,
      cg_get (length (calls w)) resource_group image = Raised e
      /\ step log_offset w
         = (Returned (inr log_offset),
            world_app w (world_app (calls_of [CallGet resource_group image])
                           (logs_of [(INFO, "Error polling " +:+ image +:+ ": " +:+ e)]))))
  \/ (exists cg chunks notices,
        cg_get (length (calls w)) resource_group image = Returned cg
        /\ is_terminated (container_label cg) = true
        /\ In (WARNING,
               match container_exit_code cg with
               | Some 0 => image +:+ ": build succeeded"
               | code => image +:+ ": build FAILED (exit code "
                         +:+ str_of_opt_int code +:+ ")"
               end) notices
        /\ step log_offset w
           = (Returned (inl (exit_code_or_zero (container_exit_code cg))),
              world_app w
                (world_app (calls_of [CallGet resource_group image;
                                      CallListLogs resource_group image
                                        (log_container_name cg image)])
                   (world_app (wrote chunks) (logs_of notices)))))
  \/ (exists cg chunks,
        cg_get (length (calls w)) resource_group image = Returned cg
        /\ is_terminated (container_label cg) = false
        /\ step log_offset w
           = (Returned (inr (next_offset
                               (fetched_logs (S (length (calls w))) resource_group image
                                  (log_container_name cg image))
                               log_offset)),
              world_app w
                (world_app (calls_of [CallGet resource_group image;
                                      CallListLogs resource_group image
                                        (log_container_name cg image)])
                   (wrote chunks)))).
Proof.
  destruct (step log_offset w) as [o w'] eqn:Hstep.
  unfold follow_step, try_except in Hstep. unfold bind at 1 in Hstep.
  rewrite client_eq in Hstep.
  destruct (cg_get (length (calls w)) resource_group image) as [cg|e] eqn:Hget.
  2:{ left. exists e. split; [reflexivity|]. rewrite <- Hstep. unfold bind.
      rewrite (emits_logger INFO _ _). cbn [ret]. now rewrite world_app_assoc. }
  right. cbv beta iota in Hstep.
  destruct (_get_container_state cg) as [[st code] detail] eqn:Hstate.
  unfold bind at 1 in Hstep. rewrite fetch_logs_eq in Hstep. cbv beta iota in Hstep.
  cbn [calls world_app calls_of] in Hstep. rewrite length_app in Hstep.
  cbn [length] in Hstep. rewrite Nat.add_1_r in Hstep.
  set (logs := fetched_logs (S (length (calls w))) resource_group image
                 (log_container_name cg image)) in *.
  match type of Hstep with
  | context [bind (_stream_log_delta image logs log_offset false) _ ?w1] =>
      destruct (stream_log_delta_eq image logs log_offset false w1) as (chunks & Hstream)
  end.
  unfold bind at 1 in Hstep. rewrite Hstream in Hstep. cbv beta iota in Hstep.
  destruct (is_terminated st) eqn:Hterm.
  - left.
    assert (Hmsg : exists msg,
               emits (match code with
                      | Some 0 => logger WARNING (image +:+ ": build succeeded")
                      | _ => logger WARNING (image +:+ ": build FAILED (exit code "
                                             +:+ str_of_opt_int code +:+ ")")
                      end) tt (logs_of [(WARNING, msg)])
               /\ msg = match code with
                        | Some 0 => image +:+ ": build succeeded"
                        | c => image +:+ ": build FAILED (exit code "
                               +:+ str_of_opt_int c +:+ ")"
                        end).
    { destruct code as [[| |]|]; eexists; (split; [apply emits_logger | reflexivity]). }
    destruct Hmsg as (msg & Hmsg & Hmsg').
    assert (Hdetail : exists more,
               emits (if truthy detail
                      then logger WARNING ("  Detail: " +:+ or_str detail EmptyString)
                      else ret tt) tt (logs_of more)).
    { destruct (truthy detail).
      - eexists. apply emits_logger.
      - exists []. apply emits_ret. }
    destruct Hdetail as (more & Hdetail).
    exists cg, chunks, ((WARNING, EmptyString) :: (WARNING, msg) :: more).
    unfold container_label, container_exit_code. rewrite Hstate. cbn [fst snd].
    split; [reflexivity|]. split; [exact Hterm|].
    split; [right; left; subst msg; destruct code as [[| |]|]; reflexivity|].
    rewrite <- Hstep.
    unfold bind. rewrite (emits_logger WARNING EmptyString _), (Hmsg _), (Hdetail _).
    cbn [ret]. rewrite !world_app_assoc. reflexivity.
  - right. exists cg, chunks.
    unfold container_label. rewrite Hstate. cbn [fst snd].
    split; [reflexivity|]. split; [exact Hterm|].
    rewrite <- Hstep. cbn [ret]. rewrite !world_app_assoc. reflexivity.
Qed.

(** What the follower's loop has done when it returns. *)
Lemma follow_loop_returned (fuel : nat) (log_offset : Z) (w w' : world) (o : outcome Z) :
  floop fuel log_offset w = Some (o, w') ->
  exists cg k new,
    cg_get (length (calls w') - 2) resource_group image = Returned cg
    /\ is_terminated (container_label cg) = true
    /\ o = Returned (exit_code_or_zero (container_exit_code cg))
    /\ calls w' = calls w ++ new
    /\ length (List.filter is_status_request new) = S k
    /\ slept w' = slept w ++ replicate k POLL_INTERVAL_SECONDS
    /\ appended w' = appended w
    /\ (S k <= fuel)%nat.
Proof.
  revert log_offset w. induction fuel as [|fuel IH]; intros log_offset w; [discriminate|].
  cbn [follow_loop].
  destruct (follow_step_cases log_offset w)
    as [(e & Hget & ->)|[(cg & chunks & notices & Hget & Hterm & _ & ->)
                        |(cg & chunks & Hget & Hterm & ->)]].
  - intros Hrest. apply IH in Hrest
      as (cg & k & new & Hcg & Hterm & -> & Hcalls & Hcount & Hslept & Happ & Hk).
    cbn [snd sleep calls slept appended world_app calls_of logs_of] in *.
    rewrite ?app_nil_r in *.
    exists cg, (S k), (CallGet resource_group image :: new).
    split; [exact Hcg|]. split; [exact Hterm|]. split; [reflexivity|].
    split; [rewrite Hcalls, <- app_assoc; reflexivity|].
    split; [cbn; now rewrite Hcount|].
    split; [rewrite Hslept, <- app_assoc; reflexivity|].
    split; [exact Happ | lia].
  - intros [= <- <-]. cbn [calls slept appended world_app calls_of wrote logs_of].
    rewrite ?app_nil_r.
    exists cg, 0%nat, [CallGet resource_group image;
                       CallListLogs resource_group image (log_container_name cg image)].
    split.
    { rewrite length_app. cbn [length].
      now replace (length (calls w) + 2 - 2)%nat with (length (calls w)) by lia. }
    split; [exact Hterm|]. split; [reflexivity|]. split; [reflexivity|].
    split; [reflexivity|]. split; [now rewrite app_nil_r|]. split; [reflexivity | lia].
  - intros Hrest. apply IH in Hrest
      as (cg' & k & new & Hcg & Hterm' & -> & Hcalls & Hcount & Hslept & Happ & Hk).
    cbn [snd sleep calls slept appended world_app calls_of wrote] in *.
    rewrite ?app_nil_r in *.
    exists cg', (S k),
      (CallGet resource_group image
       :: CallListLogs resource_group image (log_container_name cg image) :: new).
    split; [exact Hcg|]. split; [exact Hterm'|]. split; [reflexivity|].
    split; [rewrite Hcalls, <- app_assoc; reflexivity|].
    split; [cbn; now rewrite Hcount|].
    split; [rewrite Hslept, <- app_assoc; reflexivity|].
    split; [exact Happ | lia].
Qed.

Lemma follow_loop_terminates (T k : nat) (log_offset : Z) (w : world) :
  terminated_from resource_group image T ->
  (T - length (calls w) <= k)%nat ->
  exists fuel v w', floop fuel log_offset w = Some (Returned v, w').
Proof.
  intros HT. revert log_offset w. induction k as [|k IH]; intros log_offset w Hk;
    destruct (follow_step_cases log_offset w)
      as [(e & Hget & Hstep)|[(cg & chunks & notices & Hget & Hterm & _ & Hstep)
                             |(cg & chunks & Hget & Hterm & Hstep)]];
    try (exists 1%nat; eexists _, _; cbn [follow_loop]; rewrite Hstep; reflexivity);
    try (destruct (HT (length (calls w))) as (cg0 & Hget0 & Hterm0); [lia|]; congruence).
  - edestruct (IH log_offset) as (fuel & v & w' & Hloop);
      [|exists (S fuel), v, w'; cbn [follow_loop]; rewrite Hstep; exact Hloop].
    cbn [snd sleep calls world_app calls_of logs_of]. rewrite !length_app. cbn [length]. lia.
  - edestruct (IH (next_offset
                     (fetched_logs (S (length (calls w))) resource_group image
                        (log_container_name cg image)) log_offset))
      as (fuel & v & w' & Hloop);
      [|exists (S fuel), v, w'; cbn [follow_loop]; rewrite Hstep; exact Hloop].
    cbn [snd sleep calls world_app calls_of wrote]. rewrite !length_app. cbn [length]. lia.
Qed.

End Follow.

Lemma exit_code_or_zero_eq (code : option Z) :
  exit_code_or_zero code = match code with Some c => c | None => 0 end.
Proof. destruct code as [c|]; [|reflexivity]. cbn. destruct (Z.eqb_spec c 0); congruence. Qed.

(** X15: [follow_image_logs] raises exactly when the client factory, which
    it calls once before its loop and outside of the [try], raises: it then
    raises the factory's error at once, with nothing logged, requested or
    slept.  With a client at hand it never raises: whenever it returns, its
    last status request found the container terminated, and the value
    returned is the exit code reported there, or 0 when none was reported;
    and it does return, with enough passes, once the service reports the
    container as terminated from some call on, whatever failed or was
    reported before. *)
Theorem follow_image_logs_returns {svc : ContainerService} {factory : ClientFactory}
    (resource_group image : string) (w : world) :
  (forall e, cf_container_groups = Raised e ->
     forall fuel, follow_image_logs resource_group image fuel w = Some (Raised e, w))
  /\ (forall fuel e w',
        follow_image_logs resource_group image fuel w = Some (Raised e, w') ->
        cf_container_groups = Raised e /\ w' = w)
  /\ (forall fuel v w',
        follow_image_logs resource_group image fuel w = Some (Returned v, w') ->
        cf_container_groups = Returned tt
        /\ exists cg,
             cg_get (length (calls w') - 2) resource_group image = Returned cg
             /\ is_terminated (container_label cg) = true
             /\ v = match container_exit_code cg with Some c => c | None => 0 end)
  /\ (forall T, cf_container_groups = Returned tt ->
        terminated_from resource_group image T ->
        exists fuel v w',
          follow_image_logs resource_group image fuel w = Some (Returned v, w')).
Proof.
  unfold follow_image_logs. split; [|split; [|split]].
  - intros e -> fuel. reflexivity.
  - intros fuel e w'. destruct cf_container_groups as [[]|e0].
    + intros Hrun.
      apply follow_loop_returned in Hrun as (cg & k & new & _ & _ & H3 & _).
      discriminate H3.
    + now intros [= <- <-].
  - intros fuel v w'. destruct cf_container_groups as [[]|e0]; [|discriminate].
    intros Hrun. split; [reflexivity|].
    apply follow_loop_returned in Hrun as (cg & k & new & H1 & H2 & H3 & _).
    exists cg. split; [exact H1|]. split; [exact H2|].
    injection H3 as ->. apply exit_code_or_zero_eq.
  - intros T -> HT.
    now apply (follow_loop_terminates resource_group image T
                 (T - length (calls (snd (logger WARNING
                                            ("Following logs for " +:+ image +:+ "...") w))))).
Qed.

Lemma b_first_terminated_from : @terminated_from b_first "rg" "a" 4.
Proof.
  intros t Ht. exists (group_in TERMINATED (Some 0)). split; [|reflexivity].
  cbn [cg_get b_first]. apply Nat.ltb_ge in Ht. now rewrite Ht.
Defined.

Lemma follow_image_logs_returns_demo :
  @cf_container_groups client_available = Returned tt
  /\ @terminated_from b_first "rg" "a" 4
  /\ exists fuel v w',
       @follow_image_logs b_first client_available "rg" "a" fuel world0
       = Some (Returned v, w').
Proof.
  split; [reflexivity|]. split; [exact b_first_terminated_from|].
  destruct (@follow_image_logs_returns b_first client_available "rg" "a" world0)
    as (_ & _ & _ & H).
  exact (H 4%nat eq_refl b_first_terminated_from).
Defined.

Example follow_b_first :
  match @follow_image_logs b_first client_available "rg" "a" 3 world0 with
  | Some (Returned v, w') =>
      v = 0 /\ slept w' = [15; 15]
      /\ text_of (stdout w') = Py.repeat ("step" +:+ nl) 5
      /\ logged w' = [ (WARNING, "Following logs for a...");
                       (WARNING, EmptyString); (WARNING, "a: build succeeded") ]
  | _ => False
  end.
Proof. vm_compute. repeat split. Qed.

Example follow_without_client :
  forall fuel,
    @follow_image_logs b_first client_unavailable "rg" "a" fuel world0
    = Some (Raised "no subscription found", world0).
Proof. reflexivity. Qed.

(** X16: when [follow_image_logs] returns, it has slept the poll interval of
    15 seconds once after every status request but the last one (after a
    request that raised as after one that found the job still running), and
    it has appended to no file. *)
Theorem follow_image_logs_sleeps {svc : ContainerService} {factory : ClientFactory}
    (resource_group image : string) (fuel : nat) (w w' : world) (v : Z) :
  follow_image_logs resource_group image fuel w = Some (Returned v, w') ->
  exists k new,
    calls w' = calls w ++ new
    /\ length (List.filter is_status_request new) = S k
    /\ slept w' = slept w ++ replicate k POLL_INTERVAL_SECONDS
    /\ appended w' = appended w
    /\ (S k <= fuel)%nat.
Proof.
  unfold follow_image_logs. destruct cf_container_groups as [[]|e]; [|discriminate].
  intros Hrun.
  apply follow_loop_returned in Hrun as (cg & k & new & _ & _ & _ & H4 & H5 & H6 & H7 & H8).
  exists k, new. auto.
Qed.

Lemma follow_image_logs_sleeps_demo :
  exists v w' k new,
    @follow_image_logs b_first client_available "rg" "a" 3 world0 = Some (Returned v, w')
    /\ calls w' = calls world0 ++ new
    /\ length (List.filter is_status_request new) = S k
    /\ slept w' = slept world0 ++ replicate k POLL_INTERVAL_SECONDS.
Proof.
  destruct (@follow_image_logs b_first client_available "rg" "a" 3 world0)
    as [[[v|e] w']|] eqn:Hrun; try (vm_compute in Hrun; discriminate Hrun).
  destruct (@follow_image_logs_sleeps b_first client_available "rg" "a" 3 world0 w' v Hrun)
    as (k & new & H1 & H2 & H3 & _).
  exists v, w', k, new. auto.
Defined.

(** X17: when the first status request finds the container terminated with no
    exit code, [follow_image_logs] returns 0, the value it returns for a
    build that succeeded, although the notice it logs says that the build
    FAILED, and although the result [poll_build] makes of the same container
    group is neither succeeded nor failed. *)
Theorem follow_image_logs_without_exit_code {svc : ContainerService}
    {factory : ClientFactory}
    (resource_group image : string) (fuel : nat) (w : world) (cg : container_group) :
  cf_container_groups = Returned tt ->
  cg_get (length (calls w)) resource_group image = Returned cg ->
  is_terminated (container_label cg) = true ->
  container_exit_code cg = None ->
  exists w',
    follow_image_logs resource_group image (S fuel) w = Some (Returned 0, w')
    /\ In (WARNING, image +:+ ": build FAILED (exit code None)") (logged w')
    /\ forall logs, succeeded (poll_result image cg logs) = false
                    /\ failed (poll_result image cg logs) = false.
Proof.
  intros Hfactory Hget Hterm Hcode. unfold follow_image_logs. rewrite Hfactory.
  cbn [follow_loop].
  set (w0 := snd (logger WARNING ("Following logs for " +:+ image +:+ "...") w)).
  assert (Hcalls : calls w0 = calls w) by reflexivity.
  destruct (follow_step_cases resource_group image 0 w0)
    as [(e & Hget' & _)|[(cg' & chunks & notices & Hget' & _ & Hmsg & ->)
                        |(cg' & chunks & Hget' & Hterm' & _)]];
    rewrite Hcalls in Hget'; try congruence.
  assert (cg' = cg) as -> by congruence. rewrite Hcode in *. cbn [exit_code_or_zero].
  eexists. split; [reflexivity|]. split.
  - cbn [logged world_app calls_of wrote logs_of]. rewrite !app_nil_l.
    apply in_or_app. right. exact Hmsg.
  - intros logs. unfold container_exit_code in Hcode.
    unfold succeeded, failed, poll_result.
    destruct (_get_container_state cg) as [[st code] detail]. cbn [fst snd] in Hcode.
    subst code. now destruct (first_current_state cg).
Qed.

Lemma follow_image_logs_without_exit_code_demo :
  exists w',
    @follow_image_logs terminated_without_code client_available "rg" "a" 1 world0
    = Some (Returned 0, w')
    /\ In (WARNING, "a" +:+ ": build FAILED (exit code None)") (logged w').
Proof.
  destruct (@follow_image_logs_without_exit_code terminated_without_code client_available
              "rg" "a" 0 world0 (group_in TERMINATED None) eq_refl eq_refl eq_refl eq_refl)
    as (w' & H1 & H2 & _).
  exists w'. auto.
Defined.
